(** * Trireme supervisor and iptables controller: a shallow embedding

    The development follows the Go sources of the repository:

    - [policy/runtime.go]             ([NewPURuntime], [Options])
    - [internal/supervisor]           ([Supervise], [Unsupervise], [doCreatePU],
                                       [doUpdatePU], [revert])
    - [internal/supervisor/iptablesctrl]
                                      ([chainName], [PuPortSetName], [defaultIP],
                                       [ConfigureRules], [DeleteRules],
                                       [UpdateRules], and the rule tables and
                                       ACL renderers of [acls.go])

    Go strings are byte strings and are modelled by [string]; Go [int] values
    are modelled by [Z]; a Go pointer that may be nil is an [option]; a Go
    [error] is an [option string] whose [None] is the nil error.  Calls to the
    packet-filter engine are threaded through an explicit world that also
    records every call in order. *)

From Stdlib Require Import ZArith String Ascii List Lia Bool.
From Stdlib Require Import DecimalString DecimalZ.
From stdpp Require Import base gmap strings list.

Import ListNotations.
Local Open Scope string_scope.
Local Open Scope list_scope.
Local Open Scope Z_scope.

(** ** Go standard library functions used by the sources *)

Module Go.

(** [len(s)] for a string: the number of bytes. *)
Definition len (s : string) : Z := Z.of_nat (String.length s).

(** [s[:n]] for [n <= len(s)]. *)
Definition slice_to (n : nat) (s : string) : string := String.substring 0 n s.

(** [strconv.Itoa]. *)
Definition Itoa (v : Z) : string := NilZero.string_of_int (Z.to_int v).

(** [strings.ToLower] on ASCII letters. *)
Definition lower_ascii (c : ascii) : ascii :=
  let n := nat_of_ascii c in
  if (Nat.leb 65 n && Nat.leb n 90)%bool then ascii_of_nat (n + 32) else c.

Fixpoint ToLower (s : string) : string :=
  match s with
  | EmptyString => EmptyString
  | String c r => String (lower_ascii c) (ToLower r)
  end.

(** *** [crypto/md5] *)

Definition w32 : Z := 4294967296.

Definition add32 (a b : Z) : Z := (a + b) mod w32.

Definition not32 (a : Z) : Z := Z.lxor a (w32 - 1).

Definition rotl32 (x c : Z) : Z :=
  Z.lor (Z.shiftl x c mod w32) (Z.shiftr x (32 - c)).

Definition md5_shift : list Z :=
  [7; 12; 17; 22; 7; 12; 17; 22; 7; 12; 17; 22; 7; 12; 17; 22;
   5; 9; 14; 20; 5; 9; 14; 20; 5; 9; 14; 20; 5; 9; 14; 20;
   4; 11; 16; 23; 4; 11; 16; 23; 4; 11; 16; 23; 4; 11; 16; 23;
   6; 10; 15; 21; 6; 10; 15; 21; 6; 10; 15; 21; 6; 10; 15; 21].

Definition md5_sine : list Z :=
  [0xd76aa478; 0xe8c7b756; 0x242070db; 0xc1bdceee;
   0xf57c0faf; 0x4787c62a; 0xa8304613; 0xfd469501;
   0x698098d8; 0x8b44f7af; 0xffff5bb1; 0x895cd7be;
   0x6b901122; 0xfd987193; 0xa679438e; 0x49b40821;
   0xf61e2562; 0xc040b340; 0x265e5a51; 0xe9b6c7aa;
   0xd62f105d; 0x02441453; 0xd8a1e681; 0xe7d3fbc8;
   0x21e1cde6; 0xc33707d6; 0xf4d50d87; 0x455a14ed;
   0xa9e3e905; 0xfcefa3f8; 0x676f02d9; 0x8d2a4c8a;
   0xfffa3942; 0x8771f681; 0x6d9d6122; 0xfde5380c;
   0xa4beea44; 0x4bdecfa9; 0xf6bb4b60; 0xbebfbc70;
   0x289b7ec6; 0xeaa127fa; 0xd4ef3085; 0x04881d05;
   0xd9d4d039; 0xe6db99e5; 0x1fa27cf8; 0xc4ac5665;
   0xf4292244; 0x432aff97; 0xab9423a7; 0xfc93a039;
   0x655b59c3; 0x8f0ccc92; 0xffeff47d; 0x85845dd1;
   0x6fa87e4f; 0xfe2ce6e0; 0xa3014314; 0x4e0811a1;
   0xf7537e82; 0xbd3af235; 0x2ad7d2bb; 0xeb86d391].

Definition bytes_of_string (s : string) : list Z :=
  map (fun c => Z.of_nat (nat_of_ascii c)) (list_ascii_of_string s).

(** Little-endian encoding of the low [n] bytes of [v]. *)
Fixpoint le_bytes (n : nat) (v : Z) : list Z :=
  match n with
  | O => []
  | S k => (v mod 256) :: le_bytes k (v / 256)
  end.

Fixpoint le_word (bs : list Z) : Z :=
  match bs with
  | [] => 0
  | b :: r => b + 256 * le_word r
  end.

Definition md5_pad (msg : list Z) : list Z :=
  let n := Z.of_nat (List.length msg) in
  let zeros := Z.to_nat ((55 - n) mod 64) in
  msg ++ [128] ++ repeat 0 zeros ++ le_bytes 8 (8 * n).

(** Splits a list into consecutive pieces of [k] elements. *)
Fixpoint chunks (fuel k : nat) (l : list Z) : list (list Z) :=
  match fuel with
  | O => []
  | S f =>
      match l with
      | [] => []
      | _ => firstn k l :: chunks f k (skipn k l)
      end
  end.

Record md5_state := MkMd5 { md5A : Z; md5B : Z; md5C : Z; md5D : Z }.

Definition md5_init : md5_state :=
  MkMd5 0x67452301 0xefcdab89 0x98badcfe 0x10325476.

Definition md5_round (m : list Z) (st : md5_state) (i : Z) : md5_state :=
  let '(MkMd5 a b c d) := st in
  let '(f, g) :=
    if i <? 16 then (Z.lor (Z.land b c) (Z.land (not32 b) d), i)
    else if i <? 32 then (Z.lor (Z.land d b) (Z.land (not32 d) c), (5 * i + 1) mod 16)
    else if i <? 48 then (Z.lxor (Z.lxor b c) d, (3 * i + 5) mod 16)
    else (Z.lxor c (Z.lor b (not32 d)), (7 * i) mod 16) in
  let f' := add32 (add32 (add32 f a) (nth (Z.to_nat i) md5_sine 0))
                  (nth (Z.to_nat g) m 0) in
  MkMd5 d (add32 b (rotl32 f' (nth (Z.to_nat i) md5_shift 0))) b c.

Definition md5_block (st : md5_state) (block : list Z) : md5_state :=
  let m := map le_word (chunks 16 4 block) in
  let r := fold_left (md5_round m) (map Z.of_nat (seq 0 64)) st in
  MkMd5 (add32 (md5A st) (md5A r)) (add32 (md5B st) (md5B r))
        (add32 (md5C st) (md5C r)) (add32 (md5D st) (md5D r)).

(** [md5.New(); io.WriteString(hash, s); hash.Sum(nil)]: the 16 digest bytes. *)
Definition md5_sum (s : string) : list Z :=
  let padded := md5_pad (bytes_of_string s) in
  let st := fold_left md5_block (chunks (List.length padded) 64 padded) md5_init in
  le_bytes 4 (md5A st) ++ le_bytes 4 (md5B st) ++
  le_bytes 4 (md5C st) ++ le_bytes 4 (md5D st).

(** *** [encoding/base64], URL alphabet with padding *)

Definition url_alphabet : string :=
  "ABCDEFGHIJKLMNOPQRSTUVWXYZabcdefghijklmnopqrstuvwxyz0123456789-_".

Definition b64_char (v : Z) : ascii :=
  match String.get (Z.to_nat (v mod 64)) url_alphabet with
  | Some c => c
  | None => "="%char
  end.

Fixpoint URLEncodeToString (bs : list Z) : string :=
  match bs with
  | [] => EmptyString
  | [a] =>
      String (b64_char (a / 4))
        (String (b64_char ((a mod 4) * 16)) "==")
  | [a; b] =>
      String (b64_char (a / 4))
        (String (b64_char ((a mod 4) * 16 + b / 16))
           (String (b64_char ((b mod 16) * 4)) "="))
  | a :: b :: c :: r =>
      String (b64_char (a / 4))
        (String (b64_char ((a mod 4) * 16 + b / 16))
           (String (b64_char ((b mod 16) * 4 + c / 64))
              (String (b64_char (c mod 64)) (URLEncodeToString r))))
  end.

End Go.

(** ** Package [constants] *)

Module constants.

(** The operating modes named by the sources ([constants.RemoteContainer],
    [constants.LocalContainer], [constants.LocalServer]). *)
Inductive ModeType : Type :=
| RemoteContainer
| LocalContainer
| LocalServer.

Definition ModeType_eqb (a b : ModeType) : bool :=
  match a, b with
  | RemoteContainer, RemoteContainer => true
  | LocalContainer, LocalContainer => true
  | LocalServer, LocalServer => true
  | _, _ => false
  end.

(** The kinds of processing unit. *)
Inductive PUType : Type :=
| ContainerPU
| LinuxProcessPU
| UIDLoginPU.

End constants.

(** ** Package [policy] *)

Module policy.

(** [policy.DefaultNamespace], the key of the default address of a PU.  The
    constant is declared outside the sources at hand; only its being one fixed
    key matters here. *)
Definition DefaultNamespace : string := "bridge".

(** [ExtendedMap] is [map[string]string]; [None] is the nil map. *)
Abbreviation ExtendedMap := (option (gmap string string)).

(** Reading a key of a possibly nil map: [v, ok := m[k]]. *)
Definition map_get (m : ExtendedMap) (k : string) : option string :=
  match m with
  | None => None
  | Some g => g !! k
  end.

(** [ExtendedMap.Copy]: a fresh map with the same entries, never nil. *)
Definition ExtendedMap_Copy (m : ExtendedMap) : ExtendedMap :=
  match m with
  | None => Some ∅
  | Some g => Some g
  end.

(** [TagStore] holds the tags of a PU as a list of strings. *)
Record TagStore : Type := MkTagStore { Tags : list string }.

(** [NewTagStore]: the empty tag store. *)
Definition NewTagStore : TagStore := MkTagStore [].

Record Service : Type := MkService { Protocol : Z; Port : Z }.

(** The fields of [OptionsType] read by the sources. *)
Record OptionsType : Type := MkOptions {
  CgroupName : string;
  CgroupMark : string;
  UserID : string;
  Services : list Service;
  ProxyPort : string
}.

(** The Go zero value [OptionsType{}]. *)
Definition OptionsType_zero : OptionsType :=
  MkOptions "" "" "" [] "".

(** [PURuntime] of [policy/runtime.go]; the three pointer-like fields keep
    their nil value as [None]. *)
Record PURuntime : Type := MkPURuntime {
  puType : constants.PUType;
  pid : Z;
  nsPath : string;
  name : string;
  ips : ExtendedMap;
  tags : option TagStore;
  options : option OptionsType;
  sidecarUID : string
}.

Definition NewPURuntime (name : string) (pid : Z) (nsPath : string)
    (tags : option TagStore) (ips : ExtendedMap) (puType : constants.PUType)
    (options : option OptionsType) (sidecarUID : string) : PURuntime :=
  let t := match tags with
           | None => Some NewTagStore
           | Some _ => tags
           end in
  let i := match ips with
           | None => Some ∅
           | Some _ => ips
           end in
  let options := match options with
                 | None => Some (MkOptions "" "" "" [] "5000")
                 | Some _ => options
                 end in
  {| puType := puType; tags := t; ips := i; options := options;
     pid := pid; nsPath := nsPath; name := name; sidecarUID := sidecarUID |}.

Definition NewPURuntimeWithDefaults : PURuntime :=
  NewPURuntime "" 0 "" None None constants.ContainerPU None "".

(** [PURuntime.Options]: the stored options, or the zero value when the
    pointer is nil. *)
Definition Options (r : PURuntime) : OptionsType :=
  match options r with
  | None => OptionsType_zero
  | Some o => o
  end.

(** [PURuntime.IPAddresses]: a copy of the address map. *)
Definition Runtime_IPAddresses (r : PURuntime) : ExtendedMap :=
  ExtendedMap_Copy (ips r).

(** [PURuntime.Tags] copies the tag store through the pointer; [None] is the
    nil-pointer dereference. *)
Definition Runtime_Tags (r : PURuntime) : option TagStore :=
  match tags r with
  | None => None
  | Some t => Some (MkTagStore (Tags t))
  end.

(** Modelled from the spec: the action and observation types of the policy
    package are not among the sources.  The spec gives the action as a bitmask
    over Accept, Reject and Log, and the observation as the enumeration
    None, ObserveContinue, ObserveApply. *)
Record ActionType : Type := MkAction {
  has_Accept : bool;
  has_Reject : bool;
  has_Log : bool
}.

Inductive ObserveActionType : Type :=
| ObserveNone
| ObserveContinue
| ObserveApply.

(** [ObserveActionType.Observed]: some observation is requested. *)
Definition Observed (o : ObserveActionType) : bool :=
  match o with
  | ObserveNone => false
  | _ => true
  end.

Definition IsObserveContinue (o : ObserveActionType) : bool :=
  match o with
  | ObserveContinue => true
  | _ => false
  end.

Definition IsObserveApply (o : ObserveActionType) : bool :=
  match o with
  | ObserveApply => true
  | _ => false
  end.

Record FlowPolicy : Type := MkFlowPolicy {
  ObserveAction : ObserveActionType;
  Action : ActionType;
  ServiceID : string;
  PolicyID : string
}.

Record IPRule : Type := MkIPRule {
  Address : string;
  RulePort : string;
  RuleProtocol : string;
  Policy : FlowPolicy
}.

Abbreviation IPRuleList := (list IPRule).

Record ProxiedServicesInfo : Type := MkProxied {
  PublicIPPortPair : list string;
  PrivateIPPortPair : list string
}.

(** The parts of a [PUPolicy] that the supervisor reads, as returned by its
    accessors. [IPAddresses] returns a copy, hence a non-nil map. *)
Record PUPolicy : Type := MkPUPolicy {
  IPAddresses : gmap string string;
  ApplicationACLs : IPRuleList;
  NetworkACLs : IPRuleList;
  ExcludedNetworks : list string;
  TriremeNetworks : list string;
  ProxiedServices : ProxiedServicesInfo
}.

(** [PUInfo]: the policy and runtime pointers may be nil. *)
Record PUInfo : Type := MkPUInfo {
  ContextID : string;
  PUPolicy_of : option PUPolicy;
  Runtime : option PURuntime
}.

(** Modelled from the spec: [policy.ConvertServicesToPortList] is not among
    the sources.  The port list is the comma-separated list of the service
    ports, as the multiport match of the controller takes it, and "0" when
    there is no service, the value that [addChainRules] tests for. *)
Fixpoint join_ports (l : list Service) : string :=
  match l with
  | [] => ""
  | [s] => Go.Itoa (Port s)
  | s :: r => Go.Itoa (Port s) +:+ "," +:+ join_ports r
  end.

Definition ConvertServicesToPortList (l : list Service) : string :=
  match l with
  | [] => "0"
  | _ => join_ports l
  end.

(** The log prefixes of the policy package ([FlowPolicy.LogPrefix] and
    [DefaultLogPrefix]) are not among the sources; the rule renderers only
    pass them on, so they are taken as given. *)
Class LogPrefixes : Type := {
  LogPrefix : FlowPolicy -> string -> string;
  DefaultLogPrefix : string -> string
}.

End policy.

(** ** Package [provider]: the calls made to the packet-filter engine *)

Module provider.

(** One constructor per method of the iptables provider that the controller
    uses, one for destroying an ipset, and one per helper of the controller
    and of the port-set tracker whose body is outside the sources at hand
    ([createProxySets], [updateProxySet], [createPUPortSet],
    [AddUserPortSet], [DelUserPortSet]): each of those is one call with the
    arguments the controller passes. *)
Inductive call : Type :=
| Append (table chain : string) (rulespec : list string)
| Insert (table chain : string) (pos : Z) (rulespec : list string)
| Delete (table chain : string) (rulespec : list string)
| NewChain (table chain : string)
| ClearChain (table chain : string)
| DeleteChain (table chain : string)
| IpsetDestroy (name : string)
| createProxySets (public private : list string) (name : string)
| updateProxySet (public private : list string) (name : string)
| createPUPortSet (name : string)
| AddUserPortSet (uid name mark : string)
| DelUserPortSet (uid mark : string).

(** A Go [error]: [None] is nil, [Some msg] carries [err.Error()]. *)
Abbreviation error := (option string).

(** The engine behind the providers: its state and its answer to each call.
    The controller is written against this interface only. *)
Class Engine : Type := {
  engine_state : Type;
  exec : call -> engine_state -> error * engine_state
}.

End provider.

Import provider.

(** ** The programs of the controller and their runs

    A function of the controller is a program: it returns, fails with an
    error, or makes a call to the engine and goes on as the answer says.  A
    run of a program threads the engine state and records every call. *)

Inductive result (A : Type) : Type :=
| Ok (a : A)
| Err (e : string).

Arguments Ok {A} a.
Arguments Err {A} e.

Definition is_Ok {A : Type} (r : result A) : bool :=
  match r with
  | Ok _ => true
  | Err _ => false
  end.

(** What a Go function of result type [error] returns. *)
Definition error_of (r : result unit) : error :=
  match r with
  | Ok _ => None
  | Err e => Some e
  end.

Inductive M (A : Type) : Type :=
| Ret (a : A)
| Fail (msg : string)
| Call (c : call) (k : error -> M A).

Arguments Ret {A} a.
Arguments Fail {A} msg.
Arguments Call {A} c k.

Definition ret {A : Type} (a : A) : M A := Ret a.

(** [return errors.New(msg)] *)
Definition fail {A : Type} (msg : string) : M A := Fail msg.

Fixpoint bind {A B : Type} (m : M A) (k : A -> M B) : M B :=
  match m with
  | Ret a => k a
  | Fail msg => Fail msg
  | Call c k' => Call c (fun e => bind (k' e) k)
  end.

(** [if err := m; err != nil { log }]: the error is looked at, not returned. *)
Fixpoint try {A : Type} (m : M A) : M error :=
  match m with
  | Ret _ => Ret None
  | Fail msg => Ret (Some msg)
  | Call c k => Call c (fun e => try (k e))
  end.

(** [if err := m; err != nil { return fmt.Errorf(..., err) }] *)
Fixpoint wrapf {A : Type} (m : M A) (f : string -> string) : M A :=
  match m with
  | Ret a => Ret a
  | Fail msg => Fail (f msg)
  | Call c k => Call c (fun e => wrapf (k e) f)
  end.

(** One call to the engine; its error, if any, is returned. *)
Definition do_call (c : call) : M unit :=
  Call c (fun e => match e with
                   | None => Ret tt
                   | Some msg => Fail msg
                   end).

(** [for _, x := range l { body }] with early return on error. *)
Fixpoint for_each {A : Type} (l : list A) (body : A -> M unit) : M unit :=
  match l with
  | [] => ret tt
  | x :: r => bind (body x) (fun _ => for_each r body)
  end.

(** [if c { m }] *)
Definition when (c : bool) (m : M unit) : M unit :=
  if c then m else ret tt.

(** The calls a program makes when every call succeeds. *)
Fixpoint script {A : Type} (m : M A) : list call :=
  match m with
  | Ret _ => []
  | Fail _ => []
  | Call c k => c :: script (k None)
  end.

(** What a program returns when every call succeeds. *)
Fixpoint outcome {A : Type} (m : M A) : result A :=
  match m with
  | Ret a => Ok a
  | Fail msg => Err msg
  | Call _ k => outcome (k None)
  end.

Section Run.

Context `{E : Engine}.

(** The world: the calls made so far with the answers they got, oldest
    first, and the engine state. *)
Record world : Type := MkWorld {
  trace : list (call * error);
  engine : engine_state
}.

(** The calls of the trace, without their answers. *)
Definition calls (w : world) : list call := map fst (trace w).

Fixpoint run {A : Type} (m : M A) (w : world) : result A * world :=
  match m with
  | Ret a => (Ok a, w)
  | Fail msg => (Err msg, w)
  | Call c k =>
      let '(e, st) := exec c (engine w) in
      run (k e) (MkWorld (trace w ++ [(c, e)]) st)
  end.

End Run.

Declare Scope go_scope.
Delimit Scope go_scope with go.
Notation "x <- m ;; k" := (bind m (fun x => k))
  (at level 100, m at next level, right associativity) : go_scope.
Notation "m ;; k" := (bind m (fun _ => k))
  (at level 100, right associativity) : go_scope.
Local Open Scope go_scope.

(** ** Package [fqconfig]: the queue parameters read by the rule tables *)

Module fqconfig.

(** The strings returned by the getters of [FilterQueue] that the trap rules
    use. *)
Record FilterQueue : Type := MkFilterQueue {
  GetApplicationQueueSynStr : string;
  GetApplicationQueueAckStr : string;
  GetNetworkQueueSynStr : string;
  GetNetworkQueueAckStr : string
}.

End fqconfig.

(** ** Package [iptablesctrl] *)

Module iptablesctrl.

Import constants policy fqconfig.

Definition uidchain : string := "UIDCHAIN".
Definition chainPrefix : string := "TRIREME-".
Definition appChainPrefix : string := chainPrefix +:+ "App-".
Definition netChainPrefix : string := chainPrefix +:+ "Net-".
Definition targetNetworkSet : string := "TargetNetSet".
Definition PuPortSet : string := "PUPort-".
Definition proxyPortSet : string := "Proxy-".
Definition ipTableSectionOutput : string := "POSTROUTING".
Definition ipTableSectionNatOutput : string := "OUTPUT".
Definition ipTableSectionInput : string := "INPUT".
Definition ipTableSectionPreRouting : string := "PREROUTING".
Definition ipTableSectionPostRouting : string := "POSTROUTING".
Definition natProxyOutputChain : string := "RedirProxy-App".
Definition natProxyInputChain : string := "RedirProxy-Net".
Definition proxyOutputChain : string := "Proxy-App".
Definition proxyInputChain : string := "Proxy-Net".
Definition proxyMark : string := "0x40".
Definition ProxyPort_default : string := "5000".
Definition observeMark : string := "39".

(** [packet.TCPAuthenticationOption], the kind of the TCP option that carries
    the token; [setGlobalRules] spells the same option as the literal 34. *)
Definition TCPAuthenticationOption : Z := 34.

Record Instance : Type := MkInstance {
  fqc : FilterQueue;
  appPacketIPTableContext : string;
  appAckPacketIPTableContext : string;
  appProxyIPTableContext : string;
  appPacketIPTableSection : string;
  netPacketIPTableContext : string;
  netPacketIPTableSection : string;
  appCgroupIPTableSection : string;
  appSynAckIPTableSection : string;
  mode : ModeType;
  (** the port-set tracker; [false] is the nil interface value *)
  portSetInstance : bool
}.

(** [NewInstance], past the creation of the two providers. *)
Definition NewInstance (fqc : FilterQueue) (mode : ModeType) (portset : bool)
    : Instance :=
  let local := match mode with
               | LocalServer | RemoteContainer => true
               | LocalContainer => false
               end in
  {| fqc := fqc;
     appPacketIPTableContext := "raw";
     appAckPacketIPTableContext := "mangle";
     netPacketIPTableContext := "mangle";
     appProxyIPTableContext := "nat";
     mode := mode;
     portSetInstance := portset;
     appPacketIPTableSection :=
       if local then ipTableSectionOutput else ipTableSectionPreRouting;
     appCgroupIPTableSection := ipTableSectionOutput;
     netPacketIPTableSection :=
       if local then ipTableSectionInput else ipTableSectionPostRouting;
     appSynAckIPTableSection :=
       if local then ipTableSectionOutput else ipTableSectionInput |}.

(** The identifier shared by the names of a PU: the contextID cut to its
    first four bytes when longer, followed by the first [n] characters of the
    URL-safe base64 text of its MD5 digest. *)
Definition hashed_id (n : nat) (contextID : string) : string :=
  let output := Go.URLEncodeToString (Go.md5_sum contextID) in
  if 4 <? Go.len contextID
  then Go.slice_to 4 contextID +:+ Go.slice_to n output
  else contextID +:+ Go.slice_to n output.

(** [chainName]: the app and net chain names of a PU at a version.  Writing
    to an MD5 hash never fails, so the error result is always nil and is left
    out. *)
Definition chainName (contextID : string) (version : Z) : string * string :=
  let contextID := hashed_id 6 contextID in
  let app := appChainPrefix +:+ contextID +:+ "-" +:+ Go.Itoa version in
  let net := netChainPrefix +:+ contextID +:+ "-" +:+ Go.Itoa version in
  (app, net).

(** [PuPortSetName] *)
Definition PuPortSetName (contextID mark prefix : string) : string :=
  let contextID := hashed_id 4 contextID in
  prefix +:+ contextID +:+ mark.

(** [defaultIP]: the address under the default namespace when it is there and
    not empty. *)
Definition defaultIP (i : Instance) (addresslist : ExtendedMap)
    : string * bool :=
  match map_get addresslist DefaultNamespace with
  | Some ip =>
      if 0 <? Go.len ip then (ip, true)
      else if ModeType_eqb (mode i) LocalContainer then ("0.0.0.0/0", false)
      else ("0.0.0.0/0", true)
  | None =>
      if ModeType_eqb (mode i) LocalContainer then ("0.0.0.0/0", false)
      else ("0.0.0.0/0", true)
  end.

(** Modelled from the spec: [getSetNamePair] is not among the sources.  The
    spec names the two proxy sets of a PU [Proxy-<id>-dst] and
    [Proxy-<id>-src]; the pair is the destination set, then the source set. *)
Definition getSetNamePair (portSetName : string) : string * string :=
  (portSetName +:+ "-dst", portSetName +:+ "-src").

(** *** The rule tables of [acls.go] *)

Definition cgroupChainRules (i : Instance) (appChain netChain mark port uid
    proxyPort proxyPortSetName : string) : list (list string) :=
  let '(destSetName, srcSetName) := getSetNamePair proxyPortSetName in
  [ [ appAckPacketIPTableContext i;
      appCgroupIPTableSection i;
      "-m"; "cgroup"; "--cgroup"; mark;
      "-m"; "comment"; "--comment"; "Server-specific-chain";
      "-j"; "MARK"; "--set-mark"; mark ];
    [ appAckPacketIPTableContext i;
      appCgroupIPTableSection i;
      "-m"; "cgroup"; "--cgroup"; mark;
      "-m"; "comment"; "--comment"; "Server-specific-chain";
      "-j"; appChain ];
    [ appProxyIPTableContext i;
      natProxyInputChain;
      "-p"; "tcp";
      "-m"; "mark"; "!";
      "--mark"; proxyMark;
      "-m"; "set";
      "--match-set"; srcSetName; "src,dst";
      "-j"; "REDIRECT";
      "--to-port"; proxyPort ];
    [ appProxyIPTableContext i;
      natProxyOutputChain;
      "-p"; "tcp";
      "-m"; "set";
      "--match-set"; destSetName; "dst,dst";
      "-m"; "mark"; "!";
      "--mark"; proxyMark;
      "-j"; "REDIRECT";
      "--to-port"; proxyPort ];
    [ netPacketIPTableContext i;
      proxyInputChain;
      "-p"; "tcp";
      "-m"; "set";
      "--match-set"; destSetName; "src,src";
      "-m"; "mark"; "!";
      "--mark"; proxyMark;
      "-j"; "ACCEPT" ];
    [ netPacketIPTableContext i;
      proxyInputChain;
      "-p"; "tcp";
      "-m"; "set";
      "--match-set"; srcSetName; "src,dst";
      "-m"; "mark"; "!";
      "--mark"; proxyMark;
      "-j"; "ACCEPT" ];
    [ appAckPacketIPTableContext i;
      proxyOutputChain;
      "-p"; "tcp";
      "-m"; "set";
      "--match-set"; destSetName; "dst,dst";
      "-m"; "mark"; "!";
      "--mark"; proxyMark;
      "-j"; "ACCEPT" ];
    [ netPacketIPTableContext i;
      netPacketIPTableSection i;
      "-p"; "tcp";
      "-m"; "multiport";
      "--destination-ports"; port;
      "-m"; "comment"; "--comment"; "Container-specific-chain";
      "-j"; netChain ] ].

Definition uidChainRules (i : Instance) (portSetName appChain netChain mark
    port uid proxyPort proyPortSetName : string) : list (list string) :=
  [ [ appAckPacketIPTableContext i;
      uidchain;
      "-m"; "owner"; "--uid-owner"; uid; "-j"; "MARK"; "--set-mark"; mark ];
    [ appAckPacketIPTableContext i;
      uidchain;
      "-m"; "mark"; "--mark"; mark;
      "-m"; "comment"; "--comment"; "Server-specific-chain";
      "-j"; appChain ];
    [ appAckPacketIPTableContext i;
      ipTableSectionPreRouting;
      "-m"; "set"; "--match-set"; portSetName; "dst";
      "-j"; "MARK"; "--set-mark"; mark ];
    [ netPacketIPTableContext i;
      netPacketIPTableSection i;
      "-p"; "tcp";
      "-m"; "mark";
      "--mark"; mark;
      "-m"; "comment"; "--comment"; "Container-specific-chain 1";
      "-j"; netChain ] ].

Definition chainRules (i : Instance) (appChain netChain ip port proxyPort
    proxyPortSetName : string) : list (list string) :=
  let rules := [] in
  let '(destSetName, srcSetName) := getSetNamePair proxyPortSetName in
  let rules :=
    if ModeType_eqb (mode i) LocalContainer
    then rules ++ [ [ appPacketIPTableContext i;
                      appPacketIPTableSection i;
                      "-s"; ip;
                      "-m"; "comment"; "--comment"; "Container-specific-chain";
                      "-j"; appChain ] ]
    else rules in
  let rules := rules ++ [ [ appAckPacketIPTableContext i;
                            appPacketIPTableSection i;
                            "-s"; ip;
                            "-m"; "comment"; "--comment"; "Container-specific-chain";
                            "-j"; appChain ] ] in
  let rules := rules ++ [ [ netPacketIPTableContext i;
                            netPacketIPTableSection i;
                            "!"; "-i"; "lo";
                            "-d"; ip;
                            "-m"; "comment"; "--comment"; "Container-specific-chain";
                            "-j"; netChain ] ] in
  let proxyRules :=
    [ [ appProxyIPTableContext i;
        natProxyInputChain;
        "-p"; "tcp";
        "-m"; "mark"; "!";
        "--mark"; proxyMark;
        "-m"; "set";
        "--match-set"; srcSetName; "src,dst";
        "-j"; "REDIRECT";
        "--to-port"; proxyPort ];
      [ appProxyIPTableContext i;
        natProxyOutputChain;
        "-p"; "tcp";
        "-m"; "set";
        "--match-set"; destSetName; "dst,dst";
        "-m"; "mark"; "!";
        "--mark"; proxyMark;
        "-j"; "REDIRECT";
        "--to-port"; proxyPort ];
      [ netPacketIPTableContext i;
        proxyInputChain;
        "-p"; "tcp";
        "-m"; "set";
        "--match-set"; destSetName; "src,src";
        "-m"; "mark"; "!";
        "--mark"; proxyMark;
        "-j"; "ACCEPT" ];
      [ netPacketIPTableContext i;
        proxyInputChain;
        "-p"; "tcp";
        "-m"; "set";
        "--match-set"; srcSetName; "src,dst";
        "-m"; "mark"; "!";
        "--mark"; proxyMark;
        "-j"; "ACCEPT" ];
      [ netPacketIPTableContext i;
        proxyInputChain;
        "-p"; "tcp";
        "--dport"; proxyPort;
        "-j"; "ACCEPT" ];
      [ appAckPacketIPTableContext i;
        proxyOutputChain;
        "-p"; "tcp";
        "-m"; "set";
        "--match-set"; destSetName; "dst,dst";
        "-m"; "mark"; "!";
        "--mark"; proxyMark;
        "-j"; "ACCEPT" ] ] in
  rules ++ proxyRules.

Definition trapRules (i : Instance) (appChain netChain : string)
    : list (list string) :=
  let rules := [] in
  if ModeType_eqb (mode i) LocalContainer then
    let rules := rules ++ [ [
      appPacketIPTableContext i; appChain;
      "-m"; "set"; "--match-set"; targetNetworkSet; "dst";
      "-p"; "tcp"; "--tcp-flags"; "FIN,SYN,RST,PSH,URG"; "SYN";
      "-j"; "NFQUEUE"; "--queue-balance"; GetApplicationQueueSynStr (fqc i) ] ] in
    let rules := rules ++ [ [
      appAckPacketIPTableContext i; appChain;
      "-m"; "set"; "--match-set"; targetNetworkSet; "dst";
      "-p"; "tcp"; "--tcp-flags"; "SYN,ACK"; "ACK";
      "-m"; "connbytes"; "--connbytes"; ":3"; "--connbytes-dir"; "original";
      "--connbytes-mode"; "packets";
      "-j"; "NFQUEUE"; "--queue-balance"; GetApplicationQueueAckStr (fqc i) ] ] in
    let rules := rules ++ [ [
      appAckPacketIPTableContext i; appChain;
      "-m"; "set"; "--match-set"; targetNetworkSet; "dst";
      "-p"; "tcp"; "--tcp-flags"; "SYN,ACK"; "SYN,ACK";
      "-m"; "connbytes"; "--connbytes"; ":3"; "--connbytes-dir"; "original";
      "--connbytes-mode"; "packets";
      "-j"; "NFQUEUE"; "--queue-balance"; GetApplicationQueueAckStr (fqc i) ] ] in
    let rules := rules ++ [ [
      netPacketIPTableContext i; netChain;
      "-m"; "set"; "--match-set"; targetNetworkSet; "src";
      "-p"; "tcp"; "--tcp-flags"; "SYN,ACK"; "SYN";
      "-j"; "NFQUEUE"; "--queue-balance"; GetNetworkQueueSynStr (fqc i) ] ] in
    let rules := rules ++ [ [
      netPacketIPTableContext i; netChain;
      "-m"; "set"; "--match-set"; targetNetworkSet; "src";
      "-p"; "tcp";
      "-m"; "connbytes"; "--connbytes"; ":3"; "--connbytes-dir"; "original";
      "--connbytes-mode"; "packets";
      "-j"; "NFQUEUE"; "--queue-balance"; GetNetworkQueueAckStr (fqc i) ] ] in
    rules
  else
    let rules := rules ++ [ [
      appAckPacketIPTableContext i; appChain;
      "-m"; "set"; "--match-set"; targetNetworkSet; "dst";
      "-p"; "tcp"; "--tcp-flags"; "SYN,ACK"; "SYN";
      "-j"; "NFQUEUE"; "--queue-balance"; GetApplicationQueueSynStr (fqc i) ] ] in
    let rules := rules ++ [ [
      appAckPacketIPTableContext i; appChain;
      "-m"; "set"; "--match-set"; targetNetworkSet; "dst";
      "-p"; "tcp"; "--tcp-flags"; "SYN,ACK"; "ACK";
      "-j"; "NFQUEUE"; "--queue-balance"; GetApplicationQueueAckStr (fqc i) ] ] in
    let rules := rules ++ [ [
      appAckPacketIPTableContext i; appChain;
      "-m"; "set"; "--match-set"; targetNetworkSet; "dst";
      "-p"; "tcp"; "--tcp-flags"; "SYN,ACK"; "SYN,ACK";
      "-j"; "NFQUEUE"; "--queue-balance"; GetApplicationQueueAckStr (fqc i) ] ] in
    let rules := rules ++ [ [
      netPacketIPTableContext i; netChain;
      "-m"; "set"; "--match-set"; targetNetworkSet; "src";
      "-p"; "tcp"; "--tcp-flags"; "SYN,ACK"; "SYN";
      "-j"; "NFQUEUE"; "--queue-balance"; GetNetworkQueueSynStr (fqc i) ] ] in
    let rules := rules ++ [ [
      netPacketIPTableContext i; netChain;
      "-m"; "set"; "--match-set"; targetNetworkSet; "src";
      "-p"; "tcp"; "--tcp-flags"; "SYN,ACK"; "ACK";
      "-j"; "NFQUEUE"; "--queue-balance"; GetNetworkQueueAckStr (fqc i) ] ] in
    rules.

Section Controller.

Context `{LP : LogPrefixes}.

(** [cr[0]], [cr[1]] and [cr[2:]] of a rule of a table.  In Go the three
    reads are in range exactly when the rule has two tokens at least, and
    panic otherwise: the functions below are for such rules only, and
    [processRulesFromList] stops at a shorter one before it reads it, see
    [index_out_of_range]. *)
Definition rule_table (cr : list string) : string := nth 0 cr "".
Definition rule_chain (cr : list string) : string := nth 1 cr "".
Definition rule_spec (cr : list string) : list string := skipn 2 cr.

(** The rule has fewer than two tokens: [cr[1]] is out of range. *)
Definition short (cr : list string) : bool := Nat.ltb (length cr) 2.

(** A read out of range panics: the function stops before the call that
    the read was an argument of is made.  The panic is written as an error
    result, which says what Go does as long as nothing looks at that
    result: the rule tables of this package hold rules of nine tokens and
    more, so the functions that pass them never get here, and the
    properties of rule lists are stated for rules of two tokens at
    least. *)
Definition index_out_of_range {A : Type} : M A :=
  fail "panic: runtime error: index out of range".

(** [addContainerChain] *)
Definition addContainerChain (i : Instance) (appChain netChain : string)
    : M unit :=
  when (ModeType_eqb (mode i) LocalContainer)
    (wrapf (do_call (NewChain (appPacketIPTableContext i) appChain))
       (fun err => "unable to add chain " +:+ appChain +:+ " of context "
                   +:+ appPacketIPTableContext i +:+ ": " +:+ err)) ;;
  wrapf (do_call (NewChain (appAckPacketIPTableContext i) appChain))
    (fun err => "unable to add chain " +:+ appChain +:+ " of context "
                +:+ appPacketIPTableContext i +:+ ": " +:+ err) ;;
  wrapf (do_call (NewChain (netPacketIPTableContext i) netChain))
    (fun err => "unable to add netchain " +:+ netChain +:+ " of context "
                +:+ netPacketIPTableContext i +:+ ": " +:+ err) ;;
  ret tt.

(** [processRulesFromList]: the method is looked at first; a rule is then
    read, which stops the function when the rule is short; a failed delete
    is logged and the loop goes on; a failed append or insert returns. *)
Definition processRulesFromList (i : Instance) (rulelist : list (list string))
    (methodType : string) : M unit :=
  for_each rulelist (fun cr =>
    let errf := fun err =>
      "unable to " +:+ methodType +:+ " rule for table " +:+ rule_table cr
      +:+ " and chain " +:+ rule_chain cr +:+ " with error " +:+ err in
    if String.eqb methodType "Append" then
      if short cr then index_out_of_range else
      wrapf (do_call (Append (rule_table cr) (rule_chain cr) (rule_spec cr))) errf
    else if String.eqb methodType "Insert" then
      if short cr then index_out_of_range else
      wrapf (do_call (Insert (rule_table cr) (rule_chain cr) 1 (rule_spec cr))) errf
    else if String.eqb methodType "Delete" then
      if short cr then index_out_of_range else
      _ <- try (do_call (Delete (rule_table cr) (rule_chain cr) (rule_spec cr))) ;;
      ret tt
    else fail "invalid method type").

(** [addChainRules] *)
Definition addChainRules (i : Instance) (portSetName appChain netChain ip port
    mark uid proxyPort proxyPortSetName : string) : M unit :=
  if ModeType_eqb (mode i) LocalServer then
    if negb (String.eqb port "0") || String.eqb uid "" then
      processRulesFromList i
        (cgroupChainRules i appChain netChain mark port uid proxyPort
           proxyPortSetName) "Append"
    else
      processRulesFromList i
        (uidChainRules i portSetName appChain netChain mark port uid proxyPort
           proxyPortSetName) "Append"
  else
    processRulesFromList i
      (chainRules i appChain netChain ip port proxyPort proxyPortSetName)
      "Append".

(** [addPacketTrap] *)
Definition addPacketTrap (i : Instance) (appChain netChain ip : string)
    (networks : list string) : M unit :=
  processRulesFromList i (trapRules i appChain netChain) "Append".

(** [deleteChainRules] *)
Definition deleteChainRules (i : Instance) (portSetName appChain netChain ip
    port mark uid proxyPort proxyPortSetName : string) : M unit :=
  if ModeType_eqb (mode i) LocalServer then
    if String.eqb uid "" then
      processRulesFromList i
        (cgroupChainRules i appChain netChain mark port uid proxyPort
           proxyPortSetName) "Delete"
    else
      processRulesFromList i
        (uidChainRules i portSetName appChain netChain mark port uid proxyPort
           proxyPortSetName) "Delete"
  else
    processRulesFromList i
      (chainRules i appChain netChain ip port proxyPort proxyPortSetName)
      "Delete".

(** [deleteAllContainerChains]: six calls, every failure only logged. *)
Definition deleteAllContainerChains (i : Instance) (appChain netChain : string)
    : M unit :=
  _ <- try (do_call (ClearChain (appPacketIPTableContext i) appChain)) ;;
  _ <- try (do_call (DeleteChain (appPacketIPTableContext i) appChain)) ;;
  _ <- try (do_call (ClearChain (appAckPacketIPTableContext i) appChain)) ;;
  _ <- try (do_call (DeleteChain (appAckPacketIPTableContext i) appChain)) ;;
  _ <- try (do_call (ClearChain (netPacketIPTableContext i) netChain)) ;;
  _ <- try (do_call (DeleteChain (netPacketIPTableContext i) netChain)) ;;
  ret tt.

(** [addExclusionACLs] *)
Definition addExclusionACLs (i : Instance) (appChain netChain ip : string)
    (exclusions : list string) : M unit :=
  for_each exclusions (fun e =>
    wrapf (do_call (Insert (appAckPacketIPTableContext i) appChain 1
                      [ "-s"; ip;
                        "-d"; e;
                        "-j"; "ACCEPT" ]))
      (fun err => "unable to add exclusion rule for table "
                  +:+ appAckPacketIPTableContext i +:+ ", chain " +:+ appChain
                  +:+ ", ip " +:+ e +:+ ": " +:+ err) ;;
    wrapf (do_call (Insert (netPacketIPTableContext i) netChain 1
                      [ "-s"; e;
                        "-d"; ip;
                        "-p"; "tcp"; "!"; "--tcp-option";
                        Go.Itoa TCPAuthenticationOption;
                        "-j"; "ACCEPT" ]))
      (fun err => "unable to add exclusion rule for table "
                  +:+ appAckPacketIPTableContext i +:+ ", chain " +:+ netChain
                  +:+ ", ip " +:+ e +:+ ": " +:+ err)).

(** The value switched on in the renderers,
    [rule.Policy.Action & (policy.Accept | policy.Reject)]. *)
Inductive verdict : Type :=
| IsAccept
| IsReject
| Neither.

Definition accept_or_reject (a : ActionType) : verdict :=
  match has_Accept a, has_Reject a with
  | true, false => IsAccept
  | false, true => IsReject
  | _, _ => Neither
  end.

(** The [switch loop] at the head of the rule loop: [true] when the rule is
    skipped ([continue]) in this pass. *)
Definition skipped (loop : Z) (rule : IPRule) : bool :=
  let observeContinue := IsObserveContinue (ObserveAction (Policy rule)) in
  if loop =? 0 then negb observeContinue
  else if loop =? 1 then Observed (ObserveAction (Policy rule))
  else if loop =? 2 then negb (IsObserveApply (ObserveAction (Policy rule)))
  else false.

Definition acl_errf (what table chain : string) : string -> string :=
  fun err => "unable to add " +:+ what +:+ " for table " +:+ table
             +:+ ", chain " +:+ chain +:+ ": " +:+ err.

(** The body of the rule loop of [addAppACLs]. *)
Definition addAppACL (i : Instance) (contextID chain : string) (loop : Z)
    (rule : IPRule) : M unit :=
  let observeContinue := IsObserveContinue (ObserveAction (Policy rule)) in
  let ctx := appAckPacketIPTableContext i in
  let logged := has_Log (Action (Policy rule)) || observeContinue in
  if skipped loop rule then ret tt else
  let proto := Go.ToLower (RuleProtocol rule) in
  if String.eqb proto "udp" || String.eqb proto "tcp" then
    match accept_or_reject (Action (Policy rule)) with
    | IsAccept =>
        when logged
          (wrapf (do_call (Append ctx chain
             [ "-p"; RuleProtocol rule;
               "-d"; Address rule;
               "--dport"; RulePort rule;
               "-m"; "mark"; "!"; "--mark"; observeMark;
               "-m"; "state"; "--state"; "NEW";
               "-j"; "NFLOG"; "--nflog-group"; "10";
               "--nflog-prefix"; LogPrefix (Policy rule) contextID ]))
             (acl_errf "acl log rule" ctx chain)) ;;
        if observeContinue then
          wrapf (do_call (Append ctx chain
             [ "-p"; RuleProtocol rule; "-m"; "state"; "--state"; "NEW";
               "-d"; Address rule;
               "--dport"; RulePort rule;
               "-m"; "mark"; "!"; "--mark"; observeMark;
               "-j"; "MARK"; "--set-mark"; observeMark ]))
            (acl_errf "acl rule" ctx chain)
        else
          wrapf (do_call (Append ctx chain
             [ "-p"; RuleProtocol rule; "-m"; "state"; "--state"; "NEW";
               "-d"; Address rule;
               "--dport"; RulePort rule;
               "-j"; "ACCEPT" ]))
            (acl_errf "acl rule" ctx chain)
    | IsReject =>
        (if observeContinue then
           wrapf (do_call (Insert ctx chain 1
              [ "-p"; RuleProtocol rule; "-m"; "state"; "--state"; "NEW";
                "-d"; Address rule;
                "--dport"; RulePort rule;
                "-m"; "mark"; "!"; "--mark"; observeMark;
                "-j"; "MARK"; "--set-mark"; observeMark ]))
             (acl_errf "acl rule" ctx chain)
         else
           wrapf (do_call (Insert ctx chain 1
              [ "-p"; RuleProtocol rule; "-m"; "state"; "--state"; "NEW";
                "-d"; Address rule;
                "--dport"; RulePort rule;
                "-j"; "DROP" ]))
             (acl_errf "acl rule" ctx chain)) ;;
        when logged
          (wrapf (do_call (Insert ctx chain 1
             [ "-p"; RuleProtocol rule;
               "-d"; Address rule;
               "--dport"; RulePort rule;
               "-m"; "mark"; "!"; "--mark"; observeMark;
               "-m"; "state"; "--state"; "NEW";
               "-j"; "NFLOG"; "--nflog-group"; "10";
               "--nflog-prefix"; LogPrefix (Policy rule) contextID ]))
             (acl_errf "acl log rule" ctx chain))
    | Neither => ret tt
    end
  else
    match accept_or_reject (Action (Policy rule)) with
    | IsAccept =>
        when logged
          (wrapf (do_call (Append ctx chain
             [ "-p"; RuleProtocol rule;
               "-d"; Address rule;
               "-m"; "state"; "--state"; "NEW";
               "-m"; "mark"; "!"; "--mark"; observeMark;
               "-j"; "NFLOG"; "--nflog-group"; "10";
               "--nflog-prefix"; LogPrefix (Policy rule) contextID ]))
             (acl_errf "acl log rule" ctx chain)) ;;
        if observeContinue then
          wrapf (do_call (Append ctx chain
             [ "-p"; RuleProtocol rule;
               "-d"; Address rule;
               "-m"; "mark"; "!"; "--mark"; observeMark;
               "-j"; "MARK"; "--set-mark"; observeMark ]))
            (acl_errf "acl rule" ctx chain)
        else
          wrapf (do_call (Append ctx chain
             [ "-p"; RuleProtocol rule;
               "-d"; Address rule;
               "-j"; "ACCEPT" ]))
            (acl_errf "acl rule" ctx chain)
    | IsReject =>
        (if observeContinue then
           wrapf (do_call (Insert ctx chain 1
              [ "-p"; RuleProtocol rule;
                "-d"; Address rule;
                "-m"; "mark"; "!"; "--mark"; observeMark;
                "-j"; "MARK"; "--set-mark"; observeMark ]))
             (acl_errf "acl rule" ctx chain)
         else
           wrapf (do_call (Insert ctx chain 1
              [ "-p"; RuleProtocol rule;
                "-d"; Address rule;
                "-j"; "DROP" ]))
             (acl_errf "acl rule" ctx chain)) ;;
        when logged
          (wrapf (do_call (Insert ctx chain 1
             [ "-p"; RuleProtocol rule;
               "-d"; Address rule;
               "-m"; "state"; "--state"; "NEW";
               "-m"; "mark"; "!"; "--mark"; observeMark;
               "-j"; "NFLOG"; "--nflog-group"; "10";
               "--nflog-prefix"; LogPrefix (Policy rule) contextID ]))
             (acl_errf "acl log rule" ctx chain))
    | Neither => ret tt
    end.

(** The four rules appended after the loops of [addAppACLs]. *)
Definition appACL_tail (i : Instance) (contextID chain : string) : M unit :=
  let ctx := appAckPacketIPTableContext i in
  wrapf (do_call (Append ctx chain
     [ "-d"; "0.0.0.0/0";
       "-p"; "udp"; "-m"; "state"; "--state"; "ESTABLISHED";
       "-j"; "ACCEPT" ]))
    (acl_errf "default udp acl rule" ctx chain) ;;
  wrapf (do_call (Append ctx chain
     [ "-d"; "0.0.0.0/0";
       "-p"; "tcp"; "-m"; "state"; "--state"; "ESTABLISHED";
       "-j"; "ACCEPT" ]))
    (acl_errf "default tcp acl rule" ctx chain) ;;
  wrapf (do_call (Append ctx chain
     [ "-d"; "0.0.0.0/0";
       "-m"; "state"; "--state"; "NEW";
       "-j"; "NFLOG"; "--nflog-group"; "10";
       "--nflog-prefix"; DefaultLogPrefix contextID ]))
    (acl_errf "acl log rule" ctx chain) ;;
  wrapf (do_call (Append ctx chain
     [ "-d"; "0.0.0.0/0";
       "-j"; "DROP" ]))
    (acl_errf "default drop acl rule" ctx chain) ;;
  ret tt.

(** [addAppACLs] *)
Definition addAppACLs (i : Instance) (contextID chain ip : string)
    (rules : IPRuleList) : M unit :=
  for_each [0; 1; 2] (fun loop =>
    for_each rules (addAppACL i contextID chain loop)) ;;
  appACL_tail i contextID chain.

(** The body of the rule loop of [addNetACLs]. *)
Definition addNetACL (i : Instance) (contextID chain : string) (loop : Z)
    (rule : IPRule) : M unit :=
  let observeContinue := IsObserveContinue (ObserveAction (Policy rule)) in
  let ctx := netPacketIPTableContext i in
  let logged := has_Log (Action (Policy rule)) || observeContinue in
  if skipped loop rule then ret tt else
  let proto := Go.ToLower (RuleProtocol rule) in
  if String.eqb proto "udp" || String.eqb proto "tcp" then
    match accept_or_reject (Action (Policy rule)) with
    | IsAccept =>
        when logged
          (wrapf (do_call (Append ctx chain
             [ "-p"; RuleProtocol rule;
               "-s"; Address rule;
               "--dport"; RulePort rule;
               "-m"; "mark"; "!"; "--mark"; observeMark;
               "-m"; "state"; "--state"; "NEW";
               "-j"; "NFLOG"; "--nflog-group"; "11";
               "--nflog-prefix"; LogPrefix (Policy rule) contextID ]))
             (acl_errf "net log rule" ctx chain)) ;;
        if observeContinue then
          wrapf (do_call (Append ctx chain
             [ "-p"; RuleProtocol rule;
               "-s"; Address rule;
               "--dport"; RulePort rule;
               "-m"; "mark"; "!"; "--mark"; observeMark;
               "-j"; "MARK"; "--set-mark"; observeMark ]))
            (acl_errf "net acl rule" ctx chain)
        else
          wrapf (do_call (Append ctx chain
             [ "-p"; RuleProtocol rule;
               "-s"; Address rule;
               "--dport"; RulePort rule;
               "-j"; "ACCEPT" ]))
            (acl_errf "net acl rule" ctx chain)
    | IsReject =>
        (if observeContinue then
           wrapf (do_call (Insert ctx chain 1
              [ "-p"; RuleProtocol rule;
                "-s"; Address rule;
                "--dport"; RulePort rule;
                "-m"; "mark"; "!"; "--mark"; observeMark;
                "-j"; "MARK"; "--set-mark"; observeMark ]))
             (acl_errf "net acl rule" ctx chain)
         else
           wrapf (do_call (Insert ctx chain 1
              [ "-p"; RuleProtocol rule;
                "-s"; Address rule;
                "--dport"; RulePort rule;
                "-j"; "DROP" ]))
             (acl_errf "net acl rule" ctx chain)) ;;
        when logged
          (wrapf (do_call (Insert ctx chain 1
             [ "-p"; RuleProtocol rule;
               "-s"; Address rule;
               "--dport"; RulePort rule;
               "-m"; "mark"; "!"; "--mark"; observeMark;
               "-m"; "state"; "--state"; "NEW";
               "-j"; "NFLOG"; "--nflog-group"; "11";
               "--nflog-prefix"; LogPrefix (Policy rule) contextID ]))
             (acl_errf "net log rule" ctx chain))
    | Neither => ret tt
    end
  else
    match accept_or_reject (Action (Policy rule)) with
    | IsAccept =>
        when logged
          (wrapf (do_call (Append ctx chain
             [ "-p"; RuleProtocol rule;
               "-s"; Address rule;
               "-m"; "mark"; "!"; "--mark"; observeMark;
               "-m"; "state"; "--state"; "NEW";
               "-j"; "NFLOG"; "--nflog-group"; "11";
               "--nflog-prefix"; LogPrefix (Policy rule) contextID ]))
             (acl_errf "net log rule" ctx chain)) ;;
        if observeContinue then
          wrapf (do_call (Append ctx chain
             [ "-p"; RuleProtocol rule;
               "-s"; Address rule;
               "-m"; "mark"; "!"; "--mark"; observeMark;
               "-j"; "MARK"; "--set-mark"; observeMark ]))
            (acl_errf "net acl rule" ctx chain)
        else
          wrapf (do_call (Append ctx chain
             [ "-p"; RuleProtocol rule;
               "-s"; Address rule;
               "-j"; "ACCEPT" ]))
            (acl_errf "net acl rule" ctx chain)
    | IsReject =>
        (if observeContinue then
           wrapf (do_call (Insert ctx chain 1
              [ "-p"; RuleProtocol rule;
                "-s"; Address rule;
                "-m"; "mark"; "!"; "--mark"; observeMark;
                "-j"; "MARK"; "--set-mark"; observeMark ]))
             (acl_errf "net acl rule" ctx chain)
         else
           wrapf (do_call (Insert ctx chain 1
              [ "-p"; RuleProtocol rule;
                "-s"; Address rule;
                "-j"; "DROP" ]))
             (acl_errf "net acl rule" ctx chain)) ;;
        when logged
          (wrapf (do_call (Insert ctx chain 1
             [ "-p"; RuleProtocol rule;
               "-s"; Address rule;
               "-m"; "mark"; "!"; "--mark"; observeMark;
               "-m"; "state"; "--state"; "NEW";
               "-j"; "NFLOG"; "--nflog-group"; "11";
               "--nflog-prefix"; LogPrefix (Policy rule) contextID ]))
             (acl_errf "net log rule" ctx chain))
    | Neither => ret tt
    end.

(** The four rules appended after the loops of [addNetACLs]. *)
Definition netACL_tail (i : Instance) (contextID chain : string) : M unit :=
  let ctx := netPacketIPTableContext i in
  wrapf (do_call (Append ctx chain
     [ "-s"; "0.0.0.0/0";
       "-p"; "tcp"; "-m"; "state"; "--state"; "ESTABLISHED";
       "-j"; "ACCEPT" ]))
    (acl_errf "net acl rule" ctx chain) ;;
  wrapf (do_call (Append ctx chain
     [ "-s"; "0.0.0.0/0";
       "-p"; "udp"; "-m"; "state"; "--state"; "ESTABLISHED";
       "-j"; "ACCEPT" ]))
    (acl_errf "net acl rule" ctx chain) ;;
  wrapf (do_call (Append ctx chain
     [ "-s"; "0.0.0.0/0";
       "-m"; "state"; "--state"; "NEW";
       "-j"; "NFLOG"; "--nflog-group"; "11";
       "--nflog-prefix"; DefaultLogPrefix contextID ]))
    (acl_errf "net log rule" ctx chain) ;;
  wrapf (do_call (Append ctx chain
     [ "-s"; "0.0.0.0/0";
       "-j"; "DROP" ]))
    (acl_errf "net acl rule" ctx chain) ;;
  ret tt.

(** [addNetACLs] *)
Definition addNetACLs (i : Instance) (contextID chain ip : string)
    (rules : IPRuleList) : M unit :=
  for_each [0; 1; 2] (fun loop =>
    for_each rules (addNetACL i contextID chain loop)) ;;
  netACL_tail i contextID chain.

(** A nil pointer dereference stops the function; the supervisor never
    reaches one, since [Supervise] checks the pointers first. *)
Definition nil_dereference {A : Type} : M A :=
  fail "panic: nil pointer dereference".

(** [ConfigureRules] *)
Definition ConfigureRules (i : Instance) (version : Z) (contextID : string)
    (containerInfo : PUInfo) : M unit :=
  match PUPolicy_of containerInfo, Runtime containerInfo with
  | Some policyrules, Some runtime =>
      let '(appChain, netChain) := chainName contextID version in
      let '(ipAddress, ok) := defaultIP i (Some (IPAddresses policyrules)) in
      if negb ok then fail "no ip address found" else
      let proxyPort := ProxyPort (Options runtime) in
      let proxiedServices := ProxiedServices policyrules in
      addContainerChain i appChain netChain ;;
      (if negb (ModeType_eqb (mode i) LocalServer) then
         let proxyPortSetName := PuPortSetName contextID "" proxyPortSet in
         wrapf (do_call (createProxySets (PublicIPPortPair proxiedServices)
                           (PrivateIPPortPair proxiedServices) proxyPortSetName))
           (fun err => "Failed to create ProxySet " +:+ proxyPortSetName
                       +:+ " : " +:+ err) ;;
         addChainRules i "" appChain netChain ipAddress "" "" "" proxyPort
           proxyPortSetName
       else
         let mark := CgroupMark (Options runtime) in
         if String.eqb mark "" then fail "no mark value found" else
         let port := ConvertServicesToPortList (Services (Options runtime)) in
         let uid := UserID (Options runtime) in
         (if negb (String.eqb uid "") then
            let portSetName := PuPortSetName contextID mark PuPortSet in
            do_call (createPUPortSet portSetName) ;;
            (if negb (portSetInstance i)
             then fail "enforcer portset instance cannot be nil for host"
             else ret tt) ;;
            do_call (AddUserPortSet uid portSetName mark)
          else ret tt) ;;
         let portSetName := PuPortSetName contextID mark PuPortSet in
         let proxyPortSetName := PuPortSetName contextID mark proxyPortSet in
         wrapf (do_call (createProxySets (PublicIPPortPair proxiedServices)
                           (PrivateIPPortPair proxiedServices) proxyPortSetName))
           (fun err => "Failed to create ProxySet " +:+ proxyPortSetName
                       +:+ " : " +:+ err) ;;
         addChainRules i portSetName appChain netChain ipAddress port mark uid
           proxyPort proxyPortSetName) ;;
      addPacketTrap i appChain netChain ipAddress (TriremeNetworks policyrules) ;;
      addAppACLs i contextID appChain ipAddress (ApplicationACLs policyrules) ;;
      addNetACLs i contextID netChain ipAddress (NetworkACLs policyrules) ;;
      addExclusionACLs i appChain netChain ipAddress (ExcludedNetworks policyrules)
  | _, _ => nil_dereference
  end.

(** [DeleteRules] *)
Definition DeleteRules (i : Instance) (version : Z) (contextID : string)
    (ipAddresses : ExtendedMap) (port mark uid proxyPort proxyPortSetName : string)
    : M unit :=
  ipAddress <-
    (if negb (ModeType_eqb (mode i) LocalServer) then
       match ipAddresses with
       | None => fail "provided map of ip addresses is nil"
       | Some _ =>
           let '(ipAddress, ok) := defaultIP i ipAddresses in
           if negb ok then fail "no ip address found" else ret ipAddress
       end
     else ret "") ;;
  let '(appChain, netChain) := chainName contextID version in
  let portSetName := PuPortSetName contextID mark PuPortSet in
  _ <- try (deleteChainRules i portSetName appChain netChain ipAddress port
              mark uid proxyPort proxyPortSetName) ;;
  _ <- try (deleteAllContainerChains i appChain netChain) ;;
  (if negb (String.eqb uid "") then
     let portSetName := PuPortSetName contextID mark PuPortSet in
     _ <- try (do_call (IpsetDestroy portSetName)) ;;
     (if negb (portSetInstance i)
      then fail "enforcer portset instance cannot be nil for host"
      else ret tt) ;;
     do_call (DelUserPortSet uid mark)
   else ret tt) ;;
  let '(dstPortSetName, srcPortSetName) := getSetNamePair proxyPortSetName in
  _ <- try (do_call (IpsetDestroy dstPortSetName)) ;;
  _ <- try (do_call (IpsetDestroy srcPortSetName)) ;;
  ret tt.

(** [UpdateRules] *)
Definition UpdateRules (i : Instance) (version : Z) (contextID : string)
    (containerInfo oldContainerInfo : option PUInfo) : M unit :=
  match containerInfo with
  | None => fail "container info cannot be nil"
  | Some containerInfo =>
  match PUPolicy_of containerInfo with
  | None => fail "policy rules cannot be nil"
  | Some policyrules =>
  let '(ipAddress, ok) := defaultIP i (Some (IPAddresses policyrules)) in
  if negb ok then fail "no ip address found" else
  match Runtime containerInfo with
  | None => nil_dereference
  | Some runtime =>
  let proxyPort := ProxyPort (Options runtime) in
  let '(appChain, netChain) := chainName contextID version in
  let '(oldAppChain, oldNetChain) := chainName contextID (Z.lxor version 1) in
  addContainerChain i appChain netChain ;;
  addPacketTrap i appChain netChain ipAddress (TriremeNetworks policyrules) ;;
  addAppACLs i contextID appChain ipAddress (ApplicationACLs policyrules) ;;
  addNetACLs i contextID netChain ipAddress (NetworkACLs policyrules) ;;
  addExclusionACLs i appChain netChain ipAddress (ExcludedNetworks policyrules) ;;
  (if negb (ModeType_eqb (mode i) LocalServer) then
     let proxyPortSetName := PuPortSetName contextID "" proxyPortSet in
     addChainRules i "" appChain netChain ipAddress "" "" "" proxyPort
       proxyPortSetName
   else
     let mark := CgroupMark (Options runtime) in
     if String.eqb mark "" then fail "no mark value found" else
     let portlist := ConvertServicesToPortList (Services (Options runtime)) in
     let uid := UserID (Options runtime) in
     let portSetName := PuPortSetName contextID mark PuPortSet in
     let proxyPortSetName := PuPortSetName contextID mark proxyPortSet in
     addChainRules i portSetName appChain netChain ipAddress portlist mark uid
       proxyPort proxyPortSetName) ;;
  (if negb (ModeType_eqb (mode i) LocalServer) then
     let proxyPortSetName := PuPortSetName contextID "" proxyPortSet in
     deleteChainRules i "" oldAppChain oldNetChain ipAddress "" "" "" proxyPort
       proxyPortSetName
   else
     let mark := CgroupMark (Options runtime) in
     let port := ConvertServicesToPortList (Services (Options runtime)) in
     let uid := UserID (Options runtime) in
     let portSetName := PuPortSetName contextID mark PuPortSet in
     let proxyPortSetName := PuPortSetName contextID mark proxyPortSet in
     deleteChainRules i portSetName oldAppChain oldNetChain ipAddress port mark
       uid proxyPort proxyPortSetName) ;;
  let mark := if ModeType_eqb (mode i) LocalServer
              then CgroupMark (Options runtime) else "" in
  let proxyPortSetName := PuPortSetName contextID mark proxyPortSet in
  let proxiedServiceList := ProxiedServices policyrules in
  wrapf (do_call (updateProxySet (PublicIPPortPair proxiedServiceList)
                    (PrivateIPPortPair proxiedServiceList) proxyPortSetName))
    (fun err => "Failed to update proxySet " +:+ proxyPortSetName
                +:+ " : " +:+ err) ;;
  deleteAllContainerChains i oldAppChain oldNetChain
  end
  end
  end.

End Controller.

End iptablesctrl.

(** ** Package [cache] *)

Module cache.

(** Modelled from the spec: the [cache.DataStore] behind the version tracker
    is not among the sources.  It is the registry of the spec, a map from
    contextID to the entry of the PU: [Get], [Remove] and [LockedModify] fail
    on a key that is absent, [AddOrUpdate] writes the entry whether or not
    the key is there, and [LockedModify] replaces the entry by the result of
    the function it is given and returns that result. *)
Definition ErrNotFound : string := "not found".

Section DataStore.

Context {V : Type}.

Definition Get (c : gmap string V) (u : string) : result V :=
  match c !! u with
  | Some v => Ok v
  | None => Err ErrNotFound
  end.

Definition AddOrUpdate (c : gmap string V) (u : string) (value : V)
    : gmap string V :=
  <[u := value]> c.

Definition Remove (c : gmap string V) (u : string) : error * gmap string V :=
  match c !! u with
  | Some _ => (None, delete u c)
  | None => (Some ErrNotFound, c)
  end.

Definition LockedModify (c : gmap string V) (u : string)
    (add : V -> Z -> V) (increment : Z) : result V * gmap string V :=
  match c !! u with
  | Some v => (Ok (add v increment), <[u := add v increment]> c)
  | None => (Err ErrNotFound, c)
  end.

End DataStore.

End cache.

(** ** Package [supervisor] *)

Module supervisor.

Import constants policy.

Record cacheData : Type := MkCacheData {
  version : Z;
  ips : ExtendedMap;
  mark : string;
  port : string;
  uid : string;
  containerInfo : PUInfo
}.

(** The [Implementor] interface: the packet-filter implementation behind the
    supervisor, over its own world [W]. *)
Class Implementor (W : Type) : Type := {
  ConfigureRules : Z -> string -> PUInfo -> W -> error * W;
  UpdateRules : Z -> string -> option PUInfo -> option PUInfo -> W -> error * W;
  DeleteRules : Z -> string -> string -> string -> string -> string ->
                string -> W -> error * W
}.

(** The fields of [Config] that the modelled methods read or write. *)
Record Config : Type := MkConfig {
  mode : ModeType;
  versionTracker : gmap string cacheData
}.

Definition set_versionTracker (s : Config) (t : gmap string cacheData)
    : Config :=
  MkConfig (mode s) t.

(** [revert]: the function given to [LockedModify]; it flips the low bit of
    the version and ignores its second argument. *)
Definition revert (a : cacheData) (b : Z) : cacheData :=
  MkCacheData (Z.lxor (version a) 1) (ips a) (mark a) (port a) (uid a)
    (containerInfo a).

Definition panic : error := Some "panic: nil pointer dereference".

Section Supervisor.

Context {W : Type} `{I : Implementor W}.

(** [Unsupervise]: [DeleteRules] is called with the version, the contextID,
    the port list, the mark and the user of the entry, the proxy port of
    the runtime and the name of the proxy sets; its error is logged, and so
    is that of the removal from the tracker. *)
Definition Unsupervise (s : Config) (contextID : string) (w : W)
    : error * Config * W :=
  match cache.Get (versionTracker s) contextID with
  | Err err => (Some ("cannot find policy version: " +:+ err), s, w)
  | Ok cfg =>
      match Runtime (containerInfo cfg) with
      | None => (panic, s, w)
      | Some runtime =>
          let port_ := ProxyPort (Options runtime) in
          let proxyPortSetName :=
            iptablesctrl.PuPortSetName contextID (mark cfg) "Proxy-" in
          let '(_, w) := DeleteRules (version cfg) contextID (port cfg)
                           (mark cfg) (uid cfg) port_ proxyPortSetName w in
          let '(_, t) := cache.Remove (versionTracker s) contextID in
          (None, set_versionTracker s t, w)
      end
  end.

(** [doCreatePU] *)
Definition doCreatePU (s : Config) (contextID : string) (pu : PUInfo) (w : W)
    : error * Config * W :=
  match PUPolicy_of pu, Runtime pu with
  | Some pol, Some runtime =>
      let c := {| version := 0;
                  ips := Some (IPAddresses pol);
                  mark := CgroupMark (Options runtime);
                  port := ConvertServicesToPortList (Services (Options runtime));
                  uid := UserID (Options runtime);
                  containerInfo := pu |} in
      let s := set_versionTracker s
                 (cache.AddOrUpdate (versionTracker s) contextID c) in
      match ConfigureRules (version c) contextID pu w with
      | (Some err, w) =>
          let '(_, s, w) := Unsupervise s contextID w in
          (Some err, s, w)
      | (None, w) => (None, s, w)
      end
  | _, _ => (panic, s, w)
  end.

(** [doUpdatePU] *)
Definition doUpdatePU (s : Config) (contextID : string) (pu : PUInfo) (w : W)
    : error * Config * W :=
  match cache.LockedModify (versionTracker s) contextID revert 1 with
  | (Err err, _) =>
      (Some ("unable to find pu " +:+ contextID +:+ " in cache: " +:+ err), s, w)
  | (Ok c, t) =>
      let s := set_versionTracker s t in
      match UpdateRules (version c) contextID (Some pu)
              (Some (containerInfo c)) w with
      | (Some err, w) =>
          let '(_, s, w) := Unsupervise s contextID w in
          (Some err, s, w)
      | (None, w) => (None, s, w)
      end
  end.

(** [Supervise] *)
Definition Supervise (s : Config) (contextID : string) (pu : option PUInfo)
    (w : W) : error * Config * W :=
  match pu with
  | None => (Some "Invalid PU or policy info", s, w)
  | Some pu =>
      match PUPolicy_of pu, Runtime pu with
      | Some _, Some _ =>
          match cache.Get (versionTracker s) contextID with
          | Err _ => doCreatePU s contextID pu w
          | Ok _ => doUpdatePU s contextID pu w
          end
      | _, _ => (Some "Invalid PU or policy info", s, w)
      end
  end.

End Supervisor.

(** The controller as an [Implementor]: the supervisor's [impl] in
    production.  The two files are at different revisions of the
    repository: the supervisor calls [DeleteRules] with seven arguments,
    and the method of the controller takes the address map of the PU as an
    eighth, between the contextID and the port list.  [addresses] is the map
    that reaches the method for a contextID; nothing is assumed of it. *)
#[export] Instance Controller `{E : Engine} `{LP : LogPrefixes}
    (i : iptablesctrl.Instance) (addresses : string -> ExtendedMap)
    : Implementor world := {
  ConfigureRules v c pu w :=
    let '(r, w) := run (iptablesctrl.ConfigureRules i v c pu) w in
    (error_of r, w);
  UpdateRules v c pu old w :=
    let '(r, w) := run (iptablesctrl.UpdateRules i v c pu old) w in
    (error_of r, w);
  DeleteRules v c port mark uid proxyPort name w :=
    let '(r, w) := run (iptablesctrl.DeleteRules i v c (addresses c) port mark
                          uid proxyPort name) w in
    (error_of r, w)
}.

(** An [Implementor] that records the calls it receives, oldest first, and
    answers each as a given function of the call and of the calls before it
    says. *)
Inductive impl_call : Type :=
| CallConfigureRules (version : Z) (contextID : string) (pu : PUInfo)
| CallUpdateRules (version : Z) (contextID : string)
    (pu oldpu : option PUInfo)
| CallDeleteRules (version : Z) (contextID : string)
    (port mark uid proxyPort proxyPortSetName : string).

Definition record_call (answer : impl_call -> list impl_call -> error)
    (c : impl_call) (w : list impl_call) : error * list impl_call :=
  (answer c w, w ++ [c]).

#[export] Instance Recorder (answer : impl_call -> list impl_call -> error)
    : Implementor (list impl_call) := {
  ConfigureRules v c pu := record_call answer (CallConfigureRules v c pu);
  UpdateRules v c pu old := record_call answer (CallUpdateRules v c pu old);
  DeleteRules v c port mark uid proxyPort name :=
    record_call answer (CallDeleteRules v c port mark uid proxyPort name)
}.

End supervisor.

(** ** A reference packet-filter engine

    The engine is outside the repository.  This is the behaviour of iptables
    and ipset that the controller relies on: chains are named per table and
    hold their rules in order; a rule is appended to or inserted into a chain
    that exists; deleting a rule needs that very rule in the chain; a new
    chain must not exist yet; clearing a chain empties it, creating it when
    absent; a chain is deleted only when it exists, is empty and no rule of
    its table jumps to it; a set is destroyed only when it exists and no rule
    matches on it. *)

Module netfilter.

Import policy.

Abbreviation rule := (list string).

Record kernel : Type := MkKernel {
  chains : gmap (string * string) (list rule);
  sets : gset string;
  (** the port-set tracker: uid to (set name, mark) *)
  userPortSets : gmap string (string * string)
}.

(** The token that follows the first occurrence of [flag] in a rule. *)
Fixpoint arg_of (flag : string) (r : rule) : option string :=
  match r with
  | [] => None
  | f :: rest =>
      if String.eqb f flag
      then match rest with
           | a :: _ => Some a
           | [] => None
           end
      else arg_of flag rest
  end.

Definition jumps_to (chain : string) (r : rule) : bool :=
  match arg_of "-j" r with
  | Some t => String.eqb t chain
  | None => false
  end.

Definition matches_set (name : string) (r : rule) : bool :=
  match arg_of "--match-set" r with
  | Some s => String.eqb s name
  | None => false
  end.

(** All the rules of a table, of all tables when [table] is [None]. *)
Definition rules_of (k : kernel) (table : option string) : list rule :=
  concat (map snd (List.filter (fun e : string * string * list rule =>
                                  match table with
                                  | None => true
                                  | Some t => String.eqb (fst (fst e)) t
                                  end)
                     (map_to_list (chains k)))).

Definition referenced (k : kernel) (table chain : string) : bool :=
  existsb (jumps_to chain) (rules_of k (Some table)).

Definition set_in_use (k : kernel) (name : string) : bool :=
  existsb (matches_set name) (rules_of k None).

Definition rule_eqb (a b : rule) : bool := bool_decide (a = b).

(** Removes the first rule equal to [r]; [None] when there is none. *)
Fixpoint remove_first (r : rule) (l : list rule) : option (list rule) :=
  match l with
  | [] => None
  | x :: rest =>
      if rule_eqb x r then Some rest
      else match remove_first r rest with
           | Some rest' => Some (x :: rest')
           | None => None
           end
  end.

(** Inserts [r] as rule number [pos], counted from 1. *)
Definition insert_at (pos : Z) (r : rule) (l : list rule)
    : option (list rule) :=
  if (1 <=? pos) && (pos <=? Z.of_nat (length l) + 1)
  then Some (firstn (Z.to_nat (pos - 1)) l ++ r :: skipn (Z.to_nat (pos - 1)) l)
  else None.

Definition set_chains (k : kernel) (c : gmap (string * string) (list rule))
    : kernel :=
  MkKernel c (sets k) (userPortSets k).

Definition set_sets (k : kernel) (s : gset string) : kernel :=
  MkKernel (chains k) s (userPortSets k).

Definition step (c : call) (k : kernel) : error * kernel :=
  match c with
  | Append t ch spec =>
      match chains k !! (t, ch) with
      | Some l => (None, set_chains k (<[(t, ch) := l ++ [spec]]> (chains k)))
      | None => (Some "No chain/target/match by that name", k)
      end
  | Insert t ch pos spec =>
      match chains k !! (t, ch) with
      | Some l =>
          match insert_at pos spec l with
          | Some l' => (None, set_chains k (<[(t, ch) := l']> (chains k)))
          | None => (Some "Index of insertion too big", k)
          end
      | None => (Some "No chain/target/match by that name", k)
      end
  | Delete t ch spec =>
      match chains k !! (t, ch) with
      | Some l =>
          match remove_first spec l with
          | Some l' => (None, set_chains k (<[(t, ch) := l']> (chains k)))
          | None => (Some "Bad rule (does a matching rule exist in that chain?)", k)
          end
      | None => (Some "No chain/target/match by that name", k)
      end
  | NewChain t ch =>
      match chains k !! (t, ch) with
      | Some _ => (Some "Chain already exists", k)
      | None => (None, set_chains k (<[(t, ch) := []]> (chains k)))
      end
  | ClearChain t ch =>
      (None, set_chains k (<[(t, ch) := []]> (chains k)))
  | DeleteChain t ch =>
      match chains k !! (t, ch) with
      | Some [] =>
          if referenced k t ch then (Some "Too many links", k)
          else (None, set_chains k (delete (t, ch) (chains k)))
      | Some _ => (Some "Directory not empty", k)
      | None => (Some "No chain/target/match by that name", k)
      end
  | IpsetDestroy n =>
      if bool_decide (n ∈ sets k) then
        if set_in_use k n
        then (Some "Set cannot be destroyed: it is in use by a kernel component", k)
        else (None, set_sets k (sets k ∖ {[n]}))
      else (Some "The set with the given name does not exist", k)
  | createProxySets _ _ n =>
      let '(dst, src) := iptablesctrl.getSetNamePair n in
      if bool_decide (dst ∈ sets k) || bool_decide (src ∈ sets k)
      then (Some "Set cannot be created: set with the same name already exists", k)
      else (None, set_sets k (sets k ∪ {[dst]} ∪ {[src]}))
  | updateProxySet _ _ n =>
      let '(dst, src) := iptablesctrl.getSetNamePair n in
      if bool_decide (dst ∈ sets k) && bool_decide (src ∈ sets k)
      then (None, k)
      else (Some "The set with the given name does not exist", k)
  | createPUPortSet n =>
      if bool_decide (n ∈ sets k)
      then (Some "Set cannot be created: set with the same name already exists", k)
      else (None, set_sets k (sets k ∪ {[n]}))
  | AddUserPortSet u n m =>
      (None, MkKernel (chains k) (sets k) (<[u := (n, m)]> (userPortSets k)))
  | DelUserPortSet u m =>
      match userPortSets k !! u with
      | Some _ => (None, MkKernel (chains k) (sets k) (delete u (userPortSets k)))
      | None => (Some "invalid user", k)
      end
  end.

#[export] Instance Netfilter : Engine := {
  engine_state := kernel;
  exec := step
}.

(** The filter after the controller has started: the built-in chains of the
    three tables, the chains that [SetTargetNetworks] creates, and the target
    network set. *)
Definition started : kernel :=
  {| chains :=
       list_to_map
         (map (fun tc : string * string => (tc, []))
            [ ("raw", "PREROUTING"); ("raw", "OUTPUT");
              ("mangle", "PREROUTING"); ("mangle", "INPUT");
              ("mangle", "FORWARD"); ("mangle", "OUTPUT");
              ("mangle", "POSTROUTING");
              ("nat", "PREROUTING"); ("nat", "INPUT");
              ("nat", "OUTPUT"); ("nat", "POSTROUTING");
              ("mangle", iptablesctrl.uidchain);
              ("nat", iptablesctrl.natProxyInputChain);
              ("nat", iptablesctrl.natProxyOutputChain);
              ("mangle", iptablesctrl.proxyOutputChain);
              ("mangle", iptablesctrl.proxyInputChain) ]);
     sets := {[ iptablesctrl.targetNetworkSet ]};
     userPortSets := ∅ |}.

(** *** Which packets a rule of the exclusion ACLs matches *)

Record packet : Type := MkPacket {
  pkt_src : string;
  pkt_dst : string;
  pkt_proto : string;
  (** the kinds of the TCP options the packet carries *)
  pkt_tcp_options : list Z
}.

Section Matching.

(** [within a cidr]: the address [a] lies in the network [cidr]. *)
Variable within : string -> string -> bool.

Fixpoint rule_matches (r : rule) (p : packet) : bool :=
  match r with
  | [] => true
  | f :: rest =>
      if String.eqb f "-s" then
        match rest with
        | a :: rest' => within (pkt_src p) a && rule_matches rest' p
        | [] => false
        end
      else if String.eqb f "-d" then
        match rest with
        | a :: rest' => within (pkt_dst p) a && rule_matches rest' p
        | [] => false
        end
      else if String.eqb f "-p" then
        match rest with
        | a :: rest' => String.eqb a (pkt_proto p) && rule_matches rest' p
        | [] => false
        end
      else if String.eqb f "!" then
        match rest with
        | o :: n :: rest' =>
            String.eqb o "--tcp-option"
            && negb (existsb (fun k => String.eqb (Go.Itoa k) n)
                       (pkt_tcp_options p))
            && rule_matches rest' p
        | _ => false
        end
      else if String.eqb f "-j" then true
      else false
  end.

(** The target of the first rule of a chain that matches the packet. *)
Fixpoint first_match (l : list rule) (p : packet) : option string :=
  match l with
  | [] => None
  | r :: rest =>
      if rule_matches r p then arg_of "-j" r else first_match rest p
  end.

End Matching.

End netfilter.

(** * Vocabulary of the properties *)

Module Naming.

(** The part of the contextID that [chainName] keeps: its first four bytes
    when it is longer than four, all of it otherwise. *)
Definition prefix4 (contextID : string) : string :=
  if 4 <? Go.len contextID then Go.slice_to 4 contextID else contextID.

(** The first six characters of the base64 text of the MD5 digest. *)
Definition hash6 (contextID : string) : string :=
  Go.slice_to 6 (Go.URLEncodeToString (Go.md5_sum contextID)).

Definition is_digit (c : ascii) : bool :=
  (Nat.leb 48 (nat_of_ascii c) && Nat.leb (nat_of_ascii c) 57)%bool.

Fixpoint only_digits (s : string) : bool :=
  match s with
  | EmptyString => true
  | String c r => is_digit c && only_digits r
  end.

End Naming.

(** ** Programs whose calls do not depend on the answers *)

Module Programs.

(** A program is steady when the answer to a call never changes which calls
    come next, only whether the program stops there: after a failed call it
    either returns at once with an error, or goes on as after a successful
    one. *)
Inductive steady {A : Type} : M A -> Prop :=
| steady_Ret (a : A) : steady (Ret a)
| steady_Fail (msg : string) : steady (Fail msg)
| steady_returns (c : call) (k : error -> M A) :
    steady (k None) ->
    (forall e, exists msg, k (Some e) = Fail msg) ->
    steady (Call c k)
| steady_goes_on (c : call) (k : error -> M A) :
    (forall e, steady (k e)) ->
    (forall e, script (k e) = script (k None)) ->
    (forall e, is_Ok (outcome (k e)) = is_Ok (outcome (k None))) ->
    steady (Call c k).

(** A program is strict when it returns an error at once after every call
    that fails. *)
Inductive strict {A : Type} : M A -> Prop :=
| strict_Ret (a : A) : strict (Ret a)
| strict_Fail (msg : string) : strict (Fail msg)
| strict_Call (c : call) (k : error -> M A) :
    strict (k None) ->
    (forall e, exists msg, k (Some e) = Fail msg) ->
    strict (Call c k).

(** A program is unfailing when it makes the same calls whatever the answers
    and never returns an error. *)
Inductive unfailing {A : Type} : M A -> Prop :=
| unfailing_Ret (a : A) : unfailing (Ret a)
| unfailing_Call (c : call) (k : error -> M A) :
    (forall e, unfailing (k e)) ->
    (forall e, script (k e) = script (k None)) ->
    unfailing (Call c k).

End Programs.

(** ** The calls of the controller, phase by phase *)

Module Scripts.

Import constants policy iptablesctrl.

(** Every rule of the list has its table, its chain and its tokens: none is
    short. *)
Definition readable (rules : list (list string)) : Prop :=
  Forall (fun cr => short cr = false) rules.

(** The rules of a table, each appended to, or deleted from, its chain. *)
Definition appended (rules : list (list string)) : list call :=
  map (fun cr => Append (rule_table cr) (rule_chain cr) (rule_spec cr)) rules.

Definition deleted (rules : list (list string)) : list call :=
  map (fun cr => Delete (rule_table cr) (rule_chain cr) (rule_spec cr)) rules.

(** The creation of the chains of a PU. *)
Definition new_chains (i : Instance) (appChain netChain : string) : list call :=
  (if ModeType_eqb (mode i) LocalContainer
   then [NewChain (appPacketIPTableContext i) appChain] else [])
  ++ [NewChain (appAckPacketIPTableContext i) appChain;
      NewChain (netPacketIPTableContext i) netChain].

(** The flushing and removal of the chains of a PU. *)
Definition chains_removed (i : Instance) (appChain netChain : string)
    : list call :=
  [ClearChain (appPacketIPTableContext i) appChain;
   DeleteChain (appPacketIPTableContext i) appChain;
   ClearChain (appAckPacketIPTableContext i) appChain;
   DeleteChain (appAckPacketIPTableContext i) appChain;
   ClearChain (netPacketIPTableContext i) netChain;
   DeleteChain (netPacketIPTableContext i) netChain].

(** The two exclusion rules of one excluded network. *)
Definition app_exclusion (ip e : string) : list string :=
  ["-s"; ip; "-d"; e; "-j"; "ACCEPT"].

Definition net_exclusion (ip e : string) : list string :=
  ["-s"; e; "-d"; ip; "-p"; "tcp"; "!"; "--tcp-option"; "34"; "-j"; "ACCEPT"].

Definition exclusions (i : Instance) (appChain netChain ip : string)
    (excluded : list string) : list call :=
  flat_map (fun e =>
              [Insert (appAckPacketIPTableContext i) appChain 1 (app_exclusion ip e);
               Insert (netPacketIPTableContext i) netChain 1 (net_exclusion ip e)])
    excluded.

(** The table of rules that steer the traffic of a PU to its chains, as
    [addChainRules] picks it and as [deleteChainRules] picks it. *)
Definition steering_added (i : Instance) (portSetName appChain netChain ip port
    mark uid proxyPort proxyPortSetName : string) : list (list string) :=
  if ModeType_eqb (mode i) LocalServer then
    if negb (String.eqb port "0") || String.eqb uid "" then
      cgroupChainRules i appChain netChain mark port uid proxyPort proxyPortSetName
    else
      uidChainRules i portSetName appChain netChain mark port uid proxyPort
        proxyPortSetName
  else chainRules i appChain netChain ip port proxyPort proxyPortSetName.

Definition steering_deleted (i : Instance) (portSetName appChain netChain ip
    port mark uid proxyPort proxyPortSetName : string) : list (list string) :=
  if ModeType_eqb (mode i) LocalServer then
    if String.eqb uid "" then
      cgroupChainRules i appChain netChain mark port uid proxyPort proxyPortSetName
    else
      uidChainRules i portSetName appChain netChain mark port uid proxyPort
        proxyPortSetName
  else chainRules i appChain netChain ip port proxyPort proxyPortSetName.

(** The last two tokens of a rule. *)
Fixpoint last_two (l : list string) : option (string * string) :=
  match l with
  | [] => None
  | [a; b] => Some (a, b)
  | _ :: r => last_two r
  end.

(** The call appends, or deletes, a rule whose target is the chain. *)
Definition adds_jump_to (chain : string) (c : call) : Prop :=
  match c with
  | Append _ _ spec => last_two spec = Some ("-j", chain)
  | _ => False
  end.


(** The call creates one of the chains, or adds a rule to one of them. *)
Definition builds (chains : list string) (c : call) : Prop :=
  match c with
  | NewChain _ ch | Append _ ch _ | Insert _ ch _ _ => ch ∈ chains
  | _ => False
  end.

Definition is_Append (c : call) : Prop :=
  match c with
  | Append _ _ _ => True
  | _ => False
  end.


(** The answer recorded for an accepted call that appends a rule. *)
Definition accepted (cr : list string) : call * error :=
  (Append (rule_table cr) (rule_chain cr) (rule_spec cr), None).

Section Phases.

Context `{LP : LogPrefixes}.

(** The first phase of an installation: the chains of the PU are created and
    filled with the trap rules, the ACLs and the exclusion rules. *)
Definition rendered (i : Instance) (contextID appChain netChain ip : string)
    (pol : PUPolicy) : list call :=
  new_chains i appChain netChain
  ++ appended (trapRules i appChain netChain)
  ++ script (addAppACLs i contextID appChain ip (ApplicationACLs pol))
  ++ script (addNetACLs i contextID netChain ip (NetworkACLs pol))
  ++ exclusions i appChain netChain ip (ExcludedNetworks pol).

End Phases.

(** The rules that a pass of the ACL renderers takes, in the order of the
    list. *)
Definition taken (loop : Z) (rules : IPRuleList) : IPRuleList :=
  List.filter (fun rule => negb (skipped loop rule)) rules.

(** The call adds a rule whose last two tokens are a jump to [target]. *)
Definition ends_in_jump (target : string) (c : call) : Prop :=
  match c with
  | Append _ _ spec | Insert _ _ _ spec => last_two spec = Some ("-j", target)
  | _ => False
  end.



(** The call inserts a rule at the head of a chain. *)
Definition is_Insert_first (c : call) : Prop :=
  match c with
  | Insert _ _ pos _ => pos = 1
  | _ => False
  end.

(** The call adds a rule to the chain of the table. *)
Definition on_chain (table chain : string) (c : call) : Prop :=
  match c with
  | Append t ch _ | Insert t ch _ _ => t = table /\ ch = chain
  | _ => False
  end.

(** The call adds a rule to a chain that one of the [created] calls
    created. *)
Definition housed (created : list call) (c : call) : Prop :=
  match c with
  | Append t ch _ | Insert t ch _ _ => In (NewChain t ch) created
  | _ => False
  end.

(** What a clean-up script [cleanup] holds against one call of an
    installation script [installed]: for a chain, its flush and its
    removal; for a rule, its deletion, unless the rule is in a chain that
    the installation created; for a set, its destruction; for the port set
    handed to the tracker, its withdrawal. *)
Definition undone (installed cleanup : list call) (c : call) : Prop :=
  match c with
  | NewChain t ch => In (ClearChain t ch) cleanup /\ In (DeleteChain t ch) cleanup
  | Append t ch spec =>
      In (NewChain t ch) installed \/ In (Delete t ch spec) cleanup
  | Insert t ch _ _ => In (NewChain t ch) installed
  | createProxySets _ _ n =>
      In (IpsetDestroy (getSetNamePair n).1) cleanup
      /\ In (IpsetDestroy (getSetNamePair n).2) cleanup
  | createPUPortSet n => In (IpsetDestroy n) cleanup
  | AddUserPortSet u _ m => In (DelUserPortSet u m) cleanup
  | _ => False
  end.

(** A steering table at the arguments that [UpdateRules] passes in the mode of
    the instance. *)
Definition steering (table : Instance -> string -> string -> string -> string ->
                             string -> string -> string -> string -> string ->
                             list (list string))
    (i : Instance) (contextID : string) (rt : PURuntime)
    (appChain netChain ip : string) : list (list string) :=
  let proxyPort := ProxyPort (Options rt) in
  if negb (ModeType_eqb (mode i) LocalServer) then
    table i "" appChain netChain ip "" "" "" proxyPort
      (PuPortSetName contextID "" proxyPortSet)
  else
    let mark := CgroupMark (Options rt) in
    table i (PuPortSetName contextID mark PuPortSet) appChain netChain ip
      (ConvertServicesToPortList (Services (Options rt))) mark
      (UserID (Options rt)) proxyPort
      (PuPortSetName contextID mark proxyPortSet).

(** The name under which [UpdateRules] refreshes the proxy sets. *)
Definition proxy_set_name (i : Instance) (contextID : string) (rt : PURuntime)
    : string :=
  PuPortSetName contextID
    (if ModeType_eqb (mode i) LocalServer then CgroupMark (Options rt) else "")
    proxyPortSet.

Section Update.

Context `{LP : LogPrefixes}.


(** The calls of a first installation at [version]: the chains are created;
    on a host the port set of a user is created and handed to the tracker;
    the proxy sets are created; the traffic is steered to the chains; then
    the chains are filled with the trap rules, the ACLs and the exclusion
    rules. *)
Definition configure_script (i : Instance) (version : Z) (contextID : string)
    (pol : PUPolicy) (rt : PURuntime) : list call :=
  let ip := (defaultIP i (Some (IPAddresses pol))).1 in
  let new := chainName contextID version in
  let mark := CgroupMark (Options rt) in
  let uid := UserID (Options rt) in
  new_chains i new.1 new.2
  ++ (if ModeType_eqb (mode i) LocalServer && negb (String.eqb uid "")
      then [createPUPortSet (PuPortSetName contextID mark PuPortSet);
            AddUserPortSet uid (PuPortSetName contextID mark PuPortSet) mark]
      else [])
  ++ [createProxySets (PublicIPPortPair (ProxiedServices pol))
        (PrivateIPPortPair (ProxiedServices pol)) (proxy_set_name i contextID rt)]
  ++ appended (steering steering_added i contextID rt new.1 new.2 ip)
  ++ appended (trapRules i new.1 new.2)
  ++ script (addAppACLs i contextID new.1 ip (ApplicationACLs pol))
  ++ script (addNetACLs i contextID new.2 ip (NetworkACLs pol))
  ++ exclusions i new.1 new.2 ip (ExcludedNetworks pol).

(** The two phases of a policy update: the calls that build the chains of
    [version] and steer the traffic to them, and the calls that take the
    chains of the other version out of service. *)
Definition update_build (i : Instance) (version : Z) (contextID : string)
    (pol : PUPolicy) (rt : PURuntime) : list call :=
  let ip := (defaultIP i (Some (IPAddresses pol))).1 in
  let new := chainName contextID version in
  rendered i contextID new.1 new.2 ip pol
  ++ appended (steering steering_added i contextID rt new.1 new.2 ip).

Definition update_teardown (i : Instance) (version : Z) (contextID : string)
    (pol : PUPolicy) (rt : PURuntime) : list call :=
  let ip := (defaultIP i (Some (IPAddresses pol))).1 in
  let old := chainName contextID (Z.lxor version 1) in
  deleted (steering steering_deleted i contextID rt old.1 old.2 ip)
  ++ [updateProxySet (PublicIPPortPair (ProxiedServices pol))
        (PrivateIPPortPair (ProxiedServices pol)) (proxy_set_name i contextID rt)]
  ++ chains_removed i old.1 old.2.

End Update.

End Scripts.

(** ** Runs of the supervisor *)

Module Runs.

Import constants policy supervisor.

(** A PU that [Supervise] accepts: policy and runtime are there. *)
Definition valid (pu : PUInfo) : Prop :=
  is_Some (PUPolicy_of pu) /\ is_Some (Runtime pu).

Section Sequences.

Context {W : Type} `{I : Implementor W}.

(** [Supervise] called for one contextID with each PU of a list in turn; the
    errors returned, oldest first, and the final state. *)
Fixpoint Supervise_each (s : Config) (contextID : string) (pus : list PUInfo)
    (w : W) : list error * Config * W :=
  match pus with
  | [] => ([], s, w)
  | pu :: rest =>
      let '(e, s, w) := Supervise s contextID (Some pu) w in
      let '(es, s, w) := Supervise_each s contextID rest w in
      (e :: es, s, w)
  end.

End Sequences.

(** The calls that updates with the PUs of a list make on the implementor
    when the tracked version is [v] and the PU was created from [first]. *)
Fixpoint update_calls (contextID : string) (first : PUInfo) (v : Z)
    (pus : list PUInfo) : list impl_call :=
  match pus with
  | [] => []
  | pu :: rest =>
      CallUpdateRules (Z.lxor v 1) contextID (Some pu) (Some first)
      :: update_calls contextID first (Z.lxor v 1) rest
  end.

(** The entry that [doCreatePU] stores for a PU. *)
Definition created_entry (pu : PUInfo) (pol : PUPolicy) (rt : PURuntime)
    : cacheData :=
  {| version := 0;
     ips := Some (IPAddresses pol);
     mark := CgroupMark (Options rt);
     port := ConvertServicesToPortList (Services (Options rt));
     uid := UserID (Options rt);
     containerInfo := pu |}.

(** The rollback call: [DeleteRules] with the fields of an entry. *)
Definition rollback_call (contextID : string) (cfg : cacheData)
    (rt : PURuntime) : impl_call :=
  CallDeleteRules (version cfg) contextID (port cfg) (mark cfg) (uid cfg)
    (ProxyPort (Options rt))
    (iptablesctrl.PuPortSetName contextID (mark cfg) "Proxy-").

(** The invariant of the tracker: every tracked version is 0 or 1, and every
    entry holds a PU with its runtime. *)
Definition well_tracked (s : Config) : Prop :=
  map_Forall (fun _ cfg => (version cfg = 0 \/ version cfg = 1)
                           /\ is_Some (Runtime (containerInfo cfg)))
    (versionTracker s).

End Runs.

(** ** Concrete processing units *)

Module Examples.

Import constants policy.

(** The two ACL rules of the controller's tests, and one observed rule of
    each kind. *)
Definition acls : IPRuleList :=
  [ MkIPRule "192.30.253.0/24" "80" "TCP"
      (MkFlowPolicy ObserveNone (MkAction false true false) "" "");
    MkIPRule "192.30.253.0/24" "443" "TCP"
      (MkFlowPolicy ObserveNone (MkAction true false false) "" "");
    MkIPRule "10.0.0.0/8" "53" "udp"
      (MkFlowPolicy ObserveContinue (MkAction true false false) "dns" "shadow");
    MkIPRule "10.0.0.0/8" "" "icmp"
      (MkFlowPolicy ObserveApply (MkAction false true true) "ping" "apply") ].

(** The policy of the controller's tests: one address, one target network. *)
Definition container_policy : PUPolicy :=
  MkPUPolicy {[ DefaultNamespace := "172.17.0.1" ]} acls acls
    ["10.1.0.0/16"] ["172.17.0.0/24"] (MkProxied [] []).

(** A container, as the remote enforcer builds it. *)
Definition container : PUInfo :=
  MkPUInfo "Context" (Some container_policy) (Some NewPURuntimeWithDefaults).

(** A Linux process with a cgroup mark and one service. *)
Definition process : PUInfo :=
  MkPUInfo "Context" (Some container_policy)
    (Some (NewPURuntime "sshd" 1 "" None None LinuxProcessPU
             (Some (MkOptions "" "100" "" [MkService 6 22] "5000")) "")).

(** A login session of a user with a cgroup mark and one service. *)
Definition login : PUInfo :=
  MkPUInfo "Context" (Some container_policy)
    (Some (NewPURuntime "alice" 1 "" None None UIDLoginPU
             (Some (MkOptions "" "100" "1001" [MkService 6 80] "5000")) "")).

Definition queues : fqconfig.FilterQueue :=
  fqconfig.MkFilterQueue "0:3" "4:7" "8:11" "12:15".

#[export] Instance prefixes : LogPrefixes := {
  LogPrefix f contextID := contextID +:+ ":" +:+ PolicyID f +:+ ":" +:+ ServiceID f;
  DefaultLogPrefix contextID := contextID +:+ ":default:default"
}.

(** A supervisor that tracks nothing yet. *)
Definition fresh (m : ModeType) : supervisor.Config := supervisor.MkConfig m ∅.

(** The controller of a remote container, of a local container and of a
    host, over the reference engine. *)
Definition remote : iptablesctrl.Instance :=
  iptablesctrl.NewInstance queues RemoteContainer true.

Definition local : iptablesctrl.Instance :=
  iptablesctrl.NewInstance queues LocalContainer true.

Definition host : iptablesctrl.Instance :=
  iptablesctrl.NewInstance queues LocalServer true.

(** The world once the controller has started. *)
Definition world0 : world (E := netfilter.Netfilter) :=
  MkWorld (E := netfilter.Netfilter) [] netfilter.started.

(** The address map that reaches the [DeleteRules] of the controller in the
    examples: that of the policy of the tests, for every contextID. *)
Definition addresses (contextID : string) : ExtendedMap :=
  Some (IPAddresses container_policy).

(** The container supervised once by the remote controller. *)
Definition container_created : error * supervisor.Config * world :=
  supervisor.Supervise (I := supervisor.Controller remote addresses)
    (fresh RemoteContainer) "Context" (Some container) world0.

(** An address is within a network, for the examples: it is the network,
    or the network is 10.1.0.0/16 and the address starts with [10.1.]. *)
Definition within (a n : string) : bool :=
  String.eqb a n || (String.eqb n "10.1.0.0/16" && String.prefix "10.1." a).

End Examples.

(** ** The shape of a hitless update *)

Module Hitless.

Import constants policy iptablesctrl Scripts.

Section Shape.

Context `{LP : LogPrefixes}.


End Shape.

(** A call that creates a chain or adds a rule. *)
Definition installs (c : call) : Prop :=
  match c with
  | NewChain _ _ | Append _ _ _ | Insert _ _ _ _ => True
  | _ => False
  end.

(** A call that deletes a rule, refreshes the proxy sets, or flushes or
    removes one of the chains. *)
Definition tears_down (chains : list string) (c : call) : Prop :=
  match c with
  | Delete _ _ _ | updateProxySet _ _ _ => True
  | ClearChain _ ch | DeleteChain _ ch => ch ∈ chains
  | _ => False
  end.

End Hitless.

(** * Properties *)

(** ** The runtime record never holds a nil collaborator *)

Module RuntimeFacts.

Import constants policy.

(** C10. [NewPURuntime] stores an empty tag store for nil tags, an empty
    address map for a nil map and options with proxy port "5000" for nil
    options, and what it is given otherwise, so none of the three stored
    fields is nil; [Options] returns the zero value of [OptionsType] on a
    nil options pointer and the stored options otherwise, and on a record
    made by [NewPURuntime] the accessors that go through a pointer
    ([Options], [Tags], [IPAddresses]) all return a value. *)
Theorem NewPURuntime_never_nil :
  forall (name : string) (pid : Z) (nsPath : string) (tags : option TagStore)
         (ips : ExtendedMap) (puType : PUType) (options : option OptionsType)
         (sidecarUID : string),
    let r := NewPURuntime name pid nsPath tags ips puType options sidecarUID in
    policy.tags r = Some (default NewTagStore tags)
    /\ policy.ips r = Some (default ∅ ips)
    /\ policy.options r
       = Some (default (MkOptions "" "" "" [] "5000") options)
    /\ Options r = default (MkOptions "" "" "" [] "5000") options
    /\ Runtime_Tags r = Some (default NewTagStore tags)
    /\ Runtime_IPAddresses r = Some (default ∅ ips)
    /\ (forall r' : PURuntime,
          policy.options r' = None -> Options r' = OptionsType_zero)
    /\ (forall (r' : PURuntime) (o : OptionsType),
          policy.options r' = Some o -> Options r' = o).
Proof.
  intros name pid nsPath tags ips puType options sidecarUID r.
  subst r. unfold NewPURuntime, Options, Runtime_Tags, Runtime_IPAddresses.
  cbn [policy.tags policy.ips policy.options ExtendedMap_Copy].
  destruct tags as [[t]|], ips as [g|], options as [o|]; cbn;
    repeat split; try reflexivity;
    intros r' ?; try intros ?; unfold Options; destruct (policy.options r');
    congruence.
Qed.

End RuntimeFacts.

(** ** Chain names *)

Module NamingFacts.

Import iptablesctrl Naming.

Lemma append_nil_l (s : string) : "" +:+ s = s.
Proof. reflexivity. Qed.

Lemma append_cons (c : ascii) (a b : string) :
  String c a +:+ b = String c (a +:+ b).
Proof. reflexivity. Qed.

Ltac unfold_append :=
  repeat first [rewrite append_nil_l in * | rewrite append_cons in *].

Lemma append_cancel_l (p a b : string) : p +:+ a = p +:+ b -> a = b.
Proof.
  induction p as [|c p IH]; unfold_append; [auto|].
  intros H. injection H. exact IH.
Qed.

Lemma length_append (a b : string) :
  String.length (a +:+ b) = (String.length a + String.length b)%nat.
Proof.
  induction a as [|c a IH]; unfold_append; simpl; [reflexivity | now f_equal].
Qed.

Lemma append_assoc (a b c : string) : (a +:+ b) +:+ c = a +:+ (b +:+ c).
Proof.
  induction a as [|x a IH]; unfold_append; [reflexivity | now f_equal].
Qed.

Lemma append_split_same_length (p1 p2 h1 h2 : string) :
  String.length h1 = String.length h2 ->
  p1 +:+ h1 = p2 +:+ h2 -> p1 = p2 /\ h1 = h2.
Proof.
  revert p2. induction p1 as [|c p1 IH]; intros [|d p2] Hlen H; unfold_append.
  - auto.
  - exfalso. rewrite H in Hlen. simpl in Hlen. rewrite length_append in Hlen. lia.
  - exfalso. rewrite <- H in Hlen. simpl in Hlen. rewrite length_append in Hlen. lia.
  - injection H as -> H. destruct (IH p2 Hlen H) as [-> ->]. auto.
Qed.

Lemma only_digits_append_dash (r d : string) :
  only_digits (r +:+ String "-" d) = false.
Proof.
  induction r as [|c r IH]; unfold_append; simpl; [reflexivity|].
  rewrite IH. apply andb_false_r.
Qed.

(** Two texts that end in a dash followed by digits agree on both parts. *)
Lemma dash_digits_split (a b d1 d2 : string) :
  only_digits d1 = true -> only_digits d2 = true ->
  a +:+ String "-" d1 = b +:+ String "-" d2 -> a = b /\ d1 = d2.
Proof.
  revert b. induction a as [|c a IH]; intros [|e b] H1 H2 H; unfold_append.
  - injection H. auto.
  - exfalso. injection H as _ H. rewrite H in H1.
    rewrite only_digits_append_dash in H1. discriminate.
  - exfalso. injection H as _ H. rewrite <- H in H2.
    rewrite only_digits_append_dash in H2. discriminate.
  - injection H as -> H. destruct (IH b H1 H2 H) as [-> ->]. auto.
Qed.

Lemma only_digits_string_of_uint (d : Decimal.uint) :
  only_digits (NilEmpty.string_of_uint d) = true.
Proof. induction d; cbn; auto. Qed.

Lemma Itoa_only_digits (v : Z) : 0 <= v -> only_digits (Go.Itoa v) = true.
Proof.
  intros Hv. unfold Go.Itoa. destruct v as [|p|p]; [reflexivity| |lia].
  cbn. unfold NilZero.string_of_uint.
  destruct (Pos.to_uint p) eqn:Hp; try reflexivity;
    rewrite <- Hp; apply only_digits_string_of_uint.
Qed.

Lemma Itoa_inj (v1 v2 : Z) : Go.Itoa v1 = Go.Itoa v2 -> v1 = v2.
Proof.
  unfold Go.Itoa. intros H.
  assert (Hnn : forall v, Z.to_int v <> Decimal.Pos Decimal.Nil
                          /\ Z.to_int v <> Decimal.Neg Decimal.Nil).
  { intros [|p|p]; cbn; split; try discriminate;
      intros [= Hp]; exact (DecimalPos.Unsigned.to_uint_nonnil p Hp). }
  assert (Hi : Some (Z.to_int v1) = Some (Z.to_int v2)).
  { rewrite <- (NilZero.isi (Z.to_int v1)) by apply Hnn.
    rewrite <- (NilZero.isi (Z.to_int v2)) by apply Hnn.
    now rewrite H. }
  injection Hi as Hi.
  rewrite <- (DecimalZ.of_to v1), <- (DecimalZ.of_to v2). now rewrite Hi.
Qed.

Lemma hash6_length (contextID : string) : String.length (hash6 contextID) = 6%nat.
Proof.
  unfold hash6, Go.md5_sum.
  set (st := fold_left Go.md5_block _ _).
  cbn [Go.le_bytes app]. reflexivity.
Qed.

Lemma hashed_id_6 (contextID : string) :
  hashed_id 6 contextID = prefix4 contextID +:+ hash6 contextID.
Proof. unfold hashed_id, prefix4, hash6. now destruct (4 <? _). Qed.

Lemma chain_suffix_inj (pre c1 c2 : string) (v1 v2 : Z) :
  0 <= v1 -> 0 <= v2 ->
  pre +:+ hashed_id 6 c1 +:+ "-" +:+ Go.Itoa v1
  = pre +:+ hashed_id 6 c2 +:+ "-" +:+ Go.Itoa v2 ->
  prefix4 c1 = prefix4 c2 /\ hash6 c1 = hash6 c2 /\ v1 = v2.
Proof.
  intros H1 H2 H. apply append_cancel_l in H.
  apply dash_digits_split in H; try now apply Itoa_only_digits.
  destruct H as [Hid Hv]. rewrite !hashed_id_6 in Hid.
  apply append_split_same_length in Hid; [|now rewrite !hash6_length].
  destruct Hid. auto using Itoa_inj.
Qed.

(** C3. The chain names of a contextID at a version are the fixed prefixes
    TRIREME-App- and TRIREME-Net- followed by the first four bytes of the
    contextID (all of it when it has at most four), the first six base64
    characters of its MD5 digest, a dash and the version in decimal; and for
    versions that are not negative, as the supervisor's 0 and 1 are, two
    different pairs whose contextIDs are the same or do not share both the
    four-byte prefix and the six hash characters get different app names
    and different net names. *)
Theorem chainName_form_and_injective :
  forall (c1 c2 : string) (v1 v2 : Z),
    (chainName c1 v1
     = ("TRIREME-App-" +:+ prefix4 c1 +:+ hash6 c1 +:+ "-" +:+ Go.Itoa v1,
        "TRIREME-Net-" +:+ prefix4 c1 +:+ hash6 c1 +:+ "-" +:+ Go.Itoa v1)
     /\ String.length (hash6 c1) = 6%nat
     /\ hash6 c1 = String.substring 0 6 (Go.URLEncodeToString (Go.md5_sum c1))
     /\ ((String.length c1 <= 4)%nat -> prefix4 c1 = c1)
     /\ ((4 < String.length c1)%nat -> prefix4 c1 = String.substring 0 4 c1))
    /\ (0 <= v1 -> 0 <= v2 ->
        c1 = c2 \/ ~ (prefix4 c1 = prefix4 c2 /\ hash6 c1 = hash6 c2) ->
        (c1, v1) <> (c2, v2) ->
        (chainName c1 v1).1 <> (chainName c2 v2).1
        /\ (chainName c1 v1).2 <> (chainName c2 v2).2).
Proof.
  intros c1 c2 v1 v2. split.
  - unfold chainName. rewrite hashed_id_6.
    split; [|split; [|split; [|split]]].
    + change appChainPrefix with "TRIREME-App-".
      change netChainPrefix with "TRIREME-Net-".
      now rewrite !append_assoc.
    + apply hash6_length.
    + reflexivity.
    + unfold prefix4, Go.len. intros H.
      destruct (Z.ltb_spec 4 (Z.of_nat (String.length c1))); [lia|reflexivity].
    + unfold prefix4, Go.len. intros H.
      destruct (Z.ltb_spec 4 (Z.of_nat (String.length c1))); [reflexivity|lia].
  - intros H1 H2 Hc Hne.
    assert (Hs : (chainName c1 v1).1 = (chainName c2 v2).1
                 \/ (chainName c1 v1).2 = (chainName c2 v2).2 ->
                 prefix4 c1 = prefix4 c2 /\ hash6 c1 = hash6 c2 /\ v1 = v2).
    { unfold chainName. cbn [fst snd].
      intros [Hn|Hn]; eapply chain_suffix_inj; eauto. }
    assert (Hno : ~ ((chainName c1 v1).1 = (chainName c2 v2).1
                     \/ (chainName c1 v1).2 = (chainName c2 v2).2)).
    { intros Hn. destruct (Hs Hn) as (Hp & Hh & Hv). apply Hne.
      destruct Hc as [Hc|Hc]; [now subst | exfalso; apply Hc; auto]. }
    split; intros Hn; apply Hno; auto.
Qed.

(** The theorem on the contextID and version of the controller's own test
    and on a second contextID with the same first four bytes: the names are
    computed, and they differ in the six hash characters. *)
Lemma chainName_form_and_injective_witness :
  chainName "Context" 1
  = ("TRIREME-App-ContrU4gZA-1", "TRIREME-Net-ContrU4gZA-1")
  /\ chainName "Contour" 1
     = ("TRIREME-App-ContCzMD6G-1", "TRIREME-Net-ContCzMD6G-1")
  /\ 0 <= 1
  /\ ("Context" = "Contour"
      \/ ~ (prefix4 "Context" = prefix4 "Contour"
            /\ hash6 "Context" = hash6 "Contour"))
  /\ ("Context", 1) <> ("Contour", 1)
  /\ (chainName "Context" 1).1 <> (chainName "Contour" 1).1
  /\ (chainName "Context" 1).2 <> (chainName "Contour" 1).2.
Proof.
  assert (Hv : 0 <= 1) by lia.
  assert (Hc : "Context" = "Contour"
               \/ ~ (prefix4 "Context" = prefix4 "Contour"
                     /\ hash6 "Context" = hash6 "Contour")).
  { right. intros [_ H]. vm_compute in H. discriminate H. }
  assert (Hne : ("Context", 1) <> ("Contour", 1)) by discriminate.
  split; [vm_compute; reflexivity|]. split; [vm_compute; reflexivity|].
  split; [exact Hv|]. split; [exact Hc|]. split; [exact Hne|].
  exact (proj2 (chainName_form_and_injective "Context" "Contour" 1 1)
           Hv Hv Hc Hne).
Defined.

(** C3 fails at a negative version.  The decimal text of -1 starts with a
    dash, and so may the six hash characters end with one: the contextID
    [pod] at version -1 and the contextID [pod3dNrjZpfaa] at version 1 get
    the same two names, although the contextIDs share neither the first
    four bytes nor the six hash characters. *)
Lemma chainName_collides_at_a_negative_version :
  prefix4 "pod" <> prefix4 "pod3dNrjZpfaa"
  /\ hash6 "pod" <> hash6 "pod3dNrjZpfaa"
  /\ ("pod", -1) <> ("pod3dNrjZpfaa", 1)
  /\ chainName "pod" (-1)
     = ("TRIREME-App-pod3MDKqX--1", "TRIREME-Net-pod3MDKqX--1")
  /\ chainName "pod3dNrjZpfaa" 1
     = ("TRIREME-App-pod3MDKqX--1", "TRIREME-Net-pod3MDKqX--1")
  /\ ~ (forall (c1 c2 : string) (v1 v2 : Z),
          ~ (prefix4 c1 = prefix4 c2 /\ hash6 c1 = hash6 c2) ->
          chainName c1 v1 = chainName c2 v2 -> c1 = c2 /\ v1 = v2).
Proof.
  assert (H1 : chainName "pod" (-1)
               = ("TRIREME-App-pod3MDKqX--1", "TRIREME-Net-pod3MDKqX--1"))
    by (vm_compute; reflexivity).
  assert (H2 : chainName "pod3dNrjZpfaa" 1
               = ("TRIREME-App-pod3MDKqX--1", "TRIREME-Net-pod3MDKqX--1"))
    by (vm_compute; reflexivity).
  assert (Hp : prefix4 "pod" <> prefix4 "pod3dNrjZpfaa")
    by (vm_compute; discriminate).
  split; [exact Hp|]. split; [vm_compute; discriminate|].
  split; [discriminate|]. split; [exact H1|]. split; [exact H2|].
  intros H.
  destruct (H "pod" "pod3dNrjZpfaa" (-1) 1) as [Hc _].
  - intros [Hp' _]. exact (Hp Hp').
  - now rewrite H1, H2.
  - discriminate Hc.
Qed.

End NamingFacts.

(** ** Runs of steady programs *)

Module ProgramFacts.

Import Programs.

Lemma script_bind {A B : Type} (m : M A) (k : A -> M B) :
  script (bind m k)
  = script m ++ match outcome m with
                | Ok a => script (k a)
                | Err _ => []
                end.
Proof.
  induction m as [a|msg|c k' IH]; cbn.
  - reflexivity.
  - reflexivity.
  - now rewrite IH.
Qed.

Lemma outcome_bind {A B : Type} (m : M A) (k : A -> M B) :
  outcome (bind m k)
  = match outcome m with
    | Ok a => outcome (k a)
    | Err msg => Err msg
    end.
Proof. induction m as [a|msg|c k' IH]; cbn; auto. Qed.

Lemma script_wrapf {A : Type} (m : M A) (f : string -> string) :
  script (wrapf m f) = script m.
Proof. induction m as [a|msg|c k IH]; cbn; auto. now rewrite IH. Qed.

Lemma outcome_wrapf {A : Type} (m : M A) (f : string -> string) :
  is_Ok (outcome (wrapf m f)) = is_Ok (outcome m).
Proof. induction m as [a|msg|c k IH]; cbn; auto. Qed.

Lemma script_try {A : Type} (m : M A) : script (try m) = script m.
Proof. induction m as [a|msg|c k IH]; cbn; auto. now rewrite IH. Qed.

Lemma outcome_try {A : Type} (m : M A) : is_Ok (outcome (try m)) = true.
Proof. induction m as [a|msg|c k IH]; cbn; auto. Qed.

Lemma unfailing_steady {A : Type} (m : M A) : unfailing m -> steady m.
Proof.
  induction 1 as [a|c k Hk IH Hs].
  - constructor.
  - apply steady_goes_on; auto.
    intros e. clear IH Hs.
    assert (Hok : forall m' : M A, unfailing m' -> is_Ok (outcome m') = true).
    { induction 1; cbn; auto. }
    now rewrite !Hok.
Qed.

Lemma unfailing_outcome {A : Type} (m : M A) :
  unfailing m -> is_Ok (outcome m) = true.
Proof. induction 1; cbn; auto. Qed.

Lemma unfailing_try {A : Type} (m : M A) : unfailing m -> unfailing (try m).
Proof.
  induction 1 as [a|c k Hk IH Hs]; cbn.
  - constructor.
  - constructor; auto. intros e. now rewrite !script_try.
Qed.

Lemma unfailing_try_call (c : call) : unfailing (try (do_call c)).
Proof.
  cbn. constructor.
  - intros [e|]; constructor.
  - now intros [e|].
Qed.

Lemma unfailing_bind {A B : Type} (m : M A) (k : A -> M B) :
  unfailing m ->
  (forall a, unfailing (k a)) ->
  (forall a b, script (k a) = script (k b)) ->
  unfailing (bind m k).
Proof.
  intros Hm Hk Hs. induction Hm as [a|c k' Hk' IH Hs']; cbn.
  - apply Hk.
  - constructor; auto.
    intros e. rewrite !script_bind, Hs'.
    pose proof (unfailing_outcome _ (Hk' e)) as H1.
    pose proof (unfailing_outcome _ (Hk' None)) as H2.
    destruct (outcome (k' e)), (outcome (k' None)); try discriminate.
    f_equal. apply Hs.
Qed.

Lemma steady_do_call (c : call) : steady (do_call c).
Proof.
  apply steady_returns; [constructor|]. intros e. now exists e.
Qed.

Lemma steady_wrapf {A : Type} (m : M A) (f : string -> string) :
  steady m -> steady (wrapf m f).
Proof.
  induction 1 as [a|msg|c k Hk IH Hf|c k Hk IH Hs Ho]; cbn.
  - constructor.
  - constructor.
  - apply steady_returns; auto.
    intros e. destruct (Hf e) as [msg ->]. now exists (f msg).
  - apply steady_goes_on; auto.
    + intros e. now rewrite !script_wrapf.
    + intros e. now rewrite !outcome_wrapf.
Qed.

Lemma steady_bind {A B : Type} (m : M A) (k : A -> M B) :
  steady m ->
  (forall a, steady (k a)) ->
  (forall a b, script (k a) = script (k b)
               /\ is_Ok (outcome (k a)) = is_Ok (outcome (k b))) ->
  steady (bind m k).
Proof.
  intros Hm Hk Hs.
  induction Hm as [a|msg|c k' Hk' IH Hf|c k' Hk' IH Hs' Ho]; cbn.
  - apply Hk.
  - constructor.
  - apply steady_returns; auto.
    intros e. destruct (Hf e) as [msg ->]. now exists msg.
  - apply steady_goes_on; auto.
    + intros e. rewrite !script_bind, Hs'. specialize (Ho e).
      destruct (outcome (k' e)), (outcome (k' None)); try discriminate; auto.
      f_equal. apply Hs.
    + intros e. rewrite !outcome_bind. specialize (Ho e).
      destruct (outcome (k' e)), (outcome (k' None)); try discriminate; auto.
      apply Hs.
Qed.

(** The usual case: the continuation ignores the value. *)
Lemma steady_seq {A B : Type} (m : M A) (q : M B) :
  steady m -> steady q -> steady (bind m (fun _ => q)).
Proof. intros Hm Hq. apply steady_bind; auto. Qed.

Lemma script_seq {A B : Type} (m : M A) (q : M B) :
  is_Ok (outcome m) = true ->
  script (bind m (fun _ => q)) = script m ++ script q.
Proof.
  intros H. rewrite script_bind. now destruct (outcome m).
Qed.

Lemma outcome_seq {A B : Type} (m : M A) (q : M B) :
  is_Ok (outcome m) = true ->
  is_Ok (outcome (bind m (fun _ => q))) = is_Ok (outcome q).
Proof.
  intros H. rewrite outcome_bind. now destruct (outcome m).
Qed.

Lemma flat_map_single {A B : Type} (f : A -> B) (l : list A) :
  flat_map (fun x => [f x]) l = map f l.
Proof. induction l as [|x l IH]; cbn; congruence. Qed.

Lemma steady_for_each {A : Type} (l : list A) (body : A -> M unit) :
  (forall x, steady (body x)) -> steady (for_each l body).
Proof.
  intros H. induction l as [|x l IH]; cbn.
  - constructor.
  - now apply steady_seq.
Qed.

Lemma unfailing_for_each {A : Type} (l : list A) (body : A -> M unit) :
  (forall x, unfailing (body x)) -> unfailing (for_each l body).
Proof.
  intros H. induction l as [|x l IH]; cbn.
  - constructor.
  - apply unfailing_bind; auto.
Qed.

Lemma script_for_each {A : Type} (l : list A) (body : A -> M unit) :
  (forall x, is_Ok (outcome (body x)) = true) ->
  script (for_each l body) = flat_map (fun x => script (body x)) l
  /\ is_Ok (outcome (for_each l body)) = true.
Proof.
  intros H. induction l as [|x l [IH1 IH2]]; cbn.
  - auto.
  - rewrite script_seq, outcome_seq, IH1 by apply H. auto.
Qed.

Lemma strict_do_call (c : call) : strict (do_call c).
Proof.
  apply strict_Call; [constructor|]. intros e. now exists e.
Qed.

Lemma strict_wrapf {A : Type} (m : M A) (f : string -> string) :
  strict m -> strict (wrapf m f).
Proof.
  induction 1 as [a|msg|c k Hk IH Hf]; cbn; try constructor; auto.
  intros e. destruct (Hf e) as [msg ->]. now exists (f msg).
Qed.

Lemma strict_bind {A B : Type} (m : M A) (k : A -> M B) :
  strict m -> (forall a, strict (k a)) -> strict (bind m k).
Proof.
  intros Hm Hk. induction Hm as [a|msg|c k' Hk' IH Hf]; cbn.
  - apply Hk.
  - constructor.
  - constructor; auto. intros e. destruct (Hf e) as [msg ->]. now exists msg.
Qed.

Lemma strict_for_each {A : Type} (l : list A) (body : A -> M unit) :
  (forall x, strict (body x)) -> strict (for_each l body).
Proof.
  intros H. induction l as [|x l IH]; cbn.
  - constructor.
  - apply strict_bind; auto.
Qed.

Section Runs.

Context `{E : Engine}.

(** A run only adds calls to the trace. *)
Lemma run_extends {A : Type} (m : M A) (w : world) :
  exists l, trace (run m w).2 = trace w ++ l.
Proof.
  revert w. induction m as [a|msg|c k IH]; intros w; cbn.
  - exists []. now rewrite app_nil_r.
  - exists []. now rewrite app_nil_r.
  - destruct (exec c (engine w)) as [e st].
    destruct (IH e (MkWorld (trace w ++ [(c, e)]) st)) as [l Hl].
    exists ((c, e) :: l). rewrite Hl. cbn. now rewrite <- app_assoc.
Qed.

(** The calls of a run of a steady program are a prefix of its script, and
    the whole script when the run returns no error; a run that returns no
    error is one of a program that can do so. *)
Lemma run_steady {A : Type} (m : M A) (w : world) :
  steady m ->
  exists l,
    trace (run m w).2 = trace w ++ l
    /\ map fst l `prefix_of` script m
    /\ (is_Ok (run m w).1 = true ->
        map fst l = script m /\ is_Ok (outcome m) = true).
Proof.
  intros H. revert w.
  induction H as [a|msg|c k Hk IH Hf|c k Hk IH Hs Ho]; intros w; cbn.
  - exists []. rewrite app_nil_r. auto.
  - exists []. rewrite app_nil_r. repeat split; auto; discriminate.
  - destruct (exec c (engine w)) as [[e|] st].
    + destruct (Hf e) as [msg ->]. cbn. exists [(c, Some e)].
      split; [reflexivity|]. split; [|discriminate].
      now exists (script (k None)).
    + destruct (IH (MkWorld (trace w ++ [(c, None)]) st)) as (l & Hl & Hp & Hok).
      exists ((c, None) :: l). rewrite Hl. cbn. rewrite <- app_assoc.
      split; [reflexivity|]. split.
      * now apply prefix_cons.
      * intros H. destruct (Hok H) as [-> ?]. auto.
  - destruct (exec c (engine w)) as [e st].
    destruct (IH e (MkWorld (trace w ++ [(c, e)]) st)) as (l & Hl & Hp & Hok).
    exists ((c, e) :: l). rewrite Hl. cbn. rewrite <- app_assoc.
    split; [reflexivity|]. rewrite <- (Hs e), <- (Ho e). split.
    + now apply prefix_cons.
    + intros H. destruct (Hok H) as [-> ?]. auto.
Qed.

(** An unfailing program makes all the calls of its script and returns no
    error, whatever the engine answers. *)
Lemma run_unfailing {A : Type} (m : M A) (w : world) :
  unfailing m ->
  exists l,
    trace (run m w).2 = trace w ++ l
    /\ map fst l = script m
    /\ is_Ok (run m w).1 = true.
Proof.
  intros H. revert w.
  induction H as [a|c k Hk IH Hs]; intros w; cbn.
  - exists []. now rewrite app_nil_r.
  - destruct (exec c (engine w)) as [e st].
    destruct (IH e (MkWorld (trace w ++ [(c, e)]) st)) as (l & Hl & Hm & Hok).
    exists ((c, e) :: l). rewrite Hl, <- (Hs e). cbn. rewrite <- app_assoc.
    rewrite Hm. auto.
Qed.

(** A strict program returns no error only when every call was accepted. *)
Lemma run_strict {A : Type} (m : M A) (w : world) :
  strict m ->
  is_Ok (run m w).1 = true ->
  exists l,
    trace (run m w).2 = trace w ++ l /\ Forall (fun ce => ce.2 = None) l.
Proof.
  intros H. revert w.
  induction H as [a|msg|c k Hk IH Hf]; intros w; cbn.
  - exists []. now rewrite app_nil_r.
  - discriminate.
  - destruct (exec c (engine w)) as [[e|] st].
    + destruct (Hf e) as [msg ->]. discriminate.
    + intros Hok.
      destruct (IH (MkWorld (trace w ++ [(c, None)]) st) Hok) as (l & Hl & Hall).
      exists ((c, None) :: l). rewrite Hl. cbn. rewrite <- app_assoc.
      split; [reflexivity|]. constructor; auto.
Qed.

Lemma run_bind {A B : Type} (m : M A) (k : A -> M B) (w : world) :
  run (bind m k) w
  = match run m w with
    | (Ok a, w') => run (k a) w'
    | (Err msg, w') => (Err msg, w')
    end.
Proof.
  revert w. induction m as [a|msg|c k' IH]; intros w; cbn; auto.
  destruct (exec c (engine w)) as [e st]. apply IH.
Qed.

Lemma run_wrapf {A : Type} (m : M A) (f : string -> string) (w : world) :
  run (wrapf m f) w
  = match run m w with
    | (Ok a, w') => (Ok a, w')
    | (Err msg, w') => (Err (f msg), w')
    end.
Proof.
  revert w. induction m as [a|msg|c k IH]; intros w; cbn; auto.
  destruct (exec c (engine w)) as [e st]. apply IH.
Qed.

Lemma run_try {A : Type} (m : M A) (w : world) :
  run (try m) w
  = match run m w with
    | (Ok _, w') => (Ok None, w')
    | (Err msg, w') => (Ok (Some msg), w')
    end.
Proof.
  revert w. induction m as [a|msg|c k IH]; intros w; cbn; auto.
  destruct (exec c (engine w)) as [e st]. apply IH.
Qed.

(** When every call of a run was accepted, the run has made the calls of the
    script and returned the outcome. *)
Lemma run_accepted {A : Type} (m : M A) (w : world) (l : list (call * error)) :
  trace (run m w).2 = trace w ++ l ->
  Forall (fun ce => ce.2 = None) l ->
  map fst l = script m /\ (run m w).1 = outcome m.
Proof.
  revert w l. induction m as [a|msg|c k IH]; intros w l Hl Hall; cbn in *.
  - rewrite <- (app_nil_r (trace w)) in Hl at 1.
    apply app_inv_head in Hl. now subst l.
  - rewrite <- (app_nil_r (trace w)) in Hl at 1.
    apply app_inv_head in Hl. now subst l.
  - destruct (exec c (engine w)) as [e st].
    destruct (run_extends (k e) (MkWorld (trace w ++ [(c, e)]) st)) as [l' Hl'].
    rewrite Hl' in Hl. cbn [trace] in Hl. rewrite <- app_assoc in Hl.
    apply app_inv_head in Hl. cbn in Hl. subst l.
    apply Forall_cons in Hall as [He Hall]. cbn in He. subst e.
    destruct (IH None _ l' Hl' Hall) as [Hs Ho]. cbn. now rewrite Hs.
Qed.

(** *** Programs in two phases

    A program that first builds with strict steps and then tears down: the
    calls of a run split in a part of the build script and a part of the
    tear-down script; the second part is empty unless the whole build script
    was run and every call of it accepted. *)
Lemma run_teardown {B : Type} (q : M B) (T : list call) (w : world) :
  steady q ->
  script q = T ->
  exists t1 t2,
    trace (run q w).2 = trace w ++ t1 ++ t2
    /\ map fst t1 `prefix_of` []
    /\ map fst t2 `prefix_of` T
    /\ (t2 <> [] \/ is_Ok (run q w).1 = true ->
        map fst t1 = [] /\ Forall (fun ce => ce.2 = None) t1)
    /\ (is_Ok (run q w).1 = true -> map fst t2 = T).
Proof.
  intros Hq <-. destruct (run_steady q w Hq) as (l & Hl & Hp & Hok).
  exists [], l. cbn [List.app map]. repeat split; auto.
  intros H. apply Hok, H.
Qed.

Lemma run_build_step {B : Type} (a : M unit) (rest : M B) (Sa S T : list call)
    (w : world) :
  steady a -> strict a ->
  script a `prefix_of` Sa ->
  (is_Ok (outcome a) = true -> script a = Sa) ->
  (forall w',
      exists t1 t2,
        trace (run rest w').2 = trace w' ++ t1 ++ t2
        /\ map fst t1 `prefix_of` S
        /\ map fst t2 `prefix_of` T
        /\ (t2 <> [] \/ is_Ok (run rest w').1 = true ->
            map fst t1 = S /\ Forall (fun ce => ce.2 = None) t1)
        /\ (is_Ok (run rest w').1 = true -> map fst t2 = T)) ->
  exists t1 t2,
    trace (run (bind a (fun _ => rest)) w).2 = trace w ++ t1 ++ t2
    /\ map fst t1 `prefix_of` Sa ++ S
    /\ map fst t2 `prefix_of` T
    /\ (t2 <> [] \/ is_Ok (run (bind a (fun _ => rest)) w).1 = true ->
        map fst t1 = Sa ++ S /\ Forall (fun ce => ce.2 = None) t1)
    /\ (is_Ok (run (bind a (fun _ => rest)) w).1 = true -> map fst t2 = T).
Proof.
  intros Ha Hstrict Hpre Hfull Hrest. rewrite run_bind.
  destruct (run_steady a w Ha) as (l & Hl & Hp & Hok).
  pose proof (run_strict a w Hstrict) as Hacc.
  destruct (run a w) as [[[]|msg] w1]; cbn [fst snd is_Ok] in *.
  - destruct (Hok eq_refl) as [Hs Ho]. destruct (Hacc eq_refl) as (l' & Hl' & Hall).
    rewrite Hl in Hl'. apply app_inv_head in Hl'. subst l'.
    destruct (Hrest w1) as (t1 & t2 & Ht & Hp1 & Hp2 & Hb & Hd).
    exists (l ++ t1), t2. rewrite Ht, Hl, map_app, Hs, (Hfull Ho), <- !app_assoc.
    split; [reflexivity|]. split; [now apply prefix_app|].
    split; [exact Hp2|]. split; [|exact Hd].
    intros H. destruct (Hb H) as [-> Hall1]. split; [reflexivity|].
    now apply Forall_app_2.
  - exists l, []. rewrite app_nil_r. split; [exact Hl|].
    split; [etrans; [exact Hp|]; now apply prefix_app_r|].
    split; [apply prefix_nil|].
    split; [intros [H|H]; [now contradiction H|discriminate]|discriminate].
Qed.

End Runs.

End ProgramFacts.

(** ** The functions of the controller are steady *)

Module ControllerFacts.

Import constants policy iptablesctrl Programs ProgramFacts Scripts.

Ltac steady_step :=
  first
    [ apply steady_Ret
    | apply steady_Fail
    | apply steady_do_call
    | apply steady_wrapf
    | apply steady_seq
    | apply unfailing_steady, unfailing_try_call
    | progress unfold ret, fail, when, nil_dereference, index_out_of_range
    | match goal with
      | |- steady (if ?b then _ else _) => destruct b
      | |- steady (match ?x with _ => _ end) => destruct x
      end ].

Ltac steady_tac := repeat steady_step.

Section Facts.

Context `{LP : LogPrefixes}.

Lemma steady_addContainerChain i appChain netChain :
  steady (addContainerChain i appChain netChain).
Proof. unfold addContainerChain. steady_tac. Qed.

Lemma script_addContainerChain i appChain netChain :
  script (addContainerChain i appChain netChain) = new_chains i appChain netChain
  /\ is_Ok (outcome (addContainerChain i appChain netChain)) = true.
Proof.
  unfold addContainerChain, new_chains, when.
  destruct (ModeType_eqb (mode i) LocalContainer); cbn; auto.
Qed.

Lemma steady_process_Append i rules :
  steady (processRulesFromList i rules "Append").
Proof.
  unfold processRulesFromList. apply steady_for_each. intros cr.
  change (String.eqb "Append" "Append") with true. cbv iota.
  steady_tac.
Qed.

Lemma script_process_Append i rules :
  readable rules ->
  script (processRulesFromList i rules "Append") = appended rules
  /\ is_Ok (outcome (processRulesFromList i rules "Append")) = true.
Proof.
  unfold processRulesFromList, appended.
  change (String.eqb "Append" "Append") with true. cbv iota.
  induction 1 as [|cr rules Hcr Hall IH]; [now cbn|].
  cbn [for_each map]. rewrite Hcr.
  rewrite script_seq, outcome_seq by reflexivity.
  rewrite script_wrapf. cbn [script do_call List.app]. destruct IH as [-> ->].
  auto.
Qed.

Lemma unfailing_process_Delete i rules :
  readable rules ->
  unfailing (processRulesFromList i rules "Delete").
Proof.
  unfold processRulesFromList.
  change (String.eqb "Delete" "Append") with false.
  change (String.eqb "Delete" "Insert") with false.
  change (String.eqb "Delete" "Delete") with true. cbv iota.
  induction 1 as [|cr rules Hcr Hall IH]; [constructor|].
  cbn [for_each]. rewrite Hcr.
  apply unfailing_bind; [|intros _; exact IH|reflexivity].
  cbn. constructor.
  - intros [e|]; constructor.
  - now intros [e|].
Qed.

Lemma script_process_Delete i rules :
  readable rules ->
  script (processRulesFromList i rules "Delete") = deleted rules.
Proof.
  unfold processRulesFromList, deleted.
  change (String.eqb "Delete" "Append") with false.
  change (String.eqb "Delete" "Insert") with false.
  change (String.eqb "Delete" "Delete") with true. cbv iota.
  induction 1 as [|cr rules Hcr Hall IH]; [now cbn|].
  cbn [for_each map]. rewrite Hcr.
  rewrite script_seq by reflexivity. cbn [script bind try do_call ret List.app].
  f_equal. exact IH.
Qed.

(** The rule tables of the package are readable. *)
Lemma readable_cgroupChainRules i app net mark port uid pp ppsn :
  readable (cgroupChainRules i app net mark port uid pp ppsn).
Proof. unfold cgroupChainRules, getSetNamePair. repeat constructor. Qed.

Lemma readable_uidChainRules i psn app net mark port uid pp ppsn :
  readable (uidChainRules i psn app net mark port uid pp ppsn).
Proof. unfold uidChainRules. repeat constructor. Qed.

Lemma readable_chainRules i app net ip port pp ppsn :
  readable (chainRules i app net ip port pp ppsn).
Proof.
  unfold chainRules, getSetNamePair.
  destruct (ModeType_eqb (mode i) LocalContainer); repeat constructor.
Qed.

Lemma readable_trapRules i app net : readable (trapRules i app net).
Proof.
  unfold trapRules.
  destruct (ModeType_eqb (mode i) LocalContainer); repeat constructor.
Qed.

Lemma readable_steering_added i psn app net ip port mark uid pp ppsn :
  readable (steering_added i psn app net ip port mark uid pp ppsn).
Proof.
  unfold steering_added.
  repeat match goal with
         | |- context [if ?b then _ else _] => destruct b
         end;
    auto using readable_cgroupChainRules, readable_uidChainRules,
      readable_chainRules.
Qed.

Lemma readable_steering_deleted i psn app net ip port mark uid pp ppsn :
  readable (steering_deleted i psn app net ip port mark uid pp ppsn).
Proof.
  unfold steering_deleted.
  repeat match goal with
         | |- context [if ?b then _ else _] => destruct b
         end;
    auto using readable_cgroupChainRules, readable_uidChainRules,
      readable_chainRules.
Qed.

Lemma steady_addChainRules i psn app net ip port mark uid pp ppsn :
  steady (addChainRules i psn app net ip port mark uid pp ppsn).
Proof.
  unfold addChainRules.
  repeat match goal with
         | |- steady (if ?b then _ else _) => destruct b
         end; apply steady_process_Append.
Qed.

Lemma script_addChainRules i psn app net ip port mark uid pp ppsn :
  script (addChainRules i psn app net ip port mark uid pp ppsn)
  = appended (steering_added i psn app net ip port mark uid pp ppsn)
  /\ is_Ok (outcome (addChainRules i psn app net ip port mark uid pp ppsn)) = true.
Proof.
  unfold addChainRules, steering_added.
  repeat match goal with
         | |- context [if ?b then _ else _] => destruct b
         end;
    apply script_process_Append;
    auto using readable_cgroupChainRules, readable_uidChainRules,
      readable_chainRules.
Qed.

Lemma steady_addPacketTrap i app net ip networks :
  steady (addPacketTrap i app net ip networks).
Proof. apply steady_process_Append. Qed.

Lemma script_addPacketTrap i app net ip networks :
  script (addPacketTrap i app net ip networks) = appended (trapRules i app net)
  /\ is_Ok (outcome (addPacketTrap i app net ip networks)) = true.
Proof. apply script_process_Append, readable_trapRules. Qed.

Lemma unfailing_deleteChainRules i psn app net ip port mark uid pp ppsn :
  unfailing (deleteChainRules i psn app net ip port mark uid pp ppsn).
Proof.
  unfold deleteChainRules.
  repeat match goal with
         | |- unfailing (if ?b then _ else _) => destruct b
         end;
    apply unfailing_process_Delete;
    auto using readable_cgroupChainRules, readable_uidChainRules,
      readable_chainRules.
Qed.

Lemma script_deleteChainRules i psn app net ip port mark uid pp ppsn :
  script (deleteChainRules i psn app net ip port mark uid pp ppsn)
  = deleted (steering_deleted i psn app net ip port mark uid pp ppsn).
Proof.
  unfold deleteChainRules, steering_deleted.
  repeat match goal with
         | |- context [if ?b then _ else _] => destruct b
         end;
    apply script_process_Delete;
    auto using readable_cgroupChainRules, readable_uidChainRules,
      readable_chainRules.
Qed.

Lemma unfailing_deleteAllContainerChains i app net :
  unfailing (deleteAllContainerChains i app net).
Proof.
  unfold deleteAllContainerChains.
  repeat (apply unfailing_bind;
          [apply unfailing_try_call | intros _ | reflexivity]).
  constructor.
Qed.

Lemma script_deleteAllContainerChains i app net :
  script (deleteAllContainerChains i app net) = chains_removed i app net.
Proof. reflexivity. Qed.

Lemma steady_addExclusionACLs i app net ip excluded :
  steady (addExclusionACLs i app net ip excluded).
Proof.
  unfold addExclusionACLs. apply steady_for_each. intros e. steady_tac.
Qed.

Lemma script_addExclusionACLs i app net ip excluded :
  script (addExclusionACLs i app net ip excluded)
  = exclusions i app net ip excluded
  /\ is_Ok (outcome (addExclusionACLs i app net ip excluded)) = true.
Proof.
  unfold addExclusionACLs, exclusions. apply script_for_each. now intros e.
Qed.

Lemma steady_addAppACL i contextID chain loop rule :
  steady (addAppACL i contextID chain loop rule).
Proof. unfold addAppACL. steady_tac. Qed.

Lemma steady_addNetACL i contextID chain loop rule :
  steady (addNetACL i contextID chain loop rule).
Proof. unfold addNetACL. steady_tac. Qed.

Lemma outcome_addAppACL i contextID chain loop rule :
  is_Ok (outcome (addAppACL i contextID chain loop rule)) = true.
Proof.
  unfold addAppACL, when.
  repeat match goal with
         | |- context [if ?b then _ else _] => destruct b
         | |- context [match accept_or_reject ?a with _ => _ end] =>
             destruct (accept_or_reject a)
         end; reflexivity.
Qed.

Lemma outcome_addNetACL i contextID chain loop rule :
  is_Ok (outcome (addNetACL i contextID chain loop rule)) = true.
Proof.
  unfold addNetACL, when.
  repeat match goal with
         | |- context [if ?b then _ else _] => destruct b
         | |- context [match accept_or_reject ?a with _ => _ end] =>
             destruct (accept_or_reject a)
         end; reflexivity.
Qed.

Lemma steady_appACL_tail i contextID chain : steady (appACL_tail i contextID chain).
Proof. unfold appACL_tail. steady_tac. Qed.

Lemma steady_netACL_tail i contextID chain : steady (netACL_tail i contextID chain).
Proof. unfold netACL_tail. steady_tac. Qed.

Lemma steady_addAppACLs i contextID chain ip rules :
  steady (addAppACLs i contextID chain ip rules).
Proof.
  unfold addAppACLs. apply steady_seq; [|apply steady_appACL_tail].
  apply steady_for_each. intros loop. apply steady_for_each. intros rule.
  apply steady_addAppACL.
Qed.

Lemma steady_addNetACLs i contextID chain ip rules :
  steady (addNetACLs i contextID chain ip rules).
Proof.
  unfold addNetACLs. apply steady_seq; [|apply steady_netACL_tail].
  apply steady_for_each. intros loop. apply steady_for_each. intros rule.
  apply steady_addNetACL.
Qed.

(** The script of a renderer: the three passes over the rules, each the
    calls of its rules in order, then the tail. *)
Lemma script_addAppACLs i contextID chain ip rules :
  script (addAppACLs i contextID chain ip rules)
  = flat_map (fun loop =>
                flat_map (fun rule => script (addAppACL i contextID chain loop rule))
                  rules) [0; 1; 2]
    ++ script (appACL_tail i contextID chain)
  /\ is_Ok (outcome (addAppACLs i contextID chain ip rules)) = true.
Proof.
  unfold addAppACLs.
  assert (H : forall loop,
             script (for_each rules (addAppACL i contextID chain loop))
             = flat_map (fun rule => script (addAppACL i contextID chain loop rule)) rules
             /\ is_Ok (outcome (for_each rules (addAppACL i contextID chain loop))) = true).
  { intros loop. apply script_for_each. intros rule. apply outcome_addAppACL. }
  destruct (script_for_each [0; 1; 2]
              (fun loop => for_each rules (addAppACL i contextID chain loop))
              (fun loop => proj2 (H loop))) as [Hs Ho].
  rewrite script_seq, outcome_seq, Hs by exact Ho. split; [|reflexivity].
  f_equal. cbn [flat_map]. now rewrite !(proj1 (H _)).
Qed.

Lemma script_addNetACLs i contextID chain ip rules :
  script (addNetACLs i contextID chain ip rules)
  = flat_map (fun loop =>
                flat_map (fun rule => script (addNetACL i contextID chain loop rule))
                  rules) [0; 1; 2]
    ++ script (netACL_tail i contextID chain)
  /\ is_Ok (outcome (addNetACLs i contextID chain ip rules)) = true.
Proof.
  unfold addNetACLs.
  assert (H : forall loop,
             script (for_each rules (addNetACL i contextID chain loop))
             = flat_map (fun rule => script (addNetACL i contextID chain loop rule)) rules
             /\ is_Ok (outcome (for_each rules (addNetACL i contextID chain loop))) = true).
  { intros loop. apply script_for_each. intros rule. apply outcome_addNetACL. }
  destruct (script_for_each [0; 1; 2]
              (fun loop => for_each rules (addNetACL i contextID chain loop))
              (fun loop => proj2 (H loop))) as [Hs Ho].
  rewrite script_seq, outcome_seq, Hs by exact Ho. split; [|reflexivity].
  f_equal. cbn [flat_map]. now rewrite !(proj1 (H _)).
Qed.

Create HintDb steady_db.

#[local] Hint Resolve steady_addContainerChain steady_addChainRules
  steady_addPacketTrap steady_addExclusionACLs steady_addAppACLs
  steady_addNetACLs steady_do_call : steady_db.
#[local] Hint Extern 1 (steady (try _)) =>
  apply unfailing_steady, unfailing_try : steady_db.
#[local] Hint Resolve unfailing_deleteChainRules unfailing_deleteAllContainerChains
  unfailing_steady : steady_db.

Ltac steady_all :=
  repeat first [ solve [auto with steady_db] | steady_step ].

Lemma steady_ConfigureRules i version contextID containerInfo :
  steady (ConfigureRules i version contextID containerInfo).
Proof. unfold ConfigureRules. steady_all. Qed.

Lemma steady_UpdateRules i version contextID containerInfo oldContainerInfo :
  steady (UpdateRules i version contextID containerInfo oldContainerInfo).
Proof. unfold UpdateRules. steady_all. Qed.

Lemma steady_DeleteRules i version contextID ipAddresses port mark uid
    proxyPort proxyPortSetName :
  steady (DeleteRules i version contextID ipAddresses port mark uid proxyPort
            proxyPortSetName).
Proof.
  unfold DeleteRules.
  destruct (negb (ModeType_eqb (mode i) LocalServer));
    [destruct ipAddresses as [g|];
     [destruct (defaultIP i (Some g)) as [ip [|]]|]|];
    cbn [bind negb fail ret]; steady_all.
Qed.

Ltac seq_scripts :=
  repeat first
    [ rewrite script_seq by
        first [ apply script_addContainerChain | apply script_addPacketTrap
              | apply script_addAppACLs | apply script_addNetACLs
              | apply script_addExclusionACLs | apply script_addChainRules
              | apply unfailing_outcome, unfailing_deleteChainRules
              | reflexivity ]
    | rewrite outcome_seq in * by
        first [ apply script_addContainerChain | apply script_addPacketTrap
              | apply script_addAppACLs | apply script_addNetACLs
              | apply script_addExclusionACLs | apply script_addChainRules
              | apply unfailing_outcome, unfailing_deleteChainRules
              | reflexivity ] ].


(** *** What the calls of a phase are *)

Ltac split_conditions :=
  repeat match goal with
         | |- context [if ?b then _ else _] => destruct b
         | |- context [match accept_or_reject ?a with _ => _ end] =>
             destruct (accept_or_reject a)
         end.

Lemma addAppACL_builds i contextID chain loop rule :
  Forall (builds [chain]) (script (addAppACL i contextID chain loop rule)).
Proof.
  unfold addAppACL, when. split_conditions; cbn; repeat constructor.
Qed.

Lemma addNetACL_builds i contextID chain loop rule :
  Forall (builds [chain]) (script (addNetACL i contextID chain loop rule)).
Proof.
  unfold addNetACL, when. split_conditions; cbn; repeat constructor.
Qed.

Lemma builds_more chains chains' c :
  (forall ch, ch ∈ chains -> ch ∈ chains') -> builds chains c -> builds chains' c.
Proof. intros H. destruct c; cbn; auto. Qed.

Lemma Forall_flat_map {A B : Type} (P : B -> Prop) (f : A -> list B) (l : list A) :
  (forall x, Forall P (f x)) -> Forall P (flat_map f l).
Proof.
  intros H. induction l as [|x l IH]; cbn; [constructor|].
  apply Forall_app. auto.
Qed.

Lemma rendered_builds i contextID appChain netChain ip pol :
  Forall (builds [appChain; netChain])
    (rendered i contextID appChain netChain ip pol).
Proof.
  unfold rendered.
  apply Forall_app_2; [|apply Forall_app_2; [|apply Forall_app_2;
    [|apply Forall_app_2]]].
  - unfold new_chains. destruct (ModeType_eqb (mode i) LocalContainer); cbn;
      repeat constructor.
  - unfold appended, trapRules.
    destruct (ModeType_eqb (mode i) LocalContainer); cbn; repeat constructor.
  - rewrite (proj1 (script_addAppACLs _ _ _ _ _)). apply Forall_app_2.
    + apply Forall_flat_map. intros loop. apply Forall_flat_map. intros rule.
      eapply Forall_impl; [apply addAppACL_builds|].
      intros c. apply builds_more. intros ch Hch.
      apply list_elem_of_singleton in Hch as ->. constructor.
    + cbn. repeat constructor.
  - rewrite (proj1 (script_addNetACLs _ _ _ _ _)). apply Forall_app_2.
    + apply Forall_flat_map. intros loop. apply Forall_flat_map. intros rule.
      eapply Forall_impl; [apply addNetACL_builds|].
      intros c. apply builds_more. intros ch Hch.
      apply list_elem_of_singleton in Hch as ->. repeat constructor.
    + cbn. repeat constructor.
  - unfold exclusions. apply Forall_flat_map. intros e. repeat constructor.
Qed.






(** *** Strictness of the installing functions *)

Ltac strict_step :=
  first
    [ apply strict_Ret
    | apply strict_Fail
    | apply strict_do_call
    | apply strict_wrapf
    | apply strict_bind; [|intros ?]
    | apply strict_for_each; intros ?
    | progress unfold ret, fail, when, nil_dereference, index_out_of_range
    | match goal with
      | |- strict (if ?b then _ else _) => destruct b
      | |- strict (match ?x with _ => _ end) => destruct x
      end ].

Ltac strict_tac := repeat strict_step.

Lemma strict_process_Append i rules :
  strict (processRulesFromList i rules "Append").
Proof.
  unfold processRulesFromList. apply strict_for_each. intros cr.
  change (String.eqb "Append" "Append") with true. cbv iota. strict_tac.
Qed.

Lemma strict_addChainRules i psn app net ip port mark uid pp ppsn :
  strict (addChainRules i psn app net ip port mark uid pp ppsn).
Proof.
  unfold addChainRules.
  repeat match goal with
         | |- strict (if ?b then _ else _) => destruct b
         end; apply strict_process_Append.
Qed.

Lemma strict_addAppACLs i contextID chain ip rules :
  strict (addAppACLs i contextID chain ip rules).
Proof.
  unfold addAppACLs, appACL_tail, addAppACL. strict_tac.
Qed.

Lemma strict_addNetACLs i contextID chain ip rules :
  strict (addNetACLs i contextID chain ip rules).
Proof.
  unfold addNetACLs, netACL_tail, addNetACL. strict_tac.
Qed.

Lemma strict_ConfigureRules i version contextID containerInfo :
  strict (ConfigureRules i version contextID containerInfo).
Proof.
  unfold ConfigureRules.
  repeat first
    [ apply strict_addChainRules
    | apply strict_addAppACLs
    | apply strict_addNetACLs
    | apply strict_process_Append
    | progress unfold addContainerChain, addPacketTrap, addExclusionACLs
    | strict_step ].
Qed.

(** *** The script of a first installation *)

Lemma script_ConfigureRules_prefix i version contextID cid pol rt :
  script (ConfigureRules i version contextID
            (MkPUInfo cid (Some pol) (Some rt)))
  `prefix_of` configure_script i version contextID pol rt
  /\ (is_Ok (outcome (ConfigureRules i version contextID
                        (MkPUInfo cid (Some pol) (Some rt)))) = true ->
      script (ConfigureRules i version contextID
                (MkPUInfo cid (Some pol) (Some rt)))
      = configure_script i version contextID pol rt).
Proof.
  unfold ConfigureRules, configure_script, steering, proxy_set_name.
  cbn [PUPolicy_of Runtime].
  destruct (defaultIP i (Some (IPAddresses pol))) as [ip ok].
  destruct (chainName contextID version) as [app net]. cbn [fst snd].
  destruct ok; cbn [negb]; [|split; [apply prefix_nil|discriminate]].
  pose proof (script_addContainerChain i app net) as [Hs Ho].
  destruct (ModeType_eqb (mode i) LocalServer) eqn:Hm; cbn [negb andb].
  - destruct (String.eqb (CgroupMark (Options rt)) "") eqn:Hmark.
    + rewrite !script_bind, !outcome_bind, Hs.
      destruct (outcome (addContainerChain i app net)); [|discriminate].
      cbn [script outcome fail is_Ok]. rewrite app_nil_r.
      split; [now apply prefix_app_r|discriminate].
    + destruct (String.eqb (UserID (Options rt)) "") eqn:Huid; cbn [negb].
      * seq_scripts.
        rewrite Hs, (proj1 (script_addPacketTrap _ _ _ _ _)),
          (proj1 (script_addExclusionACLs _ _ _ _ _)),
          (proj1 (script_addChainRules _ _ _ _ _ _ _ _ _ _)), script_wrapf.
        cbn [script do_call ret List.app].
        rewrite <- ?app_assoc. cbn [List.app]. split; [reflexivity|auto].
      * destruct (portSetInstance i) eqn:Hps; cbn [negb].
        -- seq_scripts.
           rewrite Hs, (proj1 (script_addPacketTrap _ _ _ _ _)),
             (proj1 (script_addExclusionACLs _ _ _ _ _)),
             (proj1 (script_addChainRules _ _ _ _ _ _ _ _ _ _)), script_wrapf.
           cbn [script do_call ret List.app].
           rewrite <- ?app_assoc. cbn [List.app]. split; [reflexivity|auto].
        -- rewrite !script_bind, !outcome_bind, Hs.
           destruct (outcome (addContainerChain i app net)); [|discriminate].
           cbn [script outcome do_call fail ret bind is_Ok List.app].
           split; [|discriminate].
           apply prefix_app. eexists. cbn [List.app]. reflexivity.
  - seq_scripts.
    rewrite Hs, (proj1 (script_addPacketTrap _ _ _ _ _)),
      (proj1 (script_addExclusionACLs _ _ _ _ _)),
      (proj1 (script_addChainRules _ _ _ _ _ _ _ _ _ _)), script_wrapf.
    cbn [script do_call ret List.app].
    rewrite <- ?app_assoc. cbn [List.app]. split; [reflexivity|auto].
Qed.

Lemma strict_addContainerChain i appChain netChain :
  strict (addContainerChain i appChain netChain).
Proof. unfold addContainerChain. strict_tac. Qed.

Lemma strict_addPacketTrap i app net ip networks :
  strict (addPacketTrap i app net ip networks).
Proof. apply strict_process_Append. Qed.

Lemma strict_addExclusionACLs i app net ip excluded :
  strict (addExclusionACLs i app net ip excluded).
Proof. unfold addExclusionACLs. strict_tac. Qed.

(** *** Installations on a host without a mark *)

Lemma script_ConfigureRules_no_mark i version contextID cid pol rt :
  mode i = LocalServer ->
  CgroupMark (Options rt) = "" ->
  let m := ConfigureRules i version contextID
             (MkPUInfo cid (Some pol) (Some rt)) in
  script m = new_chains i (chainName contextID version).1
               (chainName contextID version).2
  /\ outcome m = Err "no mark value found".
Proof.
  intros Hm Hmark. unfold ConfigureRules, defaultIP. cbn [PUPolicy_of Runtime].
  rewrite Hm, Hmark.
  destruct (chainName contextID version) as [app net]. cbn [fst snd].
  pose proof (script_addContainerChain i app net) as [Hs Ho].
  cbn [ModeType_eqb negb String.eqb Ascii.eqb].
  destruct (map_get (Some (IPAddresses pol)) DefaultNamespace) as [ip|];
    [destruct (0 <? Go.len ip)|]; cbn [negb];
    rewrite script_bind, outcome_bind, Hs;
    (destruct (outcome (addContainerChain i app net)); [|discriminate]);
    cbn; now rewrite app_nil_r.
Qed.

Lemma script_UpdateRules_no_mark i version contextID cid pol rt old :
  mode i = LocalServer ->
  CgroupMark (Options rt) = "" ->
  let m := UpdateRules i version contextID
             (Some (MkPUInfo cid (Some pol) (Some rt))) old in
  script m = rendered i contextID (chainName contextID version).1
               (chainName contextID version).2
               (defaultIP i (Some (IPAddresses pol))).1 pol
  /\ outcome m = Err "no mark value found".
Proof.
  intros Hm Hmark. unfold UpdateRules, rendered. cbn [PUPolicy_of Runtime].
  assert (Hok : (defaultIP i (Some (IPAddresses pol))).2 = true).
  { unfold defaultIP. rewrite Hm.
    destruct (map_get _ _) as [ip|]; [destruct (0 <? Go.len ip)|]; reflexivity. }
  destruct (defaultIP i (Some (IPAddresses pol))) as [ip ok].
  cbn [fst snd] in *. subst ok. cbn [negb].
  destruct (chainName contextID version) as [app net].
  destruct (chainName contextID (Z.lxor version 1)) as [oapp onet].
  cbn [fst snd]. rewrite Hm, Hmark.
  cbn [ModeType_eqb negb String.eqb Ascii.eqb].
  split.
  - rewrite !script_bind.
    rewrite (proj1 (script_addContainerChain _ _ _)),
      (proj1 (script_addPacketTrap _ _ _ _ _)),
      (proj1 (script_addExclusionACLs _ _ _ _ _)).
    pose proof (proj2 (script_addContainerChain i app net)).
    pose proof (proj2 (script_addPacketTrap i app net ip (TriremeNetworks pol))).
    pose proof (proj2 (script_addAppACLs i contextID app ip (ApplicationACLs pol))).
    pose proof (proj2 (script_addNetACLs i contextID net ip (NetworkACLs pol))).
    pose proof (proj2 (script_addExclusionACLs i app net ip (ExcludedNetworks pol))).
    repeat match goal with
           | H : is_Ok (outcome ?m) = true |- _ =>
               destruct (outcome m); [clear H|discriminate H]
           end.
    cbn [script fail outcome]. now rewrite !app_nil_r.
  - rewrite !outcome_bind.
    pose proof (proj2 (script_addContainerChain i app net)).
    pose proof (proj2 (script_addPacketTrap i app net ip (TriremeNetworks pol))).
    pose proof (proj2 (script_addAppACLs i contextID app ip (ApplicationACLs pol))).
    pose proof (proj2 (script_addNetACLs i contextID net ip (NetworkACLs pol))).
    pose proof (proj2 (script_addExclusionACLs i app net ip (ExcludedNetworks pol))).
    repeat match goal with
           | H : is_Ok (outcome ?m) = true |- _ =>
               destruct (outcome m); [clear H|discriminate H]
           end.
    reflexivity.
Qed.

End Facts.

End ControllerFacts.

(** ** The supervisor *)

Module SupervisorFacts.

Import constants policy supervisor Runs.

Section Recorded.

Variable answer : impl_call -> list impl_call -> error.

Local Existing Instance Recorder.

Abbreviation Sup := (Supervise (I := Recorder answer)).
Abbreviation Unsup := (Unsupervise (I := Recorder answer)).

(** [Unsupervise] on a tracked contextID: one [DeleteRules] call with the
    fields of the entry, the entry removed, no error. *)
Lemma Unsupervise_tracked s contextID cfg rt w :
  versionTracker s !! contextID = Some cfg ->
  Runtime (containerInfo cfg) = Some rt ->
  Unsup s contextID w
  = (None, set_versionTracker s (delete contextID (versionTracker s)),
     w ++ [rollback_call contextID cfg rt]).
Proof.
  intros Hc Hr. unfold Unsupervise, cache.Get, cache.Remove.
  rewrite Hc, Hr. reflexivity.
Qed.

Lemma Unsupervise_untracked s contextID w :
  versionTracker s !! contextID = None ->
  Unsup s contextID w
  = (Some ("cannot find policy version: " +:+ cache.ErrNotFound), s, w).
Proof.
  intros Hc. unfold Unsupervise, cache.Get. now rewrite Hc.
Qed.

(** A first call: [ConfigureRules] at version 0; on its error the rollback
    follows and the contextID is forgotten. *)
Lemma Supervise_create s contextID pu pol rt w :
  versionTracker s !! contextID = None ->
  PUPolicy_of pu = Some pol -> Runtime pu = Some rt ->
  let c := CallConfigureRules 0 contextID pu in
  let cfg := created_entry pu pol rt in
  Sup s contextID (Some pu) w
  = match answer c w with
    | None =>
        (None, set_versionTracker s (<[contextID := cfg]> (versionTracker s)),
         w ++ [c])
    | Some err =>
        (Some err,
         set_versionTracker s
           (delete contextID (<[contextID := cfg]> (versionTracker s))),
         (w ++ [c]) ++ [rollback_call contextID cfg rt])
    end.
Proof.
  intros Hc Hp Hr c cfg.
  unfold Supervise, doCreatePU, cache.Get, cache.AddOrUpdate.
  rewrite Hp, Hr, Hc. cbn [ConfigureRules Recorder record_call version].
  fold c. fold cfg. destruct (answer c w) as [err|]; [|reflexivity].
  rewrite (Unsupervise_tracked _ contextID cfg rt).
  - reflexivity.
  - cbn. apply lookup_insert_eq.
  - exact Hr.
Qed.

(** A call on a tracked contextID: [UpdateRules] at the flipped version, with
    the PU of the creation as the old one; on its error the rollback follows
    and the contextID is forgotten. *)
Lemma Supervise_update s contextID cfg pu pol rt rt0 w :
  versionTracker s !! contextID = Some cfg ->
  Runtime (containerInfo cfg) = Some rt0 ->
  PUPolicy_of pu = Some pol -> Runtime pu = Some rt ->
  let c := CallUpdateRules (Z.lxor (version cfg) 1) contextID (Some pu)
             (Some (containerInfo cfg)) in
  Sup s contextID (Some pu) w
  = match answer c w with
    | None =>
        (None,
         set_versionTracker s (<[contextID := revert cfg 1]> (versionTracker s)),
         w ++ [c])
    | Some err =>
        (Some err,
         set_versionTracker s
           (delete contextID (<[contextID := revert cfg 1]> (versionTracker s))),
         (w ++ [c]) ++ [rollback_call contextID (revert cfg 1) rt0])
    end.
Proof.
  intros Hc Hr0 Hp Hr c.
  unfold Supervise, doUpdatePU, cache.Get, cache.LockedModify.
  rewrite Hp, Hr, Hc. cbn [UpdateRules Recorder record_call version revert containerInfo].
  fold c. destruct (answer c w) as [err|]; [|reflexivity].
  rewrite (Unsupervise_tracked _ contextID (revert cfg 1) rt0).
  - reflexivity.
  - cbn. apply lookup_insert_eq.
  - exact Hr0.
Qed.

Lemma Supervise_updates contextID pus :
  forall s w cfg rt0,
    versionTracker s !! contextID = Some cfg ->
    Runtime (containerInfo cfg) = Some rt0 ->
    Forall valid pus ->
    let r := Supervise_each (I := Recorder answer) s contextID pus w in
    Forall (eq None) r.1.1 ->
    r.2 = w ++ update_calls contextID (containerInfo cfg) (version cfg) pus.
Proof.
  induction pus as [|pu pus IH]; intros s w cfg rt0 Hc Hr0 Hv;
    cbn [Supervise_each update_calls fst snd].
  - intros _. now rewrite app_nil_r.
  - inversion Hv as [|? ? [[pol Hp] [rt Hr]] Hv']; subst.
    rewrite (Supervise_update s contextID cfg pu pol rt rt0 w Hc Hr0 Hp Hr).
    destruct (answer _ w) as [err|].
    + destruct (Supervise_each _ _ _ _) as [[es s'] w']. cbn.
      intros H. inversion H. discriminate.
    + specialize (IH (set_versionTracker s
                        (<[contextID := revert cfg 1]> (versionTracker s)))
                     (w ++ [CallUpdateRules (Z.lxor (version cfg) 1) contextID
                              (Some pu) (Some (containerInfo cfg))])
                     (revert cfg 1) rt0).
      cbn in IH. rewrite lookup_insert_eq in IH.
      specialize (IH eq_refl Hr0 Hv').
      destruct (Supervise_each _ _ _ _) as [[es s'] w']. cbn in *.
      intros H. inversion H; subst. rewrite IH by assumption.
      now rewrite <- app_assoc.
Qed.

End Recorded.

(** C1. On a run of [Supervise] calls for one contextID that the supervisor
    does not track yet, all with a valid PU and none returning an error, the
    implementor receives [ConfigureRules] at version 0 for the first call and
    [UpdateRules] for every later call, at the version flipped each time and
    with the PU of the first call as the old one; [ConfigureRules] is not
    called again. *)
Theorem Supervise_creates_then_updates :
  forall (answer : impl_call -> list impl_call -> error) (s : Config)
         (contextID : string) (pu : PUInfo) (pus : list PUInfo)
         (w : list impl_call),
    versionTracker s !! contextID = None ->
    valid pu -> Forall valid pus ->
    let r := Supervise_each (I := Recorder answer) s contextID (pu :: pus) w in
    Forall (eq None) r.1.1 ->
    r.2 = w ++ CallConfigureRules 0 contextID pu
               :: update_calls contextID pu 0 pus.
Proof.
  intros answer s contextID pu pus w Hc [[pol Hp] [rt Hr]] Hv.
  cbn [Supervise_each fst snd].
  rewrite (Supervise_create answer s contextID pu pol rt w Hc Hp Hr).
  destruct (answer _ w) as [err|].
  - destruct (Supervise_each _ _ _ _) as [[es s'] w']. cbn.
    intros H. inversion H. discriminate.
  - pose proof (Supervise_updates answer contextID pus
                  (set_versionTracker s
                     (<[contextID := created_entry pu pol rt]> (versionTracker s)))
                  (w ++ [CallConfigureRules 0 contextID pu])
                  (created_entry pu pol rt) rt) as IH.
    cbn in IH. rewrite lookup_insert_eq in IH.
    specialize (IH eq_refl Hr Hv).
    destruct (Supervise_each _ _ _ _) as [[es s'] w']. cbn in *.
    intros H. inversion H; subst. rewrite IH by assumption.
    now rewrite <- app_assoc.
Qed.

(** The theorem on three calls for a container, every call accepted. *)
Lemma Supervise_creates_then_updates_witness :
  let r := Supervise_each (I := Recorder (fun _ _ => None))
             (Examples.fresh RemoteContainer) "Context"
             [Examples.container; Examples.process; Examples.container] [] in
  Forall (eq None) r.1.1
  /\ r.2 = [ CallConfigureRules 0 "Context" Examples.container;
             CallUpdateRules 1 "Context" (Some Examples.process)
               (Some Examples.container);
             CallUpdateRules 0 "Context" (Some Examples.container)
               (Some Examples.container) ].
Proof.
  assert (Hv : forall pu, In pu [Examples.container; Examples.process] -> valid pu).
  { intros pu [<-|[<-|[]]]; split; eexists; reflexivity. }
  split.
  - vm_compute. repeat constructor.
  - apply (Supervise_creates_then_updates (fun _ _ => None)
             (Examples.fresh RemoteContainer) "Context" Examples.container
             [Examples.process; Examples.container] []).
    + reflexivity.
    + apply Hv. now left.
    + repeat constructor; apply Hv; cbn; auto.
    + vm_compute. repeat constructor.
Defined.

(** C1 fails after a refused update.  An implementor that accepts the
    installation and refuses every update is supervised three times for one
    contextID that was not tracked, each time with a valid PU: the second
    call asks for the update, is refused and rolls back with [DeleteRules],
    which forgets the contextID, and the third call asks for
    [ConfigureRules] at version 0 again, not for an update. *)
Lemma Supervise_creates_again_after_a_refused_update :
  let answer (c : impl_call) (_ : list impl_call) : error :=
    match c with
    | CallUpdateRules _ _ _ _ => Some "refused"
    | _ => None
    end in
  let s := Examples.fresh RemoteContainer in
  let pus := [Examples.process; Examples.container] in
  let r := Supervise_each (I := Recorder answer) s "Context"
             (Examples.container :: pus) [] in
  versionTracker s !! "Context" = None
  /\ valid Examples.container /\ Forall valid pus
  /\ r.1.1 = [None; Some "refused"; None]
  /\ r.2 = [ CallConfigureRules 0 "Context" Examples.container;
             CallUpdateRules 1 "Context" (Some Examples.process)
               (Some Examples.container);
             CallDeleteRules 1 "Context" "0" "" "" "5000" "Proxy-ContrU4g";
             CallConfigureRules 0 "Context" Examples.container ]
  /\ r.2 <> [] ++ CallConfigureRules 0 "Context" Examples.container
                  :: update_calls "Context" Examples.container 0 pus.
Proof.
  intros answer s pus r.
  assert (Hv : forall pu, In pu (Examples.container :: pus) -> valid pu).
  { intros pu [<-|[<-|[<-|[]]]]; split; eexists; reflexivity. }
  split; [reflexivity|]. split; [apply Hv; now left|].
  split; [repeat constructor; apply Hv; cbn; auto|].
  split; [vm_compute; reflexivity|].
  split; [vm_compute; reflexivity|].
  vm_compute. discriminate.
Qed.

End SupervisorFacts.

(** ** Policy updates *)

Module UpdateFacts.

Import constants policy supervisor Programs ProgramFacts Scripts Hitless.

Section Updates.

Context `{E : Engine} `{LP : LogPrefixes}.

Variable i : iptablesctrl.Instance.
Variable addresses : string -> ExtendedMap.

Abbreviation SuperviseC := (Supervise (I := Controller i addresses)).

Lemma lxor_1_1 (v : Z) : Z.lxor (Z.lxor v 1) 1 = v.
Proof. now rewrite Z.lxor_assoc, Z.lxor_nilpotent, Z.lxor_0_r. Qed.


End Updates.


Import Examples.



End UpdateFacts.

(** ** Lists of rules handed to the engine *)

Module RuleListFacts.

Import constants policy iptablesctrl Programs ProgramFacts Scripts.

Section Lists.

Context `{E : Engine}.

(** X1. Deleting the rules of a list never fails and never stops early:
    when every rule of the list has its table and its chain, then whatever
    the engine answers to each call, [processRulesFromList] with method
    "Delete" makes one [Delete] call per rule, in the order of the list,
    and returns nil. *)
Theorem delete_list_is_best_effort :
  forall (i : Instance) (rules : list (list string)) (w : world),
    readable rules ->
    let r := run (processRulesFromList i rules "Delete") w in
    r.1 = Ok tt /\ calls r.2 = calls w ++ deleted rules.
Proof.
  intros i rules w Hrules r. subst r.
  destruct (run_unfailing (processRulesFromList i rules "Delete") w
              (ControllerFacts.unfailing_process_Delete i rules Hrules))
    as (l & Hl & Hm & Hok).
  split.
  - destruct (run _ w) as [[[]|err] w']; [reflexivity|discriminate].
  - unfold calls. rewrite Hl, map_app, Hm.
    now rewrite ControllerFacts.script_process_Delete.
Qed.

(** X2. Appending the rules of a list stops at the first rule that the
    engine rejects: when every rule of the list has its table and its
    chain, either every rule was appended, in order, and the result is nil;
    or the rules before some rule were appended, that rule was rejected, no
    later rule was tried, and the error returned names the method, the
    table and the chain of the rejected rule and carries the engine's
    message. *)
Theorem append_list_stops_at_first_rejection :
  forall (i : Instance) (rules : list (list string)) (w : world),
    readable rules ->
    let r := run (processRulesFromList i rules "Append") w in
    (r.1 = Ok tt /\ trace r.2 = trace w ++ map accepted rules)
    \/ (exists pre cr post e,
          rules = pre ++ cr :: post
          /\ trace r.2
             = trace w ++ map accepted pre
               ++ [(Append (rule_table cr) (rule_chain cr) (rule_spec cr), Some e)]
          /\ r.1 = Err ("unable to Append rule for table " +:+ rule_table cr
                        +:+ " and chain " +:+ rule_chain cr
                        +:+ " with error " +:+ e)).
Proof.
  intros i rules w Hrules. revert w. unfold processRulesFromList.
  change (String.eqb "Append" "Append") with true. cbv iota.
  induction Hrules as [|cr rules Hcr Hall IH]; intros w; cbn zeta.
  - left. cbn. now rewrite app_nil_r.
  - cbn [for_each]. rewrite Hcr, run_bind, run_wrapf. cbn [run do_call].
    destruct (exec (Append (rule_table cr) (rule_chain cr) (rule_spec cr))
                (engine w)) as [[e|] st]; cbn [run].
    + right. exists [], cr, rules, e. cbn. auto.
    + specialize (IH (MkWorld
                        (trace w ++ [(Append (rule_table cr) (rule_chain cr)
                                        (rule_spec cr), None)]) st)).
      cbn zeta in IH.
      destruct IH as [[Hr Ht]|(pre & cr' & post & e & Hrules & Ht & Hr)].
      * left. split; [exact Hr|]. rewrite Ht. cbn [trace map].
        unfold accepted at 2. now rewrite <- app_assoc.
      * right. exists (cr :: pre), cr', post, e. subst rules.
        split; [reflexivity|]. split; [|exact Hr].
        rewrite Ht. cbn [trace map]. unfold accepted at 2.
        now rewrite <- !app_assoc.
Qed.

(** X3. A method other than "Append", "Insert" and "Delete" is refused
    without any call to the engine as soon as there is a rule to process; on
    an empty list the method is never looked at and the result is nil. *)
Theorem unknown_method_is_refused :
  forall (i : Instance) (rules : list (list string)) (methodType : string)
         (w : world),
    methodType <> "Append" -> methodType <> "Insert" ->
    methodType <> "Delete" ->
    run (processRulesFromList i rules methodType) w
    = (match rules with
       | [] => Ok tt
       | _ :: _ => Err "invalid method type"
       end, w).
Proof.
  intros i rules methodType w Ha Hi Hd. unfold processRulesFromList.
  destruct rules as [|cr rules]; [reflexivity|].
  cbn [for_each].
  destruct (String.eqb_spec methodType "Append"); [contradiction|].
  destruct (String.eqb_spec methodType "Insert"); [contradiction|].
  destruct (String.eqb_spec methodType "Delete"); [contradiction|].
  reflexivity.
Qed.

(** X4. Removing the chains of a PU never fails and never stops early:
    whatever the engine answers, [deleteAllContainerChains] flushes and
    deletes the app chain in the table of the app packets, flushes and
    deletes it in the table of the app acknowledgements, flushes and deletes
    the net chain, in this order, and returns nil. *)
Theorem chains_are_removed_best_effort :
  forall (i : Instance) (appChain netChain : string) (w : world),
    let r := run (deleteAllContainerChains i appChain netChain) w in
    r.1 = Ok tt
    /\ calls r.2
       = calls w
         ++ [ClearChain (appPacketIPTableContext i) appChain;
             DeleteChain (appPacketIPTableContext i) appChain;
             ClearChain (appAckPacketIPTableContext i) appChain;
             DeleteChain (appAckPacketIPTableContext i) appChain;
             ClearChain (netPacketIPTableContext i) netChain;
             DeleteChain (netPacketIPTableContext i) netChain].
Proof.
  intros i appChain netChain w r. subst r.
  destruct (run_unfailing (deleteAllContainerChains i appChain netChain) w
              (ControllerFacts.unfailing_deleteAllContainerChains i appChain
                 netChain))
    as (l & Hl & Hm & Hok).
  split.
  - destruct (run _ w) as [[[]|err] w']; [reflexivity|discriminate].
  - unfold calls. now rewrite Hl, map_app, Hm.
Qed.

End Lists.

(** X1 on two rules of which the engine knows neither, over the reference
    engine. *)
Lemma delete_list_is_best_effort_witness :
  let rules := [["mangle"; "INPUT"; "-j"; "ACCEPT"];
                ["mangle"; "Nowhere"; "-j"; "DROP"]] in
  let r := run (processRulesFromList Examples.remote rules "Delete")
             Examples.world0 in
  readable rules
  /\ r.1 = Ok tt /\ calls r.2 = calls Examples.world0 ++ deleted rules.
Proof.
  intros rules r.
  assert (Hrules : readable rules) by (repeat constructor).
  split; [exact Hrules|].
  exact (@delete_list_is_best_effort netfilter.Netfilter Examples.remote rules
           Examples.world0 Hrules).
Defined.

(** X2 on a rule for a chain that is there and a rule for one that is not,
    over the reference engine. *)
Lemma append_list_stops_at_first_rejection_witness :
  let rules := [["mangle"; "INPUT"; "-j"; "ACCEPT"];
                ["mangle"; "Nowhere"; "-j"; "DROP"];
                ["mangle"; "OUTPUT"; "-j"; "ACCEPT"]] in
  let r := run (processRulesFromList Examples.remote rules "Append")
             Examples.world0 in
  readable rules
  /\ ((r.1 = Ok tt /\ trace r.2 = trace Examples.world0 ++ map accepted rules)
      \/ (exists pre cr post e,
            rules = pre ++ cr :: post
            /\ trace r.2
               = trace Examples.world0 ++ map accepted pre
                 ++ [(Append (rule_table cr) (rule_chain cr) (rule_spec cr),
                      Some e)]
            /\ r.1 = Err ("unable to Append rule for table " +:+ rule_table cr
                          +:+ " and chain " +:+ rule_chain cr
                          +:+ " with error " +:+ e))).
Proof.
  intros rules r.
  assert (Hrules : readable rules) by (repeat constructor).
  split; [exact Hrules|].
  exact (@append_list_stops_at_first_rejection netfilter.Netfilter
           Examples.remote rules Examples.world0 Hrules).
Defined.

(** The theorem on one rule and a misspelt method, over the reference
    engine. *)
Lemma unknown_method_is_refused_witness :
  "Remove" <> "Append" /\ "Remove" <> "Insert" /\ "Remove" <> "Delete"
  /\ run (processRulesFromList Examples.remote
            [["mangle"; "INPUT"; "-j"; "ACCEPT"]] "Remove") Examples.world0
     = (Err "invalid method type", Examples.world0).
Proof.
  assert (Ha : "Remove" <> "Append") by discriminate.
  assert (Hi : "Remove" <> "Insert") by discriminate.
  assert (Hd : "Remove" <> "Delete") by discriminate.
  split; [exact Ha|]. split; [exact Hi|]. split; [exact Hd|].
  exact (@unknown_method_is_refused netfilter.Netfilter Examples.remote
           [["mangle"; "INPUT"; "-j"; "ACCEPT"]] "Remove" Examples.world0
           Ha Hi Hd).
Defined.

End RuleListFacts.

(** ** The entry points of the controller, over any engine *)

Module EntryPointFacts.

Import constants policy iptablesctrl Programs ProgramFacts Scripts Hitless.
Import ControllerFacts.

Section EntryPoints.

Context `{E : Engine} `{LP : LogPrefixes}.

Lemma is_Ok_unit (r : result unit) : is_Ok r = true <-> r = Ok tt.
Proof. destruct r as [[]|msg]; cbn; split; auto; discriminate. Qed.

Lemma installs_rendered i contextID app net ip pol :
  Forall installs (rendered i contextID app net ip pol).
Proof.
  eapply Forall_impl; [apply rendered_builds|].
  intros c. destruct c; cbn; auto.
Qed.

Lemma installs_appended rules : Forall installs (appended rules).
Proof. unfold appended. apply Forall_map, Forall_forall. now intros. Qed.

Lemma tears_down_deleted chains rules :
  Forall (tears_down chains) (deleted rules).
Proof. unfold deleted. apply Forall_map, Forall_forall. now intros. Qed.

Lemma tears_down_chains_removed i app net :
  Forall (tears_down [app; net]) (chains_removed i app net).
Proof.
  unfold chains_removed. repeat constructor; cbn; set_solver.
Qed.

(** The run of [UpdateRules] in its two phases. *)
Lemma run_UpdateRules_phases i version contextID cid pol rt old (w : world) :
  let r := run (UpdateRules i version contextID
                  (Some (MkPUInfo cid (Some pol) (Some rt))) old) w in
  exists t1 t2,
    trace r.2 = trace w ++ t1 ++ t2
    /\ map fst t1 `prefix_of` update_build i version contextID pol rt
    /\ map fst t2 `prefix_of` update_teardown i version contextID pol rt
    /\ (t2 <> [] \/ is_Ok r.1 = true ->
        map fst t1 = update_build i version contextID pol rt
        /\ Forall (fun ce => ce.2 = None) t1)
    /\ (is_Ok r.1 = true ->
        map fst t2 = update_teardown i version contextID pol rt).
Proof.
  unfold UpdateRules, update_build, update_teardown, rendered, steering,
    proxy_set_name.
  cbn [PUPolicy_of Runtime].
  destruct (defaultIP i (Some (IPAddresses pol))) as [ip ok].
  destruct (chainName contextID version) as [app net].
  destruct (chainName contextID (Z.lxor version 1)) as [oapp onet].
  cbn [fst snd]. cbv zeta.
  destruct ok; cbn [negb].
  2: { exists [], []. cbn. rewrite app_nil_r.
       split; [reflexivity|]. split; [apply prefix_nil|].
       split; [apply prefix_nil|].
       split; [intros [H|H]; [now contradiction H|discriminate]|discriminate]. }
  rewrite <- !app_assoc.
  eapply run_build_step;
    [ apply steady_addContainerChain | apply strict_addContainerChain
    | now rewrite (proj1 (script_addContainerChain _ _ _))
    | intros _; apply script_addContainerChain | intros w1 ].
  eapply run_build_step;
    [ apply steady_addPacketTrap | apply strict_addPacketTrap
    | now rewrite (proj1 (script_addPacketTrap _ _ _ _ _))
    | intros _; apply script_addPacketTrap | intros w2 ].
  eapply run_build_step;
    [ apply steady_addAppACLs | apply strict_addAppACLs
    | reflexivity | reflexivity | intros w3 ].
  eapply run_build_step;
    [ apply steady_addNetACLs | apply strict_addNetACLs
    | reflexivity | reflexivity | intros w4 ].
  eapply run_build_step;
    [ apply steady_addExclusionACLs | apply strict_addExclusionACLs
    | now rewrite (proj1 (script_addExclusionACLs _ _ _ _ _))
    | intros _; apply script_addExclusionACLs | intros w5 ].
  rewrite <- (app_nil_r (appended _)).
  destruct (ModeType_eqb (mode i) LocalServer) eqn:Hm; cbn [negb].
  - destruct (String.eqb (CgroupMark (Options rt)) "") eqn:Hmark.
    + eapply run_build_step;
        [ apply steady_Fail | apply strict_Fail | apply prefix_nil
        | discriminate | intros w6 ].
      apply run_teardown.
      * apply steady_seq; [apply unfailing_steady, unfailing_deleteChainRules|].
        apply steady_seq; [apply steady_wrapf, steady_do_call|].
        apply unfailing_steady, unfailing_deleteAllContainerChains.
      * rewrite script_seq
          by apply unfailing_outcome, unfailing_deleteChainRules.
        now rewrite script_deleteChainRules.
    + eapply run_build_step;
        [ apply steady_addChainRules | apply strict_addChainRules
        | now rewrite (proj1 (script_addChainRules _ _ _ _ _ _ _ _ _ _))
        | intros _; apply script_addChainRules | intros w6 ].
      apply run_teardown.
      * apply steady_seq; [apply unfailing_steady, unfailing_deleteChainRules|].
        apply steady_seq; [apply steady_wrapf, steady_do_call|].
        apply unfailing_steady, unfailing_deleteAllContainerChains.
      * rewrite script_seq
          by apply unfailing_outcome, unfailing_deleteChainRules.
        now rewrite script_deleteChainRules.
  - eapply run_build_step;
      [ apply steady_addChainRules | apply strict_addChainRules
      | now rewrite (proj1 (script_addChainRules _ _ _ _ _ _ _ _ _ _))
      | intros _; apply script_addChainRules | intros w6 ].
    apply run_teardown.
    + apply steady_seq; [apply unfailing_steady, unfailing_deleteChainRules|].
      apply steady_seq; [apply steady_wrapf, steady_do_call|].
      apply unfailing_steady, unfailing_deleteAllContainerChains.
    + rewrite script_seq
        by apply unfailing_outcome, unfailing_deleteChainRules.
      now rewrite script_deleteChainRules.
Qed.

(** X5. Whatever the engine answers, the calls of [ConfigureRules] are a
    prefix of the installation script: the chains are created, on a host the
    port set of a user is created and registered, the proxy sets are
    created, the steering rules are appended, and only then the chains are
    filled with the trap rules, the ACLs and the exclusion rules.  When
    [ConfigureRules] returns nil the whole script was run and the engine
    accepted every call of it. *)
Theorem configure_is_all_or_error :
  forall (i : Instance) (version : Z) (contextID cid : string)
         (pol : PUPolicy) (rt : PURuntime) (w : world),
    let r := run (ConfigureRules i version contextID
                    (MkPUInfo cid (Some pol) (Some rt))) w in
    exists t,
      trace r.2 = trace w ++ t
      /\ map fst t `prefix_of` configure_script i version contextID pol rt
      /\ (r.1 = Ok tt ->
          map fst t = configure_script i version contextID pol rt
          /\ Forall (fun ce => ce.2 = None) t).
Proof.
  intros i version contextID cid pol rt w r. subst r.
  destruct (run_steady _ w (steady_ConfigureRules i version contextID
                              (MkPUInfo cid (Some pol) (Some rt))))
    as (l & Hl & Hp & Hok).
  destruct (script_ConfigureRules_prefix i version contextID cid pol rt)
    as [Hpre Hfull].
  exists l. split; [exact Hl|]. split; [etrans; eassumption|].
  intros Hr. apply is_Ok_unit in Hr.
  destruct (Hok Hr) as [Hs Ho]. split; [now rewrite Hs, (Hfull Ho)|].
  destruct (run_strict _ w (strict_ConfigureRules i version contextID
                              (MkPUInfo cid (Some pol) (Some rt))) Hr)
    as (l' & Hl' & Hall).
  rewrite Hl in Hl'. apply app_inv_head in Hl'. now subst l'.
Qed.

(** X6. On a host, [ConfigureRules] looks at the mark of the PU only after
    it has created the chains: with an empty mark it never returns nil, it
    makes no call but the creation of the chains, and when the engine
    accepts those the chains are left behind and the error is
    [no mark value found]. *)
Theorem configure_checks_the_mark_late :
  forall (i : Instance) (version : Z) (contextID cid : string)
         (pol : PUPolicy) (rt : PURuntime) (w : world),
    mode i = LocalServer ->
    CgroupMark (Options rt) = "" ->
    let r := run (ConfigureRules i version contextID
                    (MkPUInfo cid (Some pol) (Some rt))) w in
    let new := chainName contextID version in
    r.1 <> Ok tt
    /\ exists t,
         trace r.2 = trace w ++ t
         /\ map fst t `prefix_of` new_chains i new.1 new.2
         /\ (Forall (fun ce => ce.2 = None) t ->
             map fst t = new_chains i new.1 new.2
             /\ r.1 = Err "no mark value found").
Proof.
  intros i version contextID cid pol rt w Hm Hmark r new. subst r new.
  destruct (script_ConfigureRules_no_mark i version contextID cid pol rt
              Hm Hmark) as [Hs Ho].
  destruct (run_steady _ w (steady_ConfigureRules i version contextID
                              (MkPUInfo cid (Some pol) (Some rt))))
    as (l & Hl & Hp & Hok).
  split.
  - intros Hr. apply is_Ok_unit in Hr. destruct (Hok Hr) as [_ H].
    rewrite Ho in H. discriminate.
  - exists l. split; [exact Hl|]. split; [now rewrite <- Hs|].
    intros Hall. destruct (run_accepted _ w l Hl Hall) as [H1 H2].
    now rewrite H1, H2, Hs, Ho.
Qed.

(** X7. A policy update never takes anything out of service before the new
    chains are complete.  Whatever the engine answers, the calls of
    [UpdateRules] split in a part of the build script (chains created and
    filled, steering rules appended) followed by a part of the tear-down
    script (steering to the other version deleted, proxy sets refreshed,
    chains of the other version flushed and removed); the second part is
    empty unless the whole build script was run and the engine accepted
    every call of it.  The build script only creates chains and adds rules;
    the tear-down script flushes and removes no chain but those of the other
    version. *)
Theorem update_builds_before_it_tears_down :
  forall (i : Instance) (version : Z) (contextID cid : string)
         (pol : PUPolicy) (rt : PURuntime) (old : option PUInfo) (w : world),
    let r := run (UpdateRules i version contextID
                    (Some (MkPUInfo cid (Some pol) (Some rt))) old) w in
    let build := update_build i version contextID pol rt in
    let teardown := update_teardown i version contextID pol rt in
    let other := chainName contextID (Z.lxor version 1) in
    (exists t1 t2,
        trace r.2 = trace w ++ t1 ++ t2
        /\ map fst t1 `prefix_of` build
        /\ map fst t2 `prefix_of` teardown
        /\ (t2 <> [] \/ r.1 = Ok tt ->
            map fst t1 = build /\ Forall (fun ce => ce.2 = None) t1)
        /\ (r.1 = Ok tt -> map fst t2 = teardown))
    /\ Forall installs build
    /\ Forall (tears_down [other.1; other.2]) teardown.
Proof.
  intros i version contextID cid pol rt old w r build teardown other.
  subst r build teardown other. split; [|split].
  - destruct (run_UpdateRules_phases i version contextID cid pol rt old w)
      as (t1 & t2 & Ht & Hp1 & Hp2 & Hb & Hd).
    exists t1, t2. split; [exact Ht|]. split; [exact Hp1|].
    split; [exact Hp2|]. split.
    + intros [H|H]; apply Hb; [now left|right; now apply is_Ok_unit].
    + intros H. now apply Hd, is_Ok_unit.
  - unfold update_build. apply Forall_app_2.
    + apply installs_rendered.
    + apply installs_appended.
  - unfold update_teardown. apply Forall_app_2; [apply tears_down_deleted|].
    apply Forall_app_2; [repeat constructor|].
    apply tears_down_chains_removed.
Qed.

(** X8. On a host, [UpdateRules] looks at the mark of the PU only after it
    has rendered the new chains: with an empty mark it never returns nil, it
    makes no call outside the rendering of the new chains, and when the
    engine accepts those the chains are left behind, complete, and the error
    is [no mark value found]. *)
Theorem update_checks_the_mark_late :
  forall (i : Instance) (version : Z) (contextID cid : string)
         (pol : PUPolicy) (rt : PURuntime) (old : option PUInfo) (w : world),
    mode i = LocalServer ->
    CgroupMark (Options rt) = "" ->
    let r := run (UpdateRules i version contextID
                    (Some (MkPUInfo cid (Some pol) (Some rt))) old) w in
    let new := chainName contextID version in
    let chains := rendered i contextID new.1 new.2
                    (defaultIP i (Some (IPAddresses pol))).1 pol in
    r.1 <> Ok tt
    /\ exists t,
         trace r.2 = trace w ++ t
         /\ map fst t `prefix_of` chains
         /\ (Forall (fun ce => ce.2 = None) t ->
             map fst t = chains /\ r.1 = Err "no mark value found").
Proof.
  intros i version contextID cid pol rt old w Hm Hmark r new chains.
  subst r new chains.
  destruct (script_UpdateRules_no_mark i version contextID cid pol rt old
              Hm Hmark) as [Hs Ho].
  destruct (run_steady _ w (steady_UpdateRules i version contextID
                              (Some (MkPUInfo cid (Some pol) (Some rt))) old))
    as (l & Hl & Hp & Hok).
  split.
  - intros Hr. apply is_Ok_unit in Hr. destruct (Hok Hr) as [_ H].
    rewrite Ho in H. discriminate.
  - exists l. split; [exact Hl|]. split; [now rewrite <- Hs|].
    intros Hall. destruct (run_accepted _ w l Hl Hall) as [H1 H2].
    now rewrite H1, H2, Hs, Ho.
Qed.

(** *** Runs of best-effort steps *)

Lemma run_try_seq {A B : Type} (m : M A) (q : M B) (w : world) :
  run (bind (try m) (fun _ => q)) w = run q (run m w).2.
Proof.
  rewrite run_bind, run_try. now destruct (run m w) as [[a|msg] w'].
Qed.

Lemma calls_run_unfailing {A : Type} (m : M A) (w : world) :
  unfailing m -> calls (run m w).2 = calls w ++ script m.
Proof.
  intros H. destruct (run_unfailing m w H) as (l & Hl & Hm & _).
  unfold calls. now rewrite Hl, map_app, Hm.
Qed.

Lemma run_do_call (c : call) (w : world) :
  run (do_call c) w
  = (match (exec c (engine w)).1 with
     | None => Ok tt
     | Some msg => Err msg
     end,
     MkWorld (trace w ++ [(c, (exec c (engine w)).1)]) (exec c (engine w)).2).
Proof. cbn. now destruct (exec c (engine w)) as [[e|] st]. Qed.

Lemma calls_run_call (c : call) (w : world) :
  calls (run (do_call c) w).2 = calls w ++ [c].
Proof.
  unfold calls. cbn. destruct (exec c (engine w)) as [[e|] st]; cbn;
    now rewrite map_app.
Qed.

Lemma defaultIP_of_host i ips :
  mode i <> LocalContainer -> (defaultIP i ips).2 = true.
Proof.
  intros Hm. unfold defaultIP.
  destruct (mode i); try contradiction;
    (destruct (map_get ips DefaultNamespace) as [ip|];
     [destruct (0 <? Go.len ip)|]); reflexivity.
Qed.

Lemma defaultIP_missing i (m : gmap string string) :
  mode i = LocalContainer ->
  (forall ip, m !! DefaultNamespace = Some ip -> ip = "") ->
  defaultIP i (Some m) = ("0.0.0.0/0", false).
Proof.
  intros Hm Hno. unfold defaultIP, map_get. rewrite Hm.
  destruct (m !! DefaultNamespace) as [ip|] eqn:Hip; [|reflexivity].
  now rewrite (Hno ip eq_refl).
Qed.

(** The address that [DeleteRules] works with. *)
Lemma DeleteRules_resolved i version contextID ips port mark uid proxyPort
    proxyPortSetName ip :
  (mode i = LocalServer /\ ip = ""
   \/ mode i <> LocalServer /\ ips <> None /\ defaultIP i ips = (ip, true)) ->
  DeleteRules i version contextID ips port mark uid proxyPort proxyPortSetName
  = (let '(appChain, netChain) := chainName contextID version in
     let portSetName := PuPortSetName contextID mark PuPortSet in
     _ <- try (deleteChainRules i portSetName appChain netChain ip port
                 mark uid proxyPort proxyPortSetName) ;;
     _ <- try (deleteAllContainerChains i appChain netChain) ;;
     (if negb (String.eqb uid "") then
        _ <- try (do_call (IpsetDestroy portSetName)) ;;
        (if negb (portSetInstance i)
         then fail "enforcer portset instance cannot be nil for host"
         else ret tt) ;;
        do_call (DelUserPortSet uid mark)
      else ret tt) ;;
     let '(dstPortSetName, srcPortSetName) := getSetNamePair proxyPortSetName in
     _ <- try (do_call (IpsetDestroy dstPortSetName)) ;;
     _ <- try (do_call (IpsetDestroy srcPortSetName)) ;;
     ret tt).
Proof.
  unfold DeleteRules.
  intros [[Hm ->]|(Hm & Hips & Hip)].
  - now rewrite Hm.
  - destruct ips as [m|]; [|contradiction]. rewrite Hip.
    destruct (mode i); try contradiction; reflexivity.
Qed.

(** X9. A local container without a default address is refused by the three
    entry points before any call: [ConfigureRules] and [UpdateRules] install
    nothing, and [DeleteRules] removes nothing, neither the rules nor the
    chains nor the sets; [DeleteRules] likewise makes no call when it is
    given no map of addresses. *)
Theorem no_address_no_calls :
  forall (i : Instance) (version : Z) (contextID cid : string)
         (pol : PUPolicy) (rt : PURuntime) (runtime : option PURuntime)
         (old : option PUInfo)
         (port mark uid proxyPort proxyPortSetName : string) (w : world),
    mode i = LocalContainer ->
    (forall ip, IPAddresses pol !! DefaultNamespace = Some ip -> ip = "") ->
    run (ConfigureRules i version contextID
           (MkPUInfo cid (Some pol) (Some rt))) w
    = (Err "no ip address found", w)
    /\ run (UpdateRules i version contextID
              (Some (MkPUInfo cid (Some pol) runtime)) old) w
       = (Err "no ip address found", w)
    /\ run (DeleteRules i version contextID (Some (IPAddresses pol)) port mark
              uid proxyPort proxyPortSetName) w
       = (Err "no ip address found", w)
    /\ run (DeleteRules i version contextID None port mark uid proxyPort
              proxyPortSetName) w
       = (Err "provided map of ip addresses is nil", w).
Proof.
  intros i version contextID cid pol rt runtime old port mark uid proxyPort
    proxyPortSetName w Hm Hno.
  pose proof (defaultIP_missing i (IPAddresses pol) Hm Hno) as Hip.
  unfold ConfigureRules, UpdateRules, DeleteRules. cbn [PUPolicy_of Runtime].
  rewrite Hip, Hm. destruct (chainName contextID version) as [app net].
  repeat split.
Qed.

(** The run of [DeleteRules] for a PU without a user, once the address is
    resolved. *)
Lemma run_DeleteRules_without_user :
  forall (i : Instance) (version : Z) (contextID : string) (ips : ExtendedMap)
         (port mark proxyPort proxyPortSetName ip : string) (w : world),
    (mode i = LocalServer /\ ip = ""
     \/ mode i <> LocalServer /\ ips <> None /\ defaultIP i ips = (ip, true)) ->
    let r := run (DeleteRules i version contextID ips port mark "" proxyPort
                    proxyPortSetName) w in
    let names := chainName contextID version in
    r.1 = Ok tt
    /\ calls r.2
       = calls w
         ++ deleted (steering_deleted i (PuPortSetName contextID mark PuPortSet)
                       names.1 names.2 ip port mark "" proxyPort
                       proxyPortSetName)
         ++ chains_removed i names.1 names.2
         ++ [IpsetDestroy (getSetNamePair proxyPortSetName).1;
             IpsetDestroy (getSetNamePair proxyPortSetName).2].
Proof.
  intros i version contextID ips port mark proxyPort proxyPortSetName ip w
    Hip r names. subst r names.
  rewrite (DeleteRules_resolved _ _ _ _ _ _ _ _ _ ip Hip).
  destruct (chainName contextID version) as [app net]. cbn [fst snd].
  change (negb (String.eqb "" "")) with false. cbv iota.
  cbn [getSetNamePair fst snd].
  rewrite !run_try_seq. cbn [bind ret]. rewrite !run_try_seq.
  cbn [run ret fst snd]. split; [reflexivity|].
  rewrite !calls_run_call.
  rewrite (calls_run_unfailing _ _ (unfailing_deleteAllContainerChains _ _ _)).
  rewrite (calls_run_unfailing _ _
             (unfailing_deleteChainRules _ _ _ _ _ _ _ _ _ _)).
  rewrite script_deleteChainRules, script_deleteAllContainerChains.
  now rewrite <- !app_assoc.
Qed.

(** X10. [DeleteRules] for a PU without a user is best effort: once the
    address is resolved it asks for the deletion of every steering rule,
    for the six flushes and removals of the two chains and for the
    destruction of the two proxy sets, in this order, whatever the engine
    answers, and returns nil. *)
Theorem delete_is_best_effort :
  forall (i : Instance) (version : Z) (contextID : string) (ips : ExtendedMap)
         (port mark proxyPort proxyPortSetName ip : string) (w : world),
    (mode i = LocalServer /\ ip = ""
     \/ mode i <> LocalServer /\ ips <> None /\ defaultIP i ips = (ip, true)) ->
    let r := run (DeleteRules i version contextID ips port mark "" proxyPort
                    proxyPortSetName) w in
    let names := chainName contextID version in
    r.1 = Ok tt
    /\ calls r.2
       = calls w
         ++ deleted (steering_deleted i (PuPortSetName contextID mark PuPortSet)
                       names.1 names.2 ip port mark "" proxyPort
                       proxyPortSetName)
         ++ chains_removed i names.1 names.2
         ++ [IpsetDestroy (getSetNamePair proxyPortSetName).1;
             IpsetDestroy (getSetNamePair proxyPortSetName).2].
Proof.
  intros i version contextID ips port mark proxyPort proxyPortSetName ip w
    Hip.
  exact (run_DeleteRules_without_user i version contextID ips port mark
           proxyPort proxyPortSetName ip w Hip).
Qed.

(** X11. [DeleteRules] for the PU of a user asks for the same deletions and
    for the destruction of the port set of the user whatever the engine
    answers, but then depends on the tracker of user port sets: without a
    tracker it returns an error, and when the tracker refuses to forget the
    user it returns the error of the tracker; in both cases the two proxy
    sets are not destroyed.  Only when the tracker accepts are they
    destroyed, and nil is returned. *)
Theorem delete_for_a_user_depends_on_the_tracker :
  forall (i : Instance) (version : Z) (contextID : string) (ips : ExtendedMap)
         (port mark uid proxyPort proxyPortSetName ip : string) (w : world),
    (mode i = LocalServer /\ ip = ""
     \/ mode i <> LocalServer /\ ips <> None /\ defaultIP i ips = (ip, true)) ->
    uid <> "" ->
    let r := run (DeleteRules i version contextID ips port mark uid proxyPort
                    proxyPortSetName) w in
    let names := chainName contextID version in
    let userSet := PuPortSetName contextID mark PuPortSet in
    let cleanup :=
      deleted (steering_deleted i userSet names.1 names.2 ip port mark uid
                 proxyPort proxyPortSetName)
      ++ chains_removed i names.1 names.2
      ++ [IpsetDestroy userSet] in
    if portSetInstance i then
      (r.1 = Ok tt
       /\ calls r.2
          = calls w ++ cleanup
            ++ [DelUserPortSet uid mark;
                IpsetDestroy (getSetNamePair proxyPortSetName).1;
                IpsetDestroy (getSetNamePair proxyPortSetName).2])
      \/ (exists e,
             r.1 = Err e
             /\ calls r.2 = calls w ++ cleanup ++ [DelUserPortSet uid mark]
             /\ last (trace r.2) = Some (DelUserPortSet uid mark, Some e))
    else
      r.1 = Err "enforcer portset instance cannot be nil for host"
      /\ calls r.2 = calls w ++ cleanup.
Proof.
  intros i version contextID ips port mark uid proxyPort proxyPortSetName ip w
    Hip Huid r names userSet cleanup. subst r names userSet cleanup.
  rewrite (DeleteRules_resolved _ _ _ _ _ _ _ _ _ ip Hip).
  destruct (chainName contextID version) as [app net]. cbn [fst snd].
  apply String.eqb_neq in Huid. rewrite Huid. cbn [negb getSetNamePair fst snd].
  rewrite !run_try_seq.
  set (w1 := (run (deleteChainRules i (PuPortSetName contextID mark PuPortSet)
                     app net ip port mark uid proxyPort proxyPortSetName) w).2).
  set (w2 := (run (deleteAllContainerChains i app net) w1).2).
  assert (Hw2 : calls w2
                = calls w
                  ++ deleted (steering_deleted i
                                (PuPortSetName contextID mark PuPortSet) app net
                                ip port mark uid proxyPort proxyPortSetName)
                  ++ chains_removed i app net).
  { subst w2 w1.
    rewrite (calls_run_unfailing _ _ (unfailing_deleteAllContainerChains _ _ _)).
    rewrite (calls_run_unfailing _ _
               (unfailing_deleteChainRules _ _ _ _ _ _ _ _ _ _)).
    rewrite script_deleteChainRules, script_deleteAllContainerChains.
    now rewrite <- !app_assoc. }
  clearbody w2. clear w1.
  rewrite run_bind, run_try_seq.
  set (w3 := (run (do_call (IpsetDestroy (PuPortSetName contextID mark PuPortSet)))
                w2).2).
  assert (Hw3 : calls w3
                = calls w
                  ++ deleted (steering_deleted i
                                (PuPortSetName contextID mark PuPortSet) app net
                                ip port mark uid proxyPort proxyPortSetName)
                  ++ chains_removed i app net
                  ++ [IpsetDestroy (PuPortSetName contextID mark PuPortSet)]).
  { subst w3. rewrite calls_run_call, Hw2. now rewrite <- !app_assoc. }
  clearbody w3. clear Hw2 w2.
  destruct (portSetInstance i); cbn [negb bind ret fail run fst snd].
  - rewrite (run_do_call (DelUserPortSet uid mark) w3).
    destruct (exec (DelUserPortSet uid mark) (engine w3)) as [[e|] st] eqn:He.
    + right. exists e. cbn [run fst snd trace]. split; [reflexivity|].
      split.
      * unfold calls in *. cbn [trace]. rewrite map_app, Hw3.
        now rewrite <- !app_assoc.
      * apply last_snoc.
    + left. cbn [run fst snd]. rewrite !run_try_seq. cbn [run ret fst snd].
      split; [reflexivity|]. rewrite !calls_run_call.
      unfold calls in *. cbn [trace]. rewrite map_app, Hw3.
      now rewrite <- !app_assoc.
  - split; [reflexivity|]. exact Hw3.
Qed.

(** X12. The steering rules of a PU are deleted as they were added, unless
    the PU is that of a user with services on a host: in every other case
    [deleteChainRules] asks for the deletion of exactly the rules that
    [addChainRules] appends at the same arguments, in the same order. *)
Theorem steering_is_deleted_as_added :
  forall (i : Instance)
         (portSetName appChain netChain ip port mark uid proxyPort
            proxyPortSetName : string),
    mode i <> LocalServer \/ uid = "" \/ port = "0" ->
    exists table,
      script (addChainRules i portSetName appChain netChain ip port mark uid
                proxyPort proxyPortSetName) = appended table
      /\ script (deleteChainRules i portSetName appChain netChain ip port mark
                   uid proxyPort proxyPortSetName) = deleted table.
Proof.
  intros i psn app net ip port mark uid pp ppsn H.
  exists (steering_deleted i psn app net ip port mark uid pp ppsn).
  rewrite (proj1 (script_addChainRules _ _ _ _ _ _ _ _ _ _)),
    script_deleteChainRules.
  split; [|reflexivity]. f_equal. unfold steering_added, steering_deleted.
  destruct (ModeType_eqb (mode i) LocalServer) eqn:Hm; [|reflexivity].
  destruct H as [H|[->| ->]].
  - destruct (mode i); try discriminate Hm. now contradiction H.
  - cbn. now rewrite orb_true_r.
  - reflexivity.
Qed.

(** X13. For the PU of a user with services on a host the two functions
    disagree: [addChainRules] appends the rules of a cgroup, among them the
    jumps to the two chains of the PU, and [deleteChainRules] asks for the
    deletion of the rules of a user; no rule that was appended is among
    those whose deletion is asked for. *)
Theorem user_service_steering_is_not_deleted :
  forall (i : Instance)
         (portSetName appChain netChain ip port mark uid proxyPort
            proxyPortSetName : string),
    mode i = LocalServer -> uid <> "" -> port <> "0" ->
    let added := script (addChainRules i portSetName appChain netChain ip port
                           mark uid proxyPort proxyPortSetName) in
    let removed := script (deleteChainRules i portSetName appChain netChain ip
                             port mark uid proxyPort proxyPortSetName) in
    added = appended (cgroupChainRules i appChain netChain mark port uid
                        proxyPort proxyPortSetName)
    /\ removed = deleted (uidChainRules i portSetName appChain netChain mark
                            port uid proxyPort proxyPortSetName)
    /\ Exists (adds_jump_to appChain) added
    /\ Exists (adds_jump_to netChain) added
    /\ forall table chain spec,
         In (Append table chain spec) added ->
         ~ In (Delete table chain spec) removed.
Proof.
  intros i psn app net ip port mark uid pp ppsn Hm Huid Hport added removed.
  subst added removed.
  rewrite (proj1 (script_addChainRules _ _ _ _ _ _ _ _ _ _)),
    script_deleteChainRules.
  unfold steering_added, steering_deleted. rewrite Hm.
  apply String.eqb_neq in Huid, Hport. rewrite Huid, Hport.
  cbn [ModeType_eqb negb orb].
  split; [reflexivity|]. split; [reflexivity|].
  unfold cgroupChainRules, uidChainRules, getSetNamePair, appended, deleted.
  cbn [map rule_table rule_chain rule_spec nth skipn].
  split; [|split].
  - apply Exists_cons_tl, Exists_cons_hd. reflexivity.
  - do 7 apply Exists_cons_tl. apply Exists_cons_hd. reflexivity.
  - intros table chain spec Ha Hd. cbn [In] in Ha, Hd.
    repeat match goal with
           | H : _ \/ _ |- _ => destruct H as [H|H]
           | H : False |- _ => contradiction H
           end;
      congruence.
Qed.

End EntryPoints.

Import Examples.

(** X6 on a host and a PU without a mark, over the reference engine. *)
Lemma configure_checks_the_mark_late_witness :
  mode Examples.host = LocalServer
  /\ CgroupMark (Options NewPURuntimeWithDefaults) = ""
  /\ let r := run (ConfigureRules Examples.host 0 "Context"
                     (MkPUInfo "Context" (Some Examples.container_policy)
                        (Some NewPURuntimeWithDefaults))) Examples.world0 in
     let new := chainName "Context" 0 in
     r.1 <> Ok tt
     /\ exists t,
          trace r.2 = trace Examples.world0 ++ t
          /\ map fst t `prefix_of` new_chains Examples.host new.1 new.2
          /\ (Forall (fun ce => ce.2 = None) t ->
              map fst t = new_chains Examples.host new.1 new.2
              /\ r.1 = Err "no mark value found").
Proof.
  assert (Hm : mode Examples.host = LocalServer) by reflexivity.
  assert (Hk : CgroupMark (Options NewPURuntimeWithDefaults) = "")
    by reflexivity.
  split; [exact Hm|]. split; [exact Hk|].
  exact (@configure_checks_the_mark_late netfilter.Netfilter Examples.prefixes
           Examples.host 0 "Context" "Context" Examples.container_policy
           NewPURuntimeWithDefaults Examples.world0 Hm Hk).
Defined.

(** X8 on a host and a PU without a mark, over the reference engine. *)
Lemma update_checks_the_mark_late_witness :
  mode Examples.host = LocalServer
  /\ CgroupMark (Options NewPURuntimeWithDefaults) = ""
  /\ let r := run (UpdateRules Examples.host 1 "Context"
                     (Some (MkPUInfo "Context" (Some Examples.container_policy)
                              (Some NewPURuntimeWithDefaults))) None)
                Examples.world0 in
     let new := chainName "Context" 1 in
     let chains := rendered Examples.host "Context" new.1 new.2
                     (defaultIP Examples.host
                        (Some (IPAddresses Examples.container_policy))).1
                     Examples.container_policy in
     r.1 <> Ok tt
     /\ exists t,
          trace r.2 = trace Examples.world0 ++ t
          /\ map fst t `prefix_of` chains
          /\ (Forall (fun ce => ce.2 = None) t ->
              map fst t = chains /\ r.1 = Err "no mark value found").
Proof.
  assert (Hm : mode Examples.host = LocalServer) by reflexivity.
  assert (Hk : CgroupMark (Options NewPURuntimeWithDefaults) = "")
    by reflexivity.
  split; [exact Hm|]. split; [exact Hk|].
  exact (@update_checks_the_mark_late netfilter.Netfilter Examples.prefixes
           Examples.host 1 "Context" "Context" Examples.container_policy
           NewPURuntimeWithDefaults None Examples.world0 Hm Hk).
Defined.

(** X9 on a local container whose default address is empty, over the
    reference engine. *)
Lemma no_address_no_calls_witness :
  let pol := MkPUPolicy {[ DefaultNamespace := "" ]} [] [] [] []
               (MkProxied [] []) in
  mode Examples.local = LocalContainer
  /\ (forall ip, IPAddresses pol !! DefaultNamespace = Some ip -> ip = "")
  /\ run (ConfigureRules Examples.local 0 "Context"
            (MkPUInfo "Context" (Some pol) (Some NewPURuntimeWithDefaults)))
       Examples.world0
     = (Err "no ip address found", Examples.world0)
  /\ run (UpdateRules Examples.local 0 "Context"
            (Some (MkPUInfo "Context" (Some pol) None)) None) Examples.world0
     = (Err "no ip address found", Examples.world0)
  /\ run (DeleteRules Examples.local 0 "Context" (Some (IPAddresses pol)) "" ""
            "" "5000" "Proxy-Context") Examples.world0
     = (Err "no ip address found", Examples.world0)
  /\ run (DeleteRules Examples.local 0 "Context" None "" "" "" "5000"
            "Proxy-Context") Examples.world0
     = (Err "provided map of ip addresses is nil", Examples.world0).
Proof.
  intros pol.
  assert (Hm : mode Examples.local = LocalContainer) by reflexivity.
  assert (Hno : forall ip,
             IPAddresses pol !! DefaultNamespace = Some ip -> ip = "").
  { intros ip H. vm_compute in H. congruence. }
  split; [exact Hm|]. split; [exact Hno|].
  exact (@no_address_no_calls netfilter.Netfilter Examples.prefixes
           Examples.local 0 "Context" "Context" pol NewPURuntimeWithDefaults
           None None "" "" "" "5000" "Proxy-Context" Examples.world0 Hm Hno).
Defined.

(** X10 on the container of the tests, over the reference engine. *)
Lemma delete_is_best_effort_witness :
  let ips : ExtendedMap := Some {[ DefaultNamespace := "172.17.0.1" ]} in
  (mode Examples.remote = LocalServer /\ "172.17.0.1" = ""
   \/ mode Examples.remote <> LocalServer /\ ips <> None
      /\ defaultIP Examples.remote ips = ("172.17.0.1", true))
  /\ let r := run (DeleteRules Examples.remote 0 "Context" ips "" "" ""
                     "5000" "Proxy-Context") Examples.world0 in
     let names := chainName "Context" 0 in
     r.1 = Ok tt
     /\ calls r.2
        = calls Examples.world0
          ++ deleted (steering_deleted Examples.remote
                        (PuPortSetName "Context" "" PuPortSet)
                        names.1 names.2 "172.17.0.1" "" "" "" "5000"
                        "Proxy-Context")
          ++ chains_removed Examples.remote names.1 names.2
          ++ [IpsetDestroy (getSetNamePair "Proxy-Context").1;
              IpsetDestroy (getSetNamePair "Proxy-Context").2].
Proof.
  intros ips.
  assert (H : mode Examples.remote = LocalServer /\ "172.17.0.1" = ""
              \/ mode Examples.remote <> LocalServer /\ ips <> None
                 /\ defaultIP Examples.remote ips = ("172.17.0.1", true)).
  { right. split; [discriminate|]. split; [discriminate|].
    vm_compute. reflexivity. }
  split; [exact H|].
  exact (@delete_is_best_effort netfilter.Netfilter Examples.remote 0
           "Context" ips "" "" "5000" "Proxy-Context" "172.17.0.1"
           Examples.world0 H).
Defined.

(** X11 on the login session of a user on a host, over the reference
    engine. *)
Lemma delete_for_a_user_depends_on_the_tracker_witness :
  (mode Examples.host = LocalServer /\ "" = ""
   \/ mode Examples.host <> LocalServer /\ (None : ExtendedMap) <> None
      /\ defaultIP Examples.host None = ("", true))
  /\ "1001" <> ""
  /\ let r := run (DeleteRules Examples.host 0 "Context" None "80" "100" "1001"
                     "5000" "Proxy-Context") Examples.world0 in
     let names := chainName "Context" 0 in
     let userSet := PuPortSetName "Context" "100" PuPortSet in
     let cleanup :=
       deleted (steering_deleted Examples.host userSet names.1 names.2 "" "80"
                  "100" "1001" "5000" "Proxy-Context")
       ++ chains_removed Examples.host names.1 names.2
       ++ [IpsetDestroy userSet] in
     if portSetInstance Examples.host then
       (r.1 = Ok tt
        /\ calls r.2
           = calls Examples.world0 ++ cleanup
             ++ [DelUserPortSet "1001" "100";
                 IpsetDestroy (getSetNamePair "Proxy-Context").1;
                 IpsetDestroy (getSetNamePair "Proxy-Context").2])
       \/ (exists e,
              r.1 = Err e
              /\ calls r.2
                 = calls Examples.world0 ++ cleanup
                   ++ [DelUserPortSet "1001" "100"]
              /\ last (trace r.2) = Some (DelUserPortSet "1001" "100", Some e))
     else
       r.1 = Err "enforcer portset instance cannot be nil for host"
       /\ calls r.2 = calls Examples.world0 ++ cleanup.
Proof.
  assert (H : mode Examples.host = LocalServer /\ "" = ""
              \/ mode Examples.host <> LocalServer
                 /\ (None : ExtendedMap) <> None
                 /\ defaultIP Examples.host None = ("", true)).
  { left. split; reflexivity. }
  assert (Hu : "1001" <> "") by discriminate.
  split; [exact H|]. split; [exact Hu|].
  exact (@delete_for_a_user_depends_on_the_tracker netfilter.Netfilter
           Examples.host 0 "Context" None "80" "100" "1001" "5000"
           "Proxy-Context" "" Examples.world0 H Hu).
Defined.

(** X12 on the container of the tests. *)
Lemma steering_is_deleted_as_added_witness :
  (mode Examples.remote <> LocalServer \/ "" = "" \/ "" = "0")
  /\ exists table,
       script (addChainRules Examples.remote "" "TRIREME-App-Context-0"
                 "TRIREME-Net-Context-0" "172.17.0.1" "" "" "" "5000"
                 "Proxy-Context") = appended table
       /\ script (deleteChainRules Examples.remote "" "TRIREME-App-Context-0"
                    "TRIREME-Net-Context-0" "172.17.0.1" "" "" "" "5000"
                    "Proxy-Context") = deleted table.
Proof.
  assert (H : mode Examples.remote <> LocalServer \/ "" = "" \/ "" = "0").
  { left. discriminate. }
  split; [exact H|].
  exact (@steering_is_deleted_as_added Examples.remote ""
           "TRIREME-App-Context-0" "TRIREME-Net-Context-0" "172.17.0.1" "" ""
           "" "5000" "Proxy-Context" H).
Defined.

(** X13 on the login session of a user with one service on a host. *)
Lemma user_service_steering_is_not_deleted_witness :
  mode Examples.host = LocalServer /\ "1001" <> "" /\ "80" <> "0"
  /\ let added := script (addChainRules Examples.host "PUPort-Context100"
                            "TRIREME-App-Context-0" "TRIREME-Net-Context-0" ""
                            "80" "100" "1001" "5000" "Proxy-Context") in
     let removed := script (deleteChainRules Examples.host "PUPort-Context100"
                              "TRIREME-App-Context-0" "TRIREME-Net-Context-0"
                              "" "80" "100" "1001" "5000" "Proxy-Context") in
     added = appended (cgroupChainRules Examples.host "TRIREME-App-Context-0"
                         "TRIREME-Net-Context-0" "100" "80" "1001" "5000"
                         "Proxy-Context")
     /\ removed = deleted (uidChainRules Examples.host "PUPort-Context100"
                             "TRIREME-App-Context-0" "TRIREME-Net-Context-0"
                             "100" "80" "1001" "5000" "Proxy-Context")
     /\ Exists (adds_jump_to "TRIREME-App-Context-0") added
     /\ Exists (adds_jump_to "TRIREME-Net-Context-0") added
     /\ forall table chain spec,
          In (Append table chain spec) added ->
          ~ In (Delete table chain spec) removed.
Proof.
  assert (Hm : mode Examples.host = LocalServer) by reflexivity.
  assert (Hu : "1001" <> "") by discriminate.
  assert (Hp : "80" <> "0") by discriminate.
  split; [exact Hm|]. split; [exact Hu|]. split; [exact Hp|].
  exact (@user_service_steering_is_not_deleted Examples.host
           "PUPort-Context100" "TRIREME-App-Context-0" "TRIREME-Net-Context-0"
           "" "80" "100" "1001" "5000" "Proxy-Context" Hm Hu Hp).
Defined.

End EntryPointFacts.

(** ** The tracker of the supervisor *)

Module TrackerFacts.

Import constants policy supervisor Runs.

Section Tracker.

Context {W : Type} `{I : Implementor W}.

(** What [Unsupervise] leaves of the tracker. *)
Lemma Unsupervise_tracker s contextID w :
  let r := Unsupervise s contextID w in
  mode r.1.2 = mode s
  /\ (versionTracker r.1.2 = versionTracker s
      \/ versionTracker r.1.2 = delete contextID (versionTracker s)).
Proof.
  unfold Unsupervise, cache.Get, cache.Remove.
  destruct (versionTracker s !! contextID) as [cfg|] eqn:Hc; [|cbn; auto].
  destruct (Runtime (containerInfo cfg)) as [rt|]; [|cbn; auto].
  destruct (DeleteRules _ _ _ _ _ _ _ w) as [e w']. cbn. auto.
Qed.

(** [Unsupervise] on an entry with its runtime: no error, the entry gone. *)
Lemma Unsupervise_removes s contextID cfg w :
  versionTracker s !! contextID = Some cfg ->
  is_Some (Runtime (containerInfo cfg)) ->
  let r := Unsupervise s contextID w in
  r.1.1 = None
  /\ r.1.2 = set_versionTracker s (delete contextID (versionTracker s)).
Proof.
  intros Hc [rt Hr]. unfold Unsupervise, cache.Get, cache.Remove.
  rewrite Hc, Hr.
  destruct (DeleteRules _ _ _ _ _ _ _ w) as [e w']. cbn. auto.
Qed.

(** The result of [Supervise] on a valid PU, by the case of the tracker and
    of the answer of the implementor. *)
Lemma Supervise_untracked s contextID pu pol rt w :
  versionTracker s !! contextID = None ->
  PUPolicy_of pu = Some pol -> Runtime pu = Some rt ->
  let r := Supervise s contextID (Some pu) w in
  let a := ConfigureRules 0 contextID pu w in
  r.1.1 = a.1
  /\ match a.1 with
     | None =>
         r.1.2 = set_versionTracker s
                   (<[contextID := created_entry pu pol rt]> (versionTracker s))
         /\ r.2 = a.2
     | Some _ => r.1.2 = set_versionTracker s (versionTracker s)
     end.
Proof.
  intros Hc Hp Hr. unfold Supervise, cache.Get, doCreatePU, cache.AddOrUpdate.
  rewrite Hp, Hr, Hc. cbn [version].
  destruct (ConfigureRules 0 contextID pu w) as [[err|] w1]; cbn [fst snd].
  - pose proof (Unsupervise_removes
                  (set_versionTracker s
                     (<[contextID := created_entry pu pol rt]>
                        (versionTracker s)))
                  contextID (created_entry pu pol rt) w1) as Hu.
    cbn [versionTracker set_versionTracker] in Hu.
    rewrite lookup_insert_eq in Hu.
    specialize (Hu eq_refl (ex_intro _ rt Hr)). cbv zeta in Hu.
    destruct Hu as [_ Hs]. unfold created_entry in Hs.
    destruct (Unsupervise _ contextID w1) as [[e s'] w2]. cbn in *.
    subst s'. split; [reflexivity|]. unfold set_versionTracker. cbn. f_equal.
    rewrite delete_insert_eq. now apply delete_id.
  - auto.
Qed.

Lemma Supervise_tracked s contextID cfg pu pol rt w :
  versionTracker s !! contextID = Some cfg ->
  is_Some (Runtime (containerInfo cfg)) ->
  PUPolicy_of pu = Some pol -> Runtime pu = Some rt ->
  let r := Supervise s contextID (Some pu) w in
  let a := UpdateRules (Z.lxor (version cfg) 1) contextID (Some pu)
             (Some (containerInfo cfg)) w in
  r.1.1 = a.1
  /\ match a.1 with
     | None =>
         r.1.2 = set_versionTracker s
                   (<[contextID := revert cfg 1]> (versionTracker s))
         /\ r.2 = a.2
     | Some _ =>
         r.1.2 = set_versionTracker s (delete contextID (versionTracker s))
     end.
Proof.
  intros Hc Hr0 Hp Hr.
  unfold Supervise, cache.Get, doUpdatePU, cache.LockedModify.
  rewrite Hp, Hr, Hc. cbn [version revert containerInfo].
  destruct (UpdateRules _ contextID (Some pu) (Some (containerInfo cfg)) w)
    as [[err|] w1]; cbn [fst snd].
  - pose proof (Unsupervise_removes
                  (set_versionTracker s
                     (<[contextID := revert cfg 1]> (versionTracker s)))
                  contextID (revert cfg 1) w1) as Hu.
    cbn [versionTracker set_versionTracker] in Hu.
    rewrite lookup_insert_eq in Hu.
    specialize (Hu eq_refl Hr0). cbv zeta in Hu.
    destruct Hu as [_ Hs]. unfold revert in Hs.
    destruct (Unsupervise _ contextID w1) as [[e s'] w2]. cbn in *.
    subst s'. split; [reflexivity|]. unfold set_versionTracker. cbn. f_equal.
    apply delete_insert_eq.
  - auto.
Qed.

Lemma Supervise_invalid s contextID pu w :
  (forall p, pu = Some p -> PUPolicy_of p = None \/ Runtime p = None) ->
  Supervise s contextID pu w = (Some "Invalid PU or policy info", s, w).
Proof.
  intros H. unfold Supervise. destruct pu as [p|]; [|reflexivity].
  destruct (H p eq_refl) as [-> | Hr]; [reflexivity|].
  rewrite Hr. now destruct (PUPolicy_of p).
Qed.

Lemma set_same_tracker s : set_versionTracker s (versionTracker s) = s.
Proof. now destruct s. Qed.

Lemma lxor_1_binary (v : Z) : v = 0 \/ v = 1 -> Z.lxor v 1 = 0 \/ Z.lxor v 1 = 1.
Proof. intros [-> | ->]; cbn; auto. Qed.

(** X14. [Supervise] and [Unsupervise] for one contextID leave every other
    entry of the tracker as it was, and never change the mode, whatever the
    PU is and whatever the implementor answers. *)
Theorem supervise_touches_one_entry :
  forall (s : Config) (contextID other : string) (pu : option PUInfo) (w : W),
    other <> contextID ->
    let r := Supervise s contextID pu w in
    let u := Unsupervise s contextID w in
    versionTracker r.1.2 !! other = versionTracker s !! other
    /\ mode r.1.2 = mode s
    /\ versionTracker u.1.2 !! other = versionTracker s !! other
    /\ mode u.1.2 = mode s.
Proof.
  intros s contextID other pu w Hne r u. subst r u.
  assert (Hu : forall s' w',
             versionTracker (Unsupervise s' contextID w').1.2 !! other
             = versionTracker s' !! other
             /\ mode (Unsupervise s' contextID w').1.2 = mode s').
  { intros s' w'.
    destruct (Unsupervise_tracker s' contextID w') as [Hm [Ht|Ht]];
      rewrite Ht; split; auto. now apply lookup_delete_ne. }
  split; [|split; [|apply Hu]].
  - unfold Supervise. destruct pu as [pu|]; [|reflexivity].
    destruct (PUPolicy_of pu) as [pol|] eqn:Hp; [|reflexivity].
    destruct (Runtime pu) as [rt|] eqn:Hr; [|reflexivity].
    unfold cache.Get.
    destruct (versionTracker s !! contextID) as [cfg|] eqn:Hc.
    + unfold doUpdatePU, cache.LockedModify. rewrite Hc.
      destruct (UpdateRules _ _ _ _ w) as [[err|] w1].
      * specialize (Hu (set_versionTracker s
                          (<[contextID := revert cfg 1]> (versionTracker s)))
                       w1).
        destruct (Unsupervise _ contextID w1) as [[e s'] w2]. cbn in *.
        rewrite (proj1 Hu). now apply lookup_insert_ne.
      * cbn. now apply lookup_insert_ne.
    + unfold doCreatePU, cache.AddOrUpdate. rewrite Hp, Hr.
      destruct (ConfigureRules _ _ _ w) as [[err|] w1].
      * match goal with
        | |- context [Unsupervise ?s' contextID w1] =>
            specialize (Hu s' w1);
            destruct (Unsupervise s' contextID w1) as [[e s''] w2]
        end.
        cbn in *. rewrite (proj1 Hu). now apply lookup_insert_ne.
      * cbn. now apply lookup_insert_ne.
  - unfold Supervise. destruct pu as [pu|]; [|reflexivity].
    destruct (PUPolicy_of pu) as [pol|] eqn:Hp; [|reflexivity].
    destruct (Runtime pu) as [rt|] eqn:Hr; [|reflexivity].
    unfold cache.Get.
    destruct (versionTracker s !! contextID) as [cfg|] eqn:Hc.
    + unfold doUpdatePU, cache.LockedModify. rewrite Hc.
      destruct (UpdateRules _ _ _ _ w) as [[err|] w1].
      * specialize (Hu (set_versionTracker s
                          (<[contextID := revert cfg 1]> (versionTracker s)))
                       w1).
        destruct (Unsupervise _ contextID w1) as [[e s'] w2]. cbn in *.
        now rewrite (proj2 Hu).
      * reflexivity.
    + unfold doCreatePU, cache.AddOrUpdate. rewrite Hp, Hr.
      destruct (ConfigureRules _ _ _ w) as [[err|] w1].
      * match goal with
        | |- context [Unsupervise ?s' contextID w1] =>
            specialize (Hu s' w1);
            destruct (Unsupervise s' contextID w1) as [[e s''] w2]
        end.
        cbn in *. now rewrite (proj2 Hu).
      * reflexivity.
Qed.

(** X15. The tracker stays well formed: when every tracked version is 0 or
    1 and every entry holds a PU with its runtime, the same is true after
    [Supervise] and after [Unsupervise], whatever the PU is and whatever the
    implementor answers.  The tracker of a new supervisor is empty and so
    well formed. *)
Theorem tracker_stays_well_formed :
  forall (s : Config) (contextID : string) (pu : option PUInfo) (w : W),
    well_tracked s ->
    well_tracked (Supervise s contextID pu w).1.2
    /\ well_tracked (Unsupervise s contextID w).1.2
    /\ well_tracked (MkConfig (mode s) ∅).
Proof.
  intros s contextID pu w Hs.
  assert (Hu : forall s' w',
             well_tracked s' -> well_tracked (Unsupervise s' contextID w').1.2).
  { intros s' w' Hs'. unfold well_tracked.
    destruct (Unsupervise_tracker s' contextID w') as [_ [Ht|Ht]]; rewrite Ht.
    - exact Hs'.
    - now apply map_Forall_delete. }
  split; [|split; [now apply Hu|apply map_Forall_empty]].
  destruct pu as [pu|]; [|now rewrite Supervise_invalid].
  destruct (PUPolicy_of pu) as [pol|] eqn:Hp;
    [|rewrite Supervise_invalid; [exact Hs|intros p [= <-]; auto]].
  destruct (Runtime pu) as [rt|] eqn:Hr;
    [|rewrite Supervise_invalid; [exact Hs|intros p [= <-]; auto]].
  destruct (versionTracker s !! contextID) as [cfg|] eqn:Hc.
  - destruct (Hs contextID cfg Hc) as [Hv Hrt].
    destruct (Supervise_tracked s contextID cfg pu pol rt w Hc Hrt Hp Hr)
      as [_ H].
    destruct (UpdateRules _ _ _ _ w).1 as [err|].
    + rewrite H. now apply map_Forall_delete.
    + rewrite (proj1 H). apply map_Forall_insert_2; [|exact Hs].
      split; [now apply lxor_1_binary|exact Hrt].
  - destruct (Supervise_untracked s contextID pu pol rt w Hc Hp Hr) as [_ H].
    destruct (ConfigureRules 0 contextID pu w).1 as [err|].
    + rewrite H. exact Hs.
    + rewrite (proj1 H). apply map_Forall_insert_2; [|exact Hs].
      split; [now left|]. cbn. rewrite Hr. now eexists.
Qed.

(** X16. After [Supervise] on a PU with its policy and runtime, the
    contextID is tracked exactly when [Supervise] returned nil: a failed
    installation and a failed update both leave the contextID untracked, so
    that the next call creates the PU anew. *)
Theorem tracked_exactly_when_nil :
  forall (s : Config) (contextID : string) (pu : PUInfo) (pol : PUPolicy)
         (rt : PURuntime) (w : W),
    well_tracked s ->
    PUPolicy_of pu = Some pol -> Runtime pu = Some rt ->
    let r := Supervise s contextID (Some pu) w in
    (r.1.1 = None -> is_Some (versionTracker r.1.2 !! contextID))
    /\ (r.1.1 <> None -> versionTracker r.1.2 !! contextID = None).
Proof.
  intros s contextID pu pol rt w Hs Hp Hr r. subst r.
  destruct (versionTracker s !! contextID) as [cfg|] eqn:Hc.
  - destruct (Hs contextID cfg Hc) as [Hv Hrt].
    destruct (Supervise_tracked s contextID cfg pu pol rt w Hc Hrt Hp Hr)
      as [He H].
    rewrite He. destruct (UpdateRules _ _ _ _ w).1 as [err|].
    + rewrite H. split; [discriminate|]. intros _. apply lookup_delete_eq.
    + rewrite (proj1 H). split; [|now intros []]. intros _.
      cbn. rewrite lookup_insert_eq. now eexists.
  - destruct (Supervise_untracked s contextID pu pol rt w Hc Hp Hr) as [He H].
    rewrite He. destruct (ConfigureRules 0 contextID pu w).1 as [err|].
    + rewrite H. split; [discriminate|]. intros _. exact Hc.
    + rewrite (proj1 H). split; [|now intros []]. intros _.
      cbn. rewrite lookup_insert_eq. now eexists.
Qed.

(** A [Supervise] that returns nil on a tracked contextID stores the entry
    with its version flipped. *)
Lemma Supervise_flips_the_version s contextID cfg pu w :
  versionTracker s !! contextID = Some cfg ->
  (Supervise s contextID (Some pu) w).1.1 = None ->
  versionTracker (Supervise s contextID (Some pu) w).1.2 !! contextID
  = Some (revert cfg 1).
Proof.
  intros Hc.
  unfold Supervise, cache.Get, doUpdatePU, cache.LockedModify. rewrite Hc.
  destruct (PUPolicy_of pu) as [pol|]; [|discriminate].
  destruct (Runtime pu) as [rt|]; [|discriminate].
  destruct (UpdateRules _ _ _ _ w) as [[err|] w1].
  - destruct (Unsupervise _ contextID w1) as [[e s'] w2]. discriminate.
  - intros _. cbn. apply lookup_insert_eq.
Qed.

(** X17. An update never refreshes what the tracker remembers of the PU:
    after a [Supervise] on a tracked contextID that returns nil, the entry
    has the flipped version and still the address map, the mark, the port
    list, the user and the PU of the creation, whatever the new PU says;
    these are the values that a later [Unsupervise] hands to [DeleteRules]. *)
Theorem update_keeps_the_creation_fields :
  forall (s : Config) (contextID : string) (cfg : cacheData) (pu : PUInfo)
         (w : W),
    versionTracker s !! contextID = Some cfg ->
    let r := Supervise s contextID (Some pu) w in
    r.1.1 = None ->
    versionTracker r.1.2 !! contextID
    = Some (MkCacheData (Z.lxor (version cfg) 1) (ips cfg) (mark cfg)
              (port cfg) (uid cfg) (containerInfo cfg)).
Proof.
  intros s contextID cfg pu w Hc r. subst r.
  unfold Supervise, cache.Get, doUpdatePU, cache.LockedModify. rewrite Hc.
  destruct (PUPolicy_of pu) as [pol|]; [|discriminate].
  destruct (Runtime pu) as [rt|]; [|discriminate].
  destruct (UpdateRules _ _ _ _ w) as [[err|] w1].
  - destruct (Unsupervise _ contextID w1) as [[e s'] w2]. discriminate.
  - intros _. cbn. apply lookup_insert_eq.
Qed.

(** X28. Versions alternate, they do not grow: two updates of a tracked PU
    that both return nil leave its entry exactly as it was before the
    first, with the version it had, so that the second update builds its
    chains under the very names that the first one tore down. *)
Theorem two_updates_restore_the_entry :
  forall (s : Config) (contextID : string) (cfg : cacheData)
         (pu1 pu2 : PUInfo) (w : W),
    versionTracker s !! contextID = Some cfg ->
    let r1 := Supervise s contextID (Some pu1) w in
    let r2 := Supervise r1.1.2 contextID (Some pu2) r1.2 in
    r1.1.1 = None -> r2.1.1 = None ->
    versionTracker r1.1.2 !! contextID = Some (revert cfg 1)
    /\ version (revert cfg 1) <> version cfg
    /\ versionTracker r2.1.2 !! contextID = Some cfg
    /\ iptablesctrl.chainName contextID (version (revert cfg 1))
       <> iptablesctrl.chainName contextID (version cfg).
Proof.
  intros s contextID cfg pu1 pu2 w Hc r1 r2 H1 H2.
  pose proof (Supervise_flips_the_version s contextID cfg pu1 w Hc H1)
    as Hc1.
  fold r1 in Hc1.
  pose proof (Supervise_flips_the_version r1.1.2 contextID
                (revert cfg 1) pu2 r1.2 Hc1 H2) as Hc2.
  fold r2 in Hc2.
  assert (Hv : version (revert cfg 1) <> version cfg).
  { cbn. intros H. apply (f_equal (fun v => Z.testbit v 0)) in H.
    rewrite Z.lxor_spec in H. change (Z.testbit 1 0) with true in H.
    destruct (Z.testbit (version cfg) 0); discriminate H. }
  split; [exact Hc1|]. split; [exact Hv|]. split.
  - rewrite Hc2. f_equal. destruct cfg as [v ? ? ? ? ?]. unfold revert.
    cbn [version ips mark port uid containerInfo].
    now rewrite Z.lxor_assoc, Z.lxor_nilpotent, Z.lxor_0_r.
  - unfold iptablesctrl.chainName. intros H. injection H as H _.
    apply NamingFacts.append_cancel_l, NamingFacts.append_cancel_l,
      NamingFacts.append_cancel_l in H.
    apply Hv. now apply NamingFacts.Itoa_inj.
Qed.

End Tracker.

Section Recorded.

Variable answer : impl_call -> list impl_call -> error.

(** X18. A failed installation is rolled back: when [ConfigureRules]
    returns an error for a contextID that was not tracked, [Supervise]
    returns that very error, the implementor has then received
    [DeleteRules] at version 0 with the port list, the mark and the user
    of the PU, the proxy port of its runtime and the name of its proxy
    sets, and the supervisor is as it was before the call; the answer to
    [DeleteRules] plays no part. *)
Theorem failed_installation_is_rolled_back :
  forall (s : Config) (contextID : string) (pu : PUInfo) (pol : PUPolicy)
         (rt : PURuntime) (w : list impl_call) (err : string),
    versionTracker s !! contextID = None ->
    PUPolicy_of pu = Some pol -> Runtime pu = Some rt ->
    answer (CallConfigureRules 0 contextID pu) w = Some err ->
    Supervise (I := Recorder answer) s contextID (Some pu) w
    = (Some err, s,
       w ++ [CallConfigureRules 0 contextID pu;
             CallDeleteRules 0 contextID
               (ConvertServicesToPortList (Services (Options rt)))
               (CgroupMark (Options rt)) (UserID (Options rt))
               (ProxyPort (Options rt))
               (iptablesctrl.PuPortSetName contextID (CgroupMark (Options rt))
                  "Proxy-")]).
Proof.
  intros s contextID pu pol rt w err Hc Hp Hr Ha.
  rewrite (SupervisorFacts.Supervise_create answer s contextID pu pol rt w
             Hc Hp Hr).
  rewrite Ha. rewrite delete_insert_eq, (delete_id _ _ Hc), set_same_tracker.
  now rewrite <- app_assoc.
Qed.

(** X19. A failed update makes the supervisor forget the PU: when
    [UpdateRules] returns an error, [Supervise] returns that very error,
    the implementor has then received [DeleteRules] at the flipped version,
    the one of the chains that were being built, with the port list, the
    mark and the user that the entry holds since the creation, and the
    contextID is tracked no more.
    No call asks for the removal of the chains of the version that was in
    service. *)
Theorem failed_update_forgets_the_pu :
  forall (s : Config) (contextID : string) (cfg : cacheData) (pu : PUInfo)
         (pol : PUPolicy) (rt rt0 : PURuntime) (w : list impl_call)
         (err : string),
    versionTracker s !! contextID = Some cfg ->
    Runtime (containerInfo cfg) = Some rt0 ->
    PUPolicy_of pu = Some pol -> Runtime pu = Some rt ->
    answer (CallUpdateRules (Z.lxor (version cfg) 1) contextID (Some pu)
              (Some (containerInfo cfg))) w = Some err ->
    Supervise (I := Recorder answer) s contextID (Some pu) w
    = (Some err,
       set_versionTracker s (delete contextID (versionTracker s)),
       w ++ [CallUpdateRules (Z.lxor (version cfg) 1) contextID (Some pu)
               (Some (containerInfo cfg));
             CallDeleteRules (Z.lxor (version cfg) 1) contextID
               (port cfg) (mark cfg) (uid cfg) (ProxyPort (Options rt0))
               (iptablesctrl.PuPortSetName contextID (mark cfg) "Proxy-")]).
Proof.
  intros s contextID cfg pu pol rt rt0 w err Hc Hr0 Hp Hr Ha.
  rewrite (SupervisorFacts.Supervise_update answer s contextID cfg pu pol rt
             rt0 w Hc Hr0 Hp Hr).
  rewrite Ha. rewrite delete_insert_eq. now rewrite <- app_assoc.
Qed.

(** X20. [Unsupervise] on a tracked contextID hands the version, the port
    list, the mark and the user of the entry to [DeleteRules], with the
    proxy port of the runtime and the name of the proxy sets, ignores the
    answer, removes the entry and returns nil; on a contextID that is not
    tracked it returns an error, makes no call and leaves the supervisor as
    it was. *)
Theorem unsupervise_ignores_the_answer :
  forall (s : Config) (contextID : string) (w : list impl_call),
    let r := Unsupervise (I := Recorder answer) s contextID w in
    match versionTracker s !! contextID with
    | Some cfg =>
        forall rt,
          Runtime (containerInfo cfg) = Some rt ->
          r = (None,
               set_versionTracker s (delete contextID (versionTracker s)),
               w ++ [CallDeleteRules (version cfg) contextID
                       (port cfg) (mark cfg) (uid cfg) (ProxyPort (Options rt))
                       (iptablesctrl.PuPortSetName contextID (mark cfg)
                          "Proxy-")])
    | None => r.1.1 <> None /\ r.1.2 = s /\ r.2 = w
    end.
Proof.
  intros s contextID w r. subst r.
  destruct (versionTracker s !! contextID) as [cfg|] eqn:Hc.
  - intros rt Hr.
    now rewrite (SupervisorFacts.Unsupervise_tracked answer s contextID cfg rt
                   w Hc Hr).
  - now rewrite (SupervisorFacts.Unsupervise_untracked answer s contextID w Hc).
Qed.

(** X21. [Supervise] on a new contextID followed by [Unsupervise] is a
    round trip on the supervisor: when the installation is accepted, both
    return nil, the supervisor is again as it was, and the implementor has
    received [ConfigureRules] at version 0 and then [DeleteRules] at
    version 0 with the port list, the mark and the user of the PU. *)
Theorem supervise_then_unsupervise :
  forall (s : Config) (contextID : string) (pu : PUInfo) (pol : PUPolicy)
         (rt : PURuntime) (w : list impl_call),
    versionTracker s !! contextID = None ->
    PUPolicy_of pu = Some pol -> Runtime pu = Some rt ->
    answer (CallConfigureRules 0 contextID pu) w = None ->
    let r := Supervise (I := Recorder answer) s contextID (Some pu) w in
    let u := Unsupervise (I := Recorder answer) r.1.2 contextID r.2 in
    r.1.1 = None
    /\ u = (None, s,
            w ++ [CallConfigureRules 0 contextID pu;
                  CallDeleteRules 0 contextID
                    (ConvertServicesToPortList (Services (Options rt)))
                    (CgroupMark (Options rt)) (UserID (Options rt))
                    (ProxyPort (Options rt))
                    (iptablesctrl.PuPortSetName contextID
                       (CgroupMark (Options rt)) "Proxy-")]).
Proof.
  intros s contextID pu pol rt w Hc Hp Hr Ha r u. subst u r.
  rewrite (SupervisorFacts.Supervise_create answer s contextID pu pol rt w
             Hc Hp Hr).
  rewrite Ha. cbn [fst snd]. split; [reflexivity|].
  rewrite (SupervisorFacts.Unsupervise_tracked answer _ contextID
             (created_entry pu pol rt) rt).
  - cbn [versionTracker set_versionTracker].
    rewrite delete_insert_eq, (delete_id _ _ Hc).
    unfold set_versionTracker. cbn [mode]. rewrite <- app_assoc.
    now destruct s.
  - cbn. apply lookup_insert_eq.
  - exact Hr.
Qed.

End Recorded.

(** X14 on a first call for the container of the tests. *)
Lemma supervise_touches_one_entry_witness :
  let s := Examples.fresh RemoteContainer in
  let I := Recorder (fun _ _ => None) in
  let r := Supervise (I := I) s "Context" (Some Examples.container) [] in
  let u := Unsupervise (I := I) s "Context" [] in
  "Other" <> "Context"
  /\ versionTracker r.1.2 !! "Other" = versionTracker s !! "Other"
  /\ mode r.1.2 = mode s
  /\ versionTracker u.1.2 !! "Other" = versionTracker s !! "Other"
  /\ mode u.1.2 = mode s.
Proof.
  intros s I r u.
  assert (Hne : "Other" <> "Context") by discriminate.
  split; [exact Hne|].
  exact (@supervise_touches_one_entry (list impl_call) I s "Context" "Other"
           (Some Examples.container) [] Hne).
Defined.

(** X15 on a supervisor that tracks the container of the tests. *)
Lemma tracker_stays_well_formed_witness :
  let cfg := created_entry Examples.container Examples.container_policy
               NewPURuntimeWithDefaults in
  let s := MkConfig RemoteContainer {[ "Context" := cfg ]} in
  let I := Recorder (fun _ _ => None) in
  well_tracked s
  /\ well_tracked (Supervise (I := I) s "Context" (Some Examples.process) []).1.2
  /\ well_tracked (Unsupervise (I := I) s "Context" []).1.2
  /\ well_tracked (MkConfig (mode s) ∅).
Proof.
  intros cfg s I.
  assert (Hs : well_tracked s).
  { apply map_Forall_singleton. split; [left; reflexivity|].
    eexists. reflexivity. }
  split; [exact Hs|].
  exact (@tracker_stays_well_formed (list impl_call) I s "Context"
           (Some Examples.process) [] Hs).
Defined.

(** X16 on a supervisor that tracks the container of the tests, with an
    implementor that refuses every call. *)
Lemma tracked_exactly_when_nil_witness :
  let cfg := created_entry Examples.container Examples.container_policy
               NewPURuntimeWithDefaults in
  let s := MkConfig RemoteContainer {[ "Context" := cfg ]} in
  let I := Recorder (fun _ _ => Some "refused") in
  let r := Supervise (I := I) s "Context" (Some Examples.container) [] in
  well_tracked s
  /\ PUPolicy_of Examples.container = Some Examples.container_policy
  /\ Runtime Examples.container = Some NewPURuntimeWithDefaults
  /\ (r.1.1 = None -> is_Some (versionTracker r.1.2 !! "Context"))
  /\ (r.1.1 <> None -> versionTracker r.1.2 !! "Context" = None).
Proof.
  intros cfg s I r.
  assert (Hs : well_tracked s).
  { apply map_Forall_singleton. split; [left; reflexivity|].
    eexists. reflexivity. }
  split; [exact Hs|]. split; [reflexivity|]. split; [reflexivity|].
  exact (@tracked_exactly_when_nil (list impl_call) I s "Context"
           Examples.container Examples.container_policy
           NewPURuntimeWithDefaults [] Hs eq_refl eq_refl).
Defined.

(** X17 on an update of the container of the tests with the PU of a
    process. *)
Lemma update_keeps_the_creation_fields_witness :
  let cfg := created_entry Examples.container Examples.container_policy
               NewPURuntimeWithDefaults in
  let s := MkConfig RemoteContainer {[ "Context" := cfg ]} in
  let I := Recorder (fun _ _ => None) in
  let r := Supervise (I := I) s "Context" (Some Examples.process) [] in
  versionTracker s !! "Context" = Some cfg
  /\ r.1.1 = None
  /\ versionTracker r.1.2 !! "Context"
     = Some (MkCacheData (Z.lxor (version cfg) 1) (ips cfg) (mark cfg)
               (port cfg) (uid cfg) (containerInfo cfg)).
Proof.
  intros cfg s I r.
  assert (Hc : versionTracker s !! "Context" = Some cfg)
    by (vm_compute; reflexivity).
  assert (Hr : r.1.1 = None) by (vm_compute; reflexivity).
  split; [exact Hc|]. split; [exact Hr|].
  exact (@update_keeps_the_creation_fields (list impl_call) I s "Context" cfg
           Examples.process [] Hc Hr).
Defined.

(** X18 on the container of the tests, with an implementor that refuses
    every call. *)
Lemma failed_installation_is_rolled_back_witness :
  let answer : impl_call -> list impl_call -> error :=
    fun _ _ => Some "refused" in
  let s := Examples.fresh RemoteContainer in
  versionTracker s !! "Context" = None
  /\ PUPolicy_of Examples.container = Some Examples.container_policy
  /\ Runtime Examples.container = Some NewPURuntimeWithDefaults
  /\ answer (CallConfigureRules 0 "Context" Examples.container) []
     = Some "refused"
  /\ Supervise (I := Recorder answer) s "Context" (Some Examples.container) []
     = (Some "refused", s,
        [] ++ [CallConfigureRules 0 "Context" Examples.container;
               CallDeleteRules 0 "Context"
                 (ConvertServicesToPortList
                    (Services (Options NewPURuntimeWithDefaults)))
                 (CgroupMark (Options NewPURuntimeWithDefaults))
                 (UserID (Options NewPURuntimeWithDefaults))
                 (ProxyPort (Options NewPURuntimeWithDefaults))
                 (iptablesctrl.PuPortSetName "Context"
                    (CgroupMark (Options NewPURuntimeWithDefaults)) "Proxy-")]).
Proof.
  intros answer s.
  assert (Hc : versionTracker s !! "Context" = None) by reflexivity.
  split; [exact Hc|]. split; [reflexivity|]. split; [reflexivity|].
  split; [reflexivity|].
  exact (@failed_installation_is_rolled_back answer s "Context"
           Examples.container Examples.container_policy
           NewPURuntimeWithDefaults [] "refused" Hc eq_refl eq_refl eq_refl).
Defined.

(** X19 on a supervisor that tracks the container of the tests, with an
    implementor that refuses every call. *)
Lemma failed_update_forgets_the_pu_witness :
  let answer : impl_call -> list impl_call -> error :=
    fun _ _ => Some "refused" in
  let cfg := created_entry Examples.container Examples.container_policy
               NewPURuntimeWithDefaults in
  let s := MkConfig RemoteContainer {[ "Context" := cfg ]} in
  versionTracker s !! "Context" = Some cfg
  /\ Runtime (containerInfo cfg) = Some NewPURuntimeWithDefaults
  /\ PUPolicy_of Examples.container = Some Examples.container_policy
  /\ Runtime Examples.container = Some NewPURuntimeWithDefaults
  /\ answer (CallUpdateRules (Z.lxor (version cfg) 1) "Context"
               (Some Examples.container) (Some (containerInfo cfg))) []
     = Some "refused"
  /\ Supervise (I := Recorder answer) s "Context" (Some Examples.container) []
     = (Some "refused",
        set_versionTracker s (delete "Context" (versionTracker s)),
        [] ++ [CallUpdateRules (Z.lxor (version cfg) 1) "Context"
                 (Some Examples.container) (Some (containerInfo cfg));
               CallDeleteRules (Z.lxor (version cfg) 1) "Context"
                 (port cfg) (mark cfg) (uid cfg)
                 (ProxyPort (Options NewPURuntimeWithDefaults))
                 (iptablesctrl.PuPortSetName "Context" (mark cfg) "Proxy-")]).
Proof.
  intros answer cfg s.
  assert (Hc : versionTracker s !! "Context" = Some cfg)
    by (vm_compute; reflexivity).
  split; [exact Hc|]. split; [reflexivity|]. split; [reflexivity|].
  split; [reflexivity|]. split; [reflexivity|].
  exact (@failed_update_forgets_the_pu answer s "Context" cfg
           Examples.container Examples.container_policy
           NewPURuntimeWithDefaults NewPURuntimeWithDefaults [] "refused"
           Hc eq_refl eq_refl eq_refl eq_refl).
Defined.

(** X21 on the container of the tests, with an implementor that accepts
    every call. *)
Lemma supervise_then_unsupervise_witness :
  let answer : impl_call -> list impl_call -> error := fun _ _ => None in
  let s := Examples.fresh RemoteContainer in
  let r := Supervise (I := Recorder answer) s "Context"
             (Some Examples.container) [] in
  let u := Unsupervise (I := Recorder answer) r.1.2 "Context" r.2 in
  versionTracker s !! "Context" = None
  /\ PUPolicy_of Examples.container = Some Examples.container_policy
  /\ Runtime Examples.container = Some NewPURuntimeWithDefaults
  /\ answer (CallConfigureRules 0 "Context" Examples.container) [] = None
  /\ r.1.1 = None
  /\ u = (None, s,
          [] ++ [CallConfigureRules 0 "Context" Examples.container;
                 CallDeleteRules 0 "Context"
                   (ConvertServicesToPortList
                      (Services (Options NewPURuntimeWithDefaults)))
                   (CgroupMark (Options NewPURuntimeWithDefaults))
                   (UserID (Options NewPURuntimeWithDefaults))
                   (ProxyPort (Options NewPURuntimeWithDefaults))
                   (iptablesctrl.PuPortSetName "Context"
                      (CgroupMark (Options NewPURuntimeWithDefaults))
                      "Proxy-")]).
Proof.
  intros answer s r u.
  assert (Hc : versionTracker s !! "Context" = None) by reflexivity.
  split; [exact Hc|]. split; [reflexivity|]. split; [reflexivity|].
  split; [reflexivity|].
  exact (@supervise_then_unsupervise answer s "Context" Examples.container
           Examples.container_policy NewPURuntimeWithDefaults [] Hc eq_refl
           eq_refl eq_refl).
Defined.

(** X28 on two updates of the container of the tests. *)
Lemma two_updates_restore_the_entry_witness :
  let cfg := created_entry Examples.container Examples.container_policy
               NewPURuntimeWithDefaults in
  let s := MkConfig RemoteContainer {[ "Context" := cfg ]} in
  let I := Recorder (fun _ _ => None) in
  let r1 := Supervise (I := I) s "Context" (Some Examples.process) [] in
  let r2 := Supervise (I := I) r1.1.2 "Context" (Some Examples.container)
              r1.2 in
  versionTracker s !! "Context" = Some cfg
  /\ r1.1.1 = None /\ r2.1.1 = None
  /\ versionTracker r1.1.2 !! "Context" = Some (revert cfg 1)
  /\ version (revert cfg 1) <> version cfg
  /\ versionTracker r2.1.2 !! "Context" = Some cfg
  /\ iptablesctrl.chainName "Context" (version (revert cfg 1))
     <> iptablesctrl.chainName "Context" (version cfg).
Proof.
  intros cfg s I r1 r2.
  assert (Hc : versionTracker s !! "Context" = Some cfg)
    by (vm_compute; reflexivity).
  assert (H1 : r1.1.1 = None) by (vm_compute; reflexivity).
  assert (H2 : r2.1.1 = None) by (vm_compute; reflexivity).
  split; [exact Hc|]. split; [exact H1|]. split; [exact H2|].
  exact (@two_updates_restore_the_entry (list impl_call) I s "Context" cfg
           Examples.process Examples.container [] Hc H1 H2).
Defined.

End TrackerFacts.

(** ** The ACL renderers *)

Module AclFacts.

Import constants policy iptablesctrl Programs ProgramFacts Scripts.
Import ControllerFacts.

Section Acls.

Context `{E : Engine} `{LP : LogPrefixes}.

Lemma flat_map_taken {B : Type} (f : IPRule -> list B) (loop : Z)
    (rules : IPRuleList) :
  (forall rule, skipped loop rule = true -> f rule = []) ->
  flat_map f rules = flat_map f (taken loop rules).
Proof.
  intros H. unfold taken. induction rules as [|rule rules IH]; [reflexivity|].
  cbn [flat_map List.filter]. destruct (skipped loop rule) eqn:Hs; cbn [negb].
  - now rewrite (H rule Hs).
  - cbn [flat_map]. now rewrite IH.
Qed.

Lemma skipped_addAppACL i contextID chain loop rule :
  skipped loop rule = true ->
  script (addAppACL i contextID chain loop rule) = [].
Proof. intros H. unfold addAppACL. now rewrite H. Qed.

Lemma skipped_addNetACL i contextID chain loop rule :
  skipped loop rule = true ->
  script (addNetACL i contextID chain loop rule) = [].
Proof. intros H. unfold addNetACL. now rewrite H. Qed.

Lemma skipped_pass (rule : IPRule) :
  skipped 0 rule = negb (IsObserveContinue (ObserveAction (Policy rule)))
  /\ skipped 1 rule = Observed (ObserveAction (Policy rule))
  /\ skipped 2 rule = negb (IsObserveApply (ObserveAction (Policy rule))).
Proof. repeat split. Qed.

Lemma taken_once (rules : IPRuleList) :
  Permutation (taken 0 rules ++ taken 1 rules ++ taken 2 rules) rules.
Proof.
  unfold taken. induction rules as [|rule rules IH]; [reflexivity|].
  cbn [List.filter].
  destruct (skipped_pass rule) as (-> & -> & ->).
  destruct (ObserveAction (Policy rule)); cbn [IsObserveContinue Observed
    IsObserveApply negb List.app].
  - rewrite <- Permutation_middle. now constructor.
  - now constructor.
  - rewrite app_assoc, <- Permutation_middle, <- app_assoc. now constructor.
Qed.

(** X22. The two ACL renderers make their calls in three passes over the
    rule list, each pass in the order of the list, followed by the four
    default rules: the first pass takes the rules observed with
    [ObserveContinue], the second the rules that are not observed, the
    third the rules observed with [ObserveApply]; every rule is taken by
    exactly one pass.  Whatever the engine answers, the calls made are a
    prefix of this script, and a nil result means that the whole script
    was run and every call accepted. *)
Theorem acls_are_rendered_in_three_passes :
  forall (i : Instance) (contextID chain ip : string) (rules : IPRuleList)
         (w : world),
    let pass (body : Z -> IPRule -> M unit) (loop : Z) :=
      flat_map (fun rule => script (body loop rule)) (taken loop rules) in
    let app := pass (addAppACL i contextID chain) 0
               ++ pass (addAppACL i contextID chain) 1
               ++ pass (addAppACL i contextID chain) 2
               ++ script (appACL_tail i contextID chain) in
    let net := pass (addNetACL i contextID chain) 0
               ++ pass (addNetACL i contextID chain) 1
               ++ pass (addNetACL i contextID chain) 2
               ++ script (netACL_tail i contextID chain) in
    let ra := run (addAppACLs i contextID chain ip rules) w in
    let rn := run (addNetACLs i contextID chain ip rules) w in
    (exists t, trace ra.2 = trace w ++ t
               /\ map fst t `prefix_of` app
               /\ (ra.1 = Ok tt ->
                   map fst t = app /\ Forall (fun ce => ce.2 = None) t))
    /\ (exists t, trace rn.2 = trace w ++ t
                  /\ map fst t `prefix_of` net
                  /\ (rn.1 = Ok tt ->
                      map fst t = net /\ Forall (fun ce => ce.2 = None) t))
    /\ taken 0 rules
       = List.filter (fun r => IsObserveContinue (ObserveAction (Policy r))) rules
    /\ taken 1 rules
       = List.filter (fun r => negb (Observed (ObserveAction (Policy r)))) rules
    /\ taken 2 rules
       = List.filter (fun r => IsObserveApply (ObserveAction (Policy r))) rules
    /\ Permutation (taken 0 rules ++ taken 1 rules ++ taken 2 rules) rules.
Proof.
  intros i contextID chain ip rules w pass app net ra rn.
  assert (Ha : script (addAppACLs i contextID chain ip rules) = app).
  { rewrite (proj1 (script_addAppACLs i contextID chain ip rules)).
    subst app pass. cbn [flat_map]. rewrite app_nil_r, <- !app_assoc.
    rewrite (flat_map_taken _ 0 rules), (flat_map_taken _ 1 rules),
      (flat_map_taken _ 2 rules);
      [reflexivity|intros rule; apply skipped_addAppACL..]. }
  assert (Hn : script (addNetACLs i contextID chain ip rules) = net).
  { rewrite (proj1 (script_addNetACLs i contextID chain ip rules)).
    subst net pass. cbn [flat_map]. rewrite app_nil_r, <- !app_assoc.
    rewrite (flat_map_taken _ 0 rules), (flat_map_taken _ 1 rules),
      (flat_map_taken _ 2 rules);
      [reflexivity|intros rule; apply skipped_addNetACL..]. }
  split; [|split].
  - destruct (run_steady _ w (steady_addAppACLs i contextID chain ip rules))
      as (l & Hl & Hp & Hok).
    exists l. split; [exact Hl|]. rewrite <- Ha. split; [exact Hp|].
    intros Hr. fold ra in Hok. assert (Hr' : is_Ok ra.1 = true) by now rewrite Hr.
    split; [apply Hok, Hr'|].
    destruct (run_strict _ w (strict_addAppACLs i contextID chain ip rules) Hr')
      as (l' & Hl' & Hall).
    rewrite Hl in Hl'. apply app_inv_head in Hl'. now subst l'.
  - destruct (run_steady _ w (steady_addNetACLs i contextID chain ip rules))
      as (l & Hl & Hp & Hok).
    exists l. split; [exact Hl|]. rewrite <- Hn. split; [exact Hp|].
    intros Hr. fold rn in Hok. assert (Hr' : is_Ok rn.1 = true) by now rewrite Hr.
    split; [apply Hok, Hr'|].
    destruct (run_strict _ w (strict_addNetACLs i contextID chain ip rules) Hr')
      as (l' & Hl' & Hall).
    rewrite Hl in Hl'. apply app_inv_head in Hl'. now subst l'.
  - split; [|split; [|split]].
    + unfold taken. apply filter_ext. intros r.
      rewrite (proj1 (skipped_pass r)). apply negb_involutive.
    + unfold taken. apply filter_ext. intros r.
      now rewrite (proj1 (proj2 (skipped_pass r))).
    + unfold taken. apply filter_ext. intros r.
      rewrite (proj2 (proj2 (skipped_pass r))). apply negb_involutive.
    + apply taken_once.
Qed.

Ltac acl_cases :=
  repeat match goal with
         | |- context [if ?b then _ else _] => destruct b
         end.

(** X23. What the renderers make of one ACL rule.  A rule whose action has
    neither or both of the accept and reject bits is ignored without a
    call.  The calls of an accept rule are all appends, those of a reject
    rule are all inserts at the head of the chain; all are on the chain of
    the PU.  A rule observed with [ObserveContinue] only marks and logs:
    none of its calls adds a rule that ends in a jump.  Otherwise, when the
    pass takes the rule, the last call of an accept rule appends the jump
    to [ACCEPT], and the first call of a reject rule inserts the jump to
    [DROP], above which its log rule is inserted afterwards. *)
Theorem acl_rule_kinds :
  forall (i : Instance) (contextID chain : string) (loop : Z) (rule : IPRule),
    let a := script (addAppACL i contextID chain loop rule) in
    let n := script (addNetACL i contextID chain loop rule) in
    let action := accept_or_reject (Action (Policy rule)) in
    let observeContinue := IsObserveContinue (ObserveAction (Policy rule)) in
    (action = Neither -> a = [] /\ n = [])
    /\ (action = IsAccept -> Forall is_Append a /\ Forall is_Append n)
    /\ (action = IsReject ->
        Forall is_Insert_first a /\ Forall is_Insert_first n)
    /\ Forall (on_chain (appAckPacketIPTableContext i) chain) a
    /\ Forall (on_chain (netPacketIPTableContext i) chain) n
    /\ (observeContinue = true ->
        forall target,
          Forall (fun c => ~ ends_in_jump target c) a
          /\ Forall (fun c => ~ ends_in_jump target c) n)
    /\ (observeContinue = false -> skipped loop rule = false ->
        (action = IsAccept ->
         (exists c, last a = Some c /\ ends_in_jump "ACCEPT" c)
         /\ (exists c, last n = Some c /\ ends_in_jump "ACCEPT" c))
        /\ (action = IsReject ->
            (exists c, head a = Some c /\ ends_in_jump "DROP" c)
            /\ (exists c, head n = Some c /\ ends_in_jump "DROP" c))).
Proof.
  intros i contextID chain loop rule a n action observeContinue.
  subst a n action observeContinue. unfold addAppACL, addNetACL, when.
  destruct (accept_or_reject (Action (Policy rule)));
    destruct (IsObserveContinue (ObserveAction (Policy rule)));
    destruct (skipped loop rule);
    destruct (has_Log (Action (Policy rule)));
    destruct (String.eqb (Go.ToLower (RuleProtocol rule)) "udp"
              || String.eqb (Go.ToLower (RuleProtocol rule)) "tcp");
    cbn [orb script bind wrapf do_call ret List.app];
    (split; [intros H; try discriminate H; split; reflexivity
                || (split; repeat constructor)|]);
    (split; [intros H; try discriminate H; split; repeat constructor|]);
    (split; [intros H; try discriminate H; split; repeat constructor|]);
    (split; [repeat constructor|]);
    (split; [repeat constructor|]);
    (split; [intros H; try discriminate H; intros target;
             split; repeat constructor; cbn; discriminate|]);
    (intros H1 H2; try discriminate H1; try discriminate H2;
     split; intros H3; try discriminate H3;
     split; eexists; (split; [reflexivity|reflexivity])).
Qed.





End Acls.

(** The passes on the four rules of the examples, for the renderer of the
    app chain: the rule observed with [ObserveContinue] comes first, as a
    log rule and a marking rule, then the two rules that are not observed,
    then the rule observed with [ObserveApply]. *)
Example acl_passes_on_the_examples :
  map (fun c => match c with
                | Append _ _ spec | Insert _ _ _ spec => last_two spec
                | _ => None
                end)
    (firstn 6 (script (addAppACLs (LP := Examples.prefixes) Examples.remote
                         "Context" "App" "172.17.0.1" Examples.acls)))
  = [ Some ("--nflog-prefix", "Context:shadow:dns");
      Some ("--set-mark", "39");
      Some ("-j", "DROP");
      Some ("-j", "ACCEPT");
      Some ("-j", "DROP");
      Some ("--nflog-prefix", "Context:apply:ping") ].
Proof. vm_compute. reflexivity. Qed.

End AclFacts.

(** ** The exclusion rules *)

Module ExclusionFacts.

Import constants policy iptablesctrl Programs ProgramFacts Scripts.
Import ControllerFacts netfilter.

Lemma insert_first (r : rule) (l : list rule) : insert_at 1 r l = Some (r :: l).
Proof.
  unfold insert_at.
  assert (H : (1 <=? Z.of_nat (length l) + 1) = true) by (apply Z.leb_le; lia).
  now rewrite H.
Qed.

(** One round of [addExclusionACLs] on the reference engine. *)
Lemma run_exclusion_round (i : Instance) (appChain netChain ip e : string)
    (rest : list string) (w : world (E := Netfilter)) (la ln : list rule) :
  (appAckPacketIPTableContext i, appChain)
  <> (netPacketIPTableContext i, netChain) ->
  chains (engine w) !! (appAckPacketIPTableContext i, appChain) = Some la ->
  chains (engine w) !! (netPacketIPTableContext i, netChain) = Some ln ->
  exists w',
    run (addExclusionACLs i appChain netChain ip (e :: rest)) w
    = run (addExclusionACLs i appChain netChain ip rest) w'
    /\ chains (engine w')
       = <[(netPacketIPTableContext i, netChain) := net_exclusion ip e :: ln]>
           (<[(appAckPacketIPTableContext i, appChain)
              := app_exclusion ip e :: la]> (chains (engine w)))
    /\ sets (engine w') = sets (engine w).
Proof.
  intros Hne Ha Hn. unfold addExclusionACLs. cbn [for_each].
  rewrite !run_bind, !run_wrapf, !EntryPointFacts.run_do_call.
  cbn [exec Netfilter step fst snd engine]. rewrite Ha, insert_first.
  cbn [fst snd engine]. rewrite !run_wrapf, !EntryPointFacts.run_do_call.
  cbn [exec Netfilter step fst snd engine set_chains chains].
  rewrite lookup_insert_ne by exact Hne. rewrite Hn, insert_first.
  cbn [fst snd engine run ret]. eexists. split; [reflexivity|].
  split; reflexivity.
Qed.

(** The run of [addExclusionACLs] on the reference engine, when the two
    chains exist. *)
Lemma run_exclusions :
  forall (i : Instance) (appChain netChain ip : string)
         (excluded : list string) (w : world (E := Netfilter))
         (la ln : list rule),
    let ta := (appAckPacketIPTableContext i, appChain) in
    let tn := (netPacketIPTableContext i, netChain) in
    ta <> tn ->
    chains (engine w) !! ta = Some la ->
    chains (engine w) !! tn = Some ln ->
    let r := run (addExclusionACLs i appChain netChain ip excluded) w in
    r.1 = Ok tt
    /\ chains (engine r.2)
       = <[tn := rev (map (net_exclusion ip) excluded) ++ ln]>
           (<[ta := rev (map (app_exclusion ip) excluded) ++ la]>
              (chains (engine w)))
    /\ sets (engine r.2) = sets (engine w).
Proof.
  intros i appChain netChain ip excluded w la ln ta tn Hne. subst ta tn.
  revert w la ln. induction excluded as [|e rest IH]; intros w la ln Ha Hn r;
    subst r.
  - cbn. split; [reflexivity|]. split; [|reflexivity].
    rewrite (insert_id _ _ la Ha). now rewrite (insert_id _ _ ln Hn).
  - destruct (run_exclusion_round i appChain netChain ip e rest w la ln Hne
                Ha Hn) as (w' & Hstep & Hch & Hsets).
    rewrite Hstep.
    specialize (IH w' (app_exclusion ip e :: la) (net_exclusion ip e :: ln)).
    assert (Ha' : chains (engine w') !! (appAckPacketIPTableContext i, appChain)
                  = Some (app_exclusion ip e :: la)).
    { rewrite Hch. rewrite lookup_insert_ne by (intros H; apply Hne; now symmetry).
      apply lookup_insert_eq. }
    assert (Hn' : chains (engine w') !! (netPacketIPTableContext i, netChain)
                  = Some (net_exclusion ip e :: ln)).
    { rewrite Hch. apply lookup_insert_eq. }
    destruct (IH Ha' Hn') as (Hok & Hc & Hs).
    split; [exact Hok|]. split; [|now rewrite Hs].
    rewrite Hc, Hch. cbn [map rev]. rewrite <- !app_assoc. cbn [List.app].
    rewrite (insert_insert_ne _ _ _ _ _ Hne).
    now rewrite !insert_insert_eq.
Qed.

(** X24. On the reference engine, when the two chains of the PU exist,
    [addExclusionACLs] returns nil and puts the exclusion rules at the head
    of the chains, above whatever the chains held: the app chain then
    starts with the rules of the excluded networks, the last network
    first, and so does the net chain; no other chain and no set is
    changed. *)
Theorem exclusions_go_first :
  forall (i : Instance) (appChain netChain ip : string)
         (excluded : list string) (w : world (E := Netfilter))
         (la ln : list rule),
    let ta := (appAckPacketIPTableContext i, appChain) in
    let tn := (netPacketIPTableContext i, netChain) in
    ta <> tn ->
    chains (engine w) !! ta = Some la ->
    chains (engine w) !! tn = Some ln ->
    let r := run (addExclusionACLs i appChain netChain ip excluded) w in
    r.1 = Ok tt
    /\ chains (engine r.2)
       = <[tn := rev (map (net_exclusion ip) excluded) ++ ln]>
           (<[ta := rev (map (app_exclusion ip) excluded) ++ la]>
              (chains (engine w)))
    /\ sets (engine r.2) = sets (engine w).
Proof.
  intros i appChain netChain ip excluded w la ln ta tn Hne Ha Hn.
  exact (run_exclusions i appChain netChain ip excluded w la ln Hne Ha Hn).
Qed.

Section Matching.

Variable within : string -> string -> bool.

Lemma option_34 (options : list Z) :
  existsb (fun k => String.eqb (Go.Itoa k) "34") options
  = existsb (Z.eqb 34) options.
Proof.
  induction options as [|k options IH]; [reflexivity|]. cbn [existsb].
  rewrite IH. f_equal.
  destruct (Z.eqb_spec 34 k) as [<-|Hk]; [reflexivity|].
  apply String.eqb_neq. intros H. apply Hk. symmetry.
  now apply (NamingFacts.Itoa_inj k 34).
Qed.

(** X25. What the two rules of an excluded network match.  Every call of
    [addExclusionACLs] is an insert at position 1 for one excluded network:
    in the app chain, of a rule that matches the packets from the address
    of the PU to that network, whatever their protocol and options; in the
    net chain, of a rule that matches the packets from that network to the
    address of the PU only when they are TCP packets without option 34, the
    authentication option: it matches no packet of another protocol and no
    TCP packet that carries the option. *)
Theorem what_the_exclusion_rules_match :
  forall (i : Instance) (appChain netChain ip : string)
         (excluded : list string) (c : call),
    In c (script (addExclusionACLs i appChain netChain ip excluded)) ->
    exists e spec,
      In e excluded
      /\ (c = Insert (appAckPacketIPTableContext i) appChain 1 spec
          /\ (forall p,
                 rule_matches within spec p
                 = within (pkt_src p) ip && within (pkt_dst p) e)
          \/ c = Insert (netPacketIPTableContext i) netChain 1 spec
             /\ (forall p,
                    rule_matches within spec p
                    = within (pkt_src p) e && within (pkt_dst p) ip
                      && String.eqb (pkt_proto p) "tcp"
                      && negb (existsb (Z.eqb 34) (pkt_tcp_options p)))).
Proof.
  intros i appChain netChain ip excluded c.
  rewrite (proj1 (script_addExclusionACLs i appChain netChain ip excluded)).
  unfold exclusions. rewrite in_flat_map. intros (e & He & [<-|[<-|[]]]).
  - exists e, (app_exclusion ip e). split; [exact He|]. left.
    split; [reflexivity|]. intros p. cbn. now rewrite !andb_true_r.
  - exists e, (net_exclusion ip e). split; [exact He|]. right.
    split; [reflexivity|]. intros p. unfold net_exclusion.
    cbn [rule_matches String.eqb Ascii.eqb Bool.eqb].
    change (Go.Itoa TCPAuthenticationOption) with "34".
    rewrite option_34, String.eqb_sym.
    cbn. now rewrite !andb_true_r, !andb_assoc.
Qed.

End Matching.

(** X24 on two empty chains and two excluded networks. *)
Lemma exclusions_go_first_witness :
  let w : world (E := Netfilter) :=
    MkWorld (E := Netfilter) []
      (MkKernel {[ ("mangle", "App") := []; ("mangle", "Net") := [] ]} ∅ ∅) in
  let i := Examples.remote in
  let excluded := ["10.1.0.0/16"; "10.2.0.0/16"] in
  let ta := (appAckPacketIPTableContext i, "App") in
  let tn := (netPacketIPTableContext i, "Net") in
  let r := run (addExclusionACLs i "App" "Net" "172.17.0.1" excluded) w in
  ta <> tn
  /\ chains (engine w) !! ta = Some []
  /\ chains (engine w) !! tn = Some []
  /\ r.1 = Ok tt
  /\ chains (engine r.2)
     = <[tn := rev (map (net_exclusion "172.17.0.1") excluded) ++ []]>
         (<[ta := rev (map (app_exclusion "172.17.0.1") excluded) ++ []]>
            (chains (engine w)))
  /\ sets (engine r.2) = sets (engine w).
Proof.
  intros w i excluded ta tn r.
  assert (Hne : ta <> tn) by (intros H; discriminate H).
  assert (Ha : chains (engine w) !! ta = Some []) by (vm_compute; reflexivity).
  assert (Hn : chains (engine w) !! tn = Some []) by (vm_compute; reflexivity).
  split; [exact Hne|]. split; [exact Ha|]. split; [exact Hn|].
  exact (@exclusions_go_first i "App" "Net" "172.17.0.1" excluded w [] [] Hne
           Ha Hn).
Defined.

(** X25 on the rule of the net chain for one excluded network. *)
Lemma what_the_exclusion_rules_match_witness :
  let within : string -> string -> bool := String.eqb in
  let i := Examples.remote in
  let c := Insert (netPacketIPTableContext i) "Net" 1
             (net_exclusion "172.17.0.1" "10.1.0.0/16") in
  In c (script (addExclusionACLs i "App" "Net" "172.17.0.1" ["10.1.0.0/16"]))
  /\ exists e spec,
       In e ["10.1.0.0/16"]
       /\ (c = Insert (appAckPacketIPTableContext i) "App" 1 spec
           /\ (forall p,
                  rule_matches within spec p
                  = within (pkt_src p) "172.17.0.1" && within (pkt_dst p) e)
           \/ c = Insert (netPacketIPTableContext i) "Net" 1 spec
              /\ (forall p,
                     rule_matches within spec p
                     = within (pkt_src p) e && within (pkt_dst p) "172.17.0.1"
                       && String.eqb (pkt_proto p) "tcp"
                       && negb (existsb (Z.eqb 34) (pkt_tcp_options p)))).
Proof.
  intros within i c.
  assert (Hc : In c (script (addExclusionACLs i "App" "Net" "172.17.0.1"
                               ["10.1.0.0/16"]))).
  { right. left. reflexivity. }
  split; [exact Hc|].
  exact (@what_the_exclusion_rules_match within i "App" "Net" "172.17.0.1"
           ["10.1.0.0/16"] c Hc).
Defined.

(** C8. The exclusion rules of an excluded network.  Every call of
    [addExclusionACLs] is an insert at position 1, and for every excluded
    network there is one in the app chain and one in the net chain, both
    with the target [ACCEPT].  The rule of the app chain matches every
    packet from the address of the PU to the network, whatever its protocol
    and its options.  The rule of the net chain matches the packets from
    the network to the address of the PU that are TCP packets without
    option 34, the authentication option, and no other packet.  On the
    reference engine, when the two chains exist, the call returns nil and
    both rules are then in their chains above the rules that the chains
    held, below no rule but exclusion rules. *)
Theorem exclusion_rules_accept :
  forall (within : string -> string -> bool) (i : Instance)
         (appChain netChain ip e : string) (excluded : list string),
    In e excluded ->
    let calls := script (addExclusionACLs i appChain netChain ip excluded) in
    let ra := ["-s"; ip; "-d"; e; "-j"; "ACCEPT"] in
    let rn := ["-s"; e; "-d"; ip; "-p"; "tcp"; "!"; "--tcp-option"; "34";
               "-j"; "ACCEPT"] in
    Forall is_Insert_first calls
    /\ In (Insert (appAckPacketIPTableContext i) appChain 1 ra) calls
    /\ In (Insert (netPacketIPTableContext i) netChain 1 rn) calls
    /\ last_two ra = Some ("-j", "ACCEPT")
    /\ last_two rn = Some ("-j", "ACCEPT")
    /\ (forall p,
           rule_matches within ra p
           = within (pkt_src p) ip && within (pkt_dst p) e)
    /\ (forall p,
           rule_matches within rn p
           = within (pkt_src p) e && within (pkt_dst p) ip
             && String.eqb (pkt_proto p) "tcp"
             && negb (existsb (Z.eqb 34) (pkt_tcp_options p)))
    /\ (forall (w : world (E := Netfilter)) (la ln : list rule),
           let ta := (appAckPacketIPTableContext i, appChain) in
           let tn := (netPacketIPTableContext i, netChain) in
           ta <> tn ->
           chains (engine w) !! ta = Some la ->
           chains (engine w) !! tn = Some ln ->
           let r := run (addExclusionACLs i appChain netChain ip excluded) w in
           r.1 = Ok tt
           /\ exists xa xn,
                chains (engine r.2) !! ta = Some (xa ++ la)
                /\ chains (engine r.2) !! tn = Some (xn ++ ln)
                /\ In ra xa /\ In rn xn
                /\ Forall (fun x => exists e', In e' excluded
                                               /\ x = app_exclusion ip e') xa
                /\ Forall (fun x => exists e', In e' excluded
                                               /\ x = net_exclusion ip e') xn).
Proof.
  intros within i appChain netChain ip e excluded He calls ra rn.
  subst calls.
  rewrite (proj1 (script_addExclusionACLs i appChain netChain ip excluded)).
  split; [|split; [|split; [|split; [|split; [|split; [|split]]]]]].
  - unfold exclusions. apply Forall_flat_map. intros e'.
    repeat constructor.
  - unfold exclusions. apply in_flat_map. exists e. split; [exact He|].
    left. reflexivity.
  - unfold exclusions. apply in_flat_map. exists e. split; [exact He|].
    right. left. reflexivity.
  - reflexivity.
  - reflexivity.
  - intros p. cbn. now rewrite !andb_true_r.
  - intros p. subst rn.
    cbn [rule_matches String.eqb Ascii.eqb Bool.eqb].
    rewrite (option_34 (pkt_tcp_options p)), String.eqb_sym.
    cbn. now rewrite !andb_true_r, !andb_assoc.
  - intros w la ln ta tn Hne Ha Hn r.
    destruct (run_exclusions i appChain netChain ip excluded w la ln Hne Ha
                Hn) as (Hok & Hch & _).
    fold r in Hok, Hch. split; [exact Hok|].
    exists (rev (map (app_exclusion ip) excluded)),
      (rev (map (net_exclusion ip) excluded)).
    rewrite Hch. split.
    { rewrite lookup_insert_ne by (intros H; apply Hne; now symmetry).
      apply lookup_insert_eq. }
    split; [apply lookup_insert_eq|].
    split; [rewrite <- in_rev;
            exact (in_map (app_exclusion ip) excluded e He)|].
    split; [rewrite <- in_rev;
            exact (in_map (net_exclusion ip) excluded e He)|].
    split; apply List.Forall_forall; intros x Hx; rewrite <- in_rev in Hx;
      apply in_map_iff in Hx as (e' & <- & He'); now exists e'.
Qed.

(** The theorem on one excluded network and two empty chains. *)
Lemma exclusion_rules_accept_witness :
  let i := Examples.remote in
  let ip := "172.17.0.1" in
  let e := "10.1.0.0/16" in
  let w : world (E := Netfilter) :=
    MkWorld (E := Netfilter) []
      (MkKernel {[ ("mangle", "App") := []; ("mangle", "Net") := [] ]} ∅ ∅) in
  let r := run (addExclusionACLs i "App" "Net" ip [e]) w in
  let p := MkPacket "10.1.0.7" ip "tcp" [] in
  In e [e]
  /\ r.1 = Ok tt
  /\ chains (engine r.2) !! ("mangle", "Net")
     = Some [["-s"; e; "-d"; ip; "-p"; "tcp"; "!"; "--tcp-option"; "34";
              "-j"; "ACCEPT"]]
  /\ rule_matches Examples.within
       ["-s"; e; "-d"; ip; "-p"; "tcp"; "!"; "--tcp-option"; "34";
        "-j"; "ACCEPT"] p
     = Examples.within (pkt_src p) e && Examples.within (pkt_dst p) ip
       && String.eqb (pkt_proto p) "tcp"
       && negb (existsb (Z.eqb 34) (pkt_tcp_options p))
  /\ first_match Examples.within
       (default [] (chains (engine r.2) !! ("mangle", "Net"))) p
     = Some "ACCEPT".
Proof.
  intros i ip e w r p.
  assert (He : In e [e]) by (left; reflexivity).
  destruct (exclusion_rules_accept Examples.within i "App" "Net" ip e [e] He)
    as (_ & _ & _ & _ & _ & _ & Hn & _).
  split; [exact He|]. split; [vm_compute; reflexivity|].
  split; [vm_compute; reflexivity|]. split; [apply Hn|].
  vm_compute. reflexivity.
Defined.

(** C8 fails for the packets that carry the authentication option and for
    those that are not TCP.  One network is excluded for a PU, on the
    reference engine with two empty chains: a TCP packet from the network
    to the address of the PU that carries option 34 matches no rule of the
    net chain, and neither does a UDP packet, while the same TCP packet
    without the option is accepted. *)
Lemma exclusion_skips_authenticated_packets :
  let i := Examples.remote in
  let ip := "172.17.0.1" in
  let e := "10.1.0.0/16" in
  let w : world (E := Netfilter) :=
    MkWorld (E := Netfilter) []
      (MkKernel {[ ("mangle", "App") := []; ("mangle", "Net") := [] ]} ∅ ∅) in
  let r := run (addExclusionACLs i "App" "Net" ip [e]) w in
  let net := default [] (chains (engine r.2) !! ("mangle", "Net")) in
  let authenticated := MkPacket "10.1.0.7" ip "tcp" [2; 34] in
  let plain := MkPacket "10.1.0.7" ip "tcp" [2] in
  let datagram := MkPacket "10.1.0.7" ip "udp" [] in
  r.1 = Ok tt
  /\ Examples.within (pkt_src authenticated) e = true
  /\ Examples.within (pkt_dst authenticated) ip = true
  /\ net = [["-s"; e; "-d"; ip; "-p"; "tcp"; "!"; "--tcp-option"; "34";
             "-j"; "ACCEPT"]]
  /\ first_match Examples.within net plain = Some "ACCEPT"
  /\ first_match Examples.within net authenticated = None
  /\ first_match Examples.within net datagram = None.
Proof. vm_compute. repeat split. Qed.

End ExclusionFacts.

(** ** What the clean-up asks for, against what the installation made *)

Module CleanupFacts.

Import constants policy iptablesctrl Programs ProgramFacts Scripts.
Import ControllerFacts.

Section Cleanup.

Context `{LP : LogPrefixes}.

Lemma new_chains_ack i app net :
  In (NewChain (appAckPacketIPTableContext i) app) (new_chains i app net)
  /\ In (NewChain (netPacketIPTableContext i) net) (new_chains i app net).
Proof.
  unfold new_chains. split; apply in_or_app; right; cbn; auto.
Qed.

Ltac rule_cases :=
  repeat match goal with
         | |- context [if ?b then _ else _] => destruct b
         | |- context [match accept_or_reject ?a with _ => _ end] =>
             destruct (accept_or_reject a)
         end.

Lemma on_chain_addAppACL i contextID chain loop rule :
  Forall (on_chain (appAckPacketIPTableContext i) chain)
    (script (addAppACL i contextID chain loop rule)).
Proof.
  unfold addAppACL, when. rule_cases; cbn; repeat constructor.
Qed.

Lemma on_chain_addNetACL i contextID chain loop rule :
  Forall (on_chain (netPacketIPTableContext i) chain)
    (script (addNetACL i contextID chain loop rule)).
Proof.
  unfold addNetACL, when. rule_cases; cbn; repeat constructor.
Qed.

(** Every chain that [addContainerChain] creates is among those that
    [deleteAllContainerChains] flushes and removes. *)
Lemma created_chains_are_removed i app net c :
  In c (new_chains i app net) ->
  exists t ch,
    c = NewChain t ch
    /\ In (ClearChain t ch) (chains_removed i app net)
    /\ In (DeleteChain t ch) (chains_removed i app net).
Proof.
  unfold new_chains, chains_removed.
  destruct (ModeType_eqb (mode i) LocalContainer); cbn; intros H;
    repeat destruct H as [<-|H]; try contradiction;
    do 2 eexists; (split; [reflexivity|]); cbn; auto 10.
Qed.

Lemma on_chain_housed created table chain c :
  In (NewChain table chain) created -> on_chain table chain c ->
  housed created c.
Proof.
  intros H. destruct c; cbn; try contradiction; now intros [-> ->].
Qed.

(** Every rule that fills the chains of a PU is in a chain that
    [addContainerChain] created. *)
Lemma filling_housed i contextID app net ip pol :
  Forall (housed (new_chains i app net))
    (appended (trapRules i app net)
     ++ script (addAppACLs i contextID app ip (ApplicationACLs pol))
     ++ script (addNetACLs i contextID net ip (NetworkACLs pol))
     ++ exclusions i app net ip (ExcludedNetworks pol)).
Proof.
  destruct (new_chains_ack i app net) as [Ha Hn].
  apply Forall_app_2; [|apply Forall_app_2; [|apply Forall_app_2]].
  - unfold appended, trapRules, new_chains in *.
    destruct (ModeType_eqb (mode i) LocalContainer);
      cbn [List.app map rule_table rule_chain rule_spec nth skipn];
      repeat (apply Forall_cons_2; [cbn; auto 10|]); apply Forall_nil_2.
  - rewrite (proj1 (script_addAppACLs _ _ _ _ _)). apply Forall_app_2.
    + apply Forall_flat_map. intros loop. apply Forall_flat_map. intros rule.
      eapply Forall_impl; [apply on_chain_addAppACL|].
      intros c. now apply on_chain_housed.
    + unfold appACL_tail. cbn [script bind wrapf do_call ret].
      repeat (apply Forall_cons_2; [exact Ha|]). apply Forall_nil_2.
  - rewrite (proj1 (script_addNetACLs _ _ _ _ _)). apply Forall_app_2.
    + apply Forall_flat_map. intros loop. apply Forall_flat_map. intros rule.
      eapply Forall_impl; [apply on_chain_addNetACL|].
      intros c. now apply on_chain_housed.
    + unfold netACL_tail. cbn [script bind wrapf do_call ret].
      repeat (apply Forall_cons_2; [exact Hn|]). apply Forall_nil_2.
  - unfold exclusions. apply Forall_flat_map. intros e.
    apply Forall_cons_2; [exact Ha|]. apply Forall_cons_2; [exact Hn|].
    apply Forall_nil_2.
Qed.

Lemma script_try_seq {A B : Type} (m : M A) (q : M B) :
  script (bind (try m) (fun _ => q)) = script m ++ script q.
Proof.
  rewrite script_bind, script_try. pose proof (outcome_try m) as H.
  now destruct (outcome (try m)).
Qed.

(** The script of [DeleteRules] once the address is resolved and the
    tracker of user port sets, if needed, is there. *)
Lemma script_DeleteRules i version contextID ips port mark uid proxyPort
    proxyPortSetName ip :
  (mode i = LocalServer /\ ip = ""
   \/ mode i <> LocalServer /\ ips <> None /\ defaultIP i ips = (ip, true)) ->
  uid = "" \/ portSetInstance i = true ->
  script (DeleteRules i version contextID ips port mark uid proxyPort
            proxyPortSetName)
  = deleted (steering_deleted i (PuPortSetName contextID mark PuPortSet)
               (chainName contextID version).1 (chainName contextID version).2
               ip port mark uid proxyPort proxyPortSetName)
    ++ chains_removed i (chainName contextID version).1
         (chainName contextID version).2
    ++ (if String.eqb uid "" then []
        else [IpsetDestroy (PuPortSetName contextID mark PuPortSet);
              DelUserPortSet uid mark])
    ++ [IpsetDestroy (getSetNamePair proxyPortSetName).1;
        IpsetDestroy (getSetNamePair proxyPortSetName).2].
Proof.
  intros Hip Hps.
  rewrite (EntryPointFacts.DeleteRules_resolved _ _ _ _ _ _ _ _ _ ip Hip).
  destruct (chainName contextID version) as [app net]. cbn [fst snd].
  rewrite !script_try_seq, script_deleteChainRules,
    script_deleteAllContainerChains.
  f_equal. f_equal. destruct (String.eqb uid "") eqn:Hu; cbn [negb].
  - reflexivity.
  - destruct Hps as [-> | ->]; [discriminate Hu|]. reflexivity.
Qed.

Lemma chainRules_port i app net ip port port' proxyPort name :
  chainRules i app net ip port proxyPort name
  = chainRules i app net ip port' proxyPort name.
Proof. reflexivity. Qed.

Lemma in_appended_deleted rules c :
  In c (appended rules) ->
  exists t ch spec, c = Append t ch spec /\ In (Delete t ch spec) (deleted rules).
Proof.
  unfold appended, deleted. rewrite in_map_iff. intros (cr & <- & Hcr).
  do 3 eexists. split; [reflexivity|].
  apply in_map_iff. now exists cr.
Qed.

(** The script of [DeleteRules] against that of [ConfigureRules], call by
    call: when every call of the clean-up is accepted, each call of the
    installation has its matching request in it. *)
Lemma cleanup_script_covers :
  forall (i : Instance) (version : Z) (contextID : string) (pol : PUPolicy)
         (rt : PURuntime),
    let mark := CgroupMark (Options rt) in
    let uid := UserID (Options rt) in
    let port := ConvertServicesToPortList (Services (Options rt)) in
    let installed := configure_script i version contextID pol rt in
    let cleanup :=
      script (DeleteRules i version contextID (Some (IPAddresses pol)) port
                mark uid (ProxyPort (Options rt))
                (PuPortSetName contextID mark "Proxy-")) in
    (defaultIP i (Some (IPAddresses pol))).2 = true ->
    uid = "" \/ portSetInstance i = true ->
    (if ModeType_eqb (mode i) LocalServer
     then uid = "" \/ port = "0"
     else mark = "") ->
    Forall (undone installed cleanup) installed.
Proof.
  intros i version contextID pol rt mark uid port installed cleanup Hok Hps
    Hcase.
  assert (Hip : mode i = LocalServer /\ "" = ""
                \/ mode i <> LocalServer /\ Some (IPAddresses pol) <> None
                   /\ defaultIP i (Some (IPAddresses pol))
                      = ((defaultIP i (Some (IPAddresses pol))).1, true)).
  { destruct (mode i) eqn:Hm; [right|right|left; auto];
      (split; [discriminate|]); (split; [discriminate|]);
      rewrite <- Hok; apply surjective_pairing. }
  assert (Hd : cleanup
               = deleted (steering steering_deleted i contextID rt
                            (chainName contextID version).1
                            (chainName contextID version).2
                            (defaultIP i (Some (IPAddresses pol))).1)
                 ++ chains_removed i (chainName contextID version).1
                      (chainName contextID version).2
                 ++ (if String.eqb uid "" then []
                     else [IpsetDestroy (PuPortSetName contextID mark PuPortSet);
                           DelUserPortSet uid mark])
                 ++ [IpsetDestroy
                       (getSetNamePair (proxy_set_name i contextID rt)).1;
                     IpsetDestroy
                       (getSetNamePair (proxy_set_name i contextID rt)).2]).
  { subst cleanup. unfold steering, proxy_set_name.
    destruct (ModeType_eqb (mode i) LocalServer) eqn:Hm; cbn [negb].
    - destruct Hip as [[_ _]|[Hne _]];
        [|destruct (mode i); try discriminate Hm; now contradiction Hne].
      rewrite (script_DeleteRules _ _ _ _ _ _ _ _ _ ""); auto.
      + unfold steering_deleted. rewrite Hm. reflexivity.
      + left. split; [|reflexivity]. now destruct (mode i).
    - destruct Hip as [[Hls _]|Hip]; [rewrite Hls in Hm; discriminate Hm|].
      rewrite (script_DeleteRules _ _ _ _ _ _ _ _ _ _ (or_intror Hip) Hps).
      fold mark in Hcase. rewrite Hcase.
      unfold steering_deleted. rewrite Hm. reflexivity. }
  assert (Hsteer : steering steering_added i contextID rt
                     (chainName contextID version).1
                     (chainName contextID version).2
                     (defaultIP i (Some (IPAddresses pol))).1
                   = steering steering_deleted i contextID rt
                       (chainName contextID version).1
                       (chainName contextID version).2
                       (defaultIP i (Some (IPAddresses pol))).1).
  { unfold steering, steering_added, steering_deleted.
    destruct (ModeType_eqb (mode i) LocalServer); cbn [negb]; [|reflexivity].
    fold uid port. destruct Hcase as [-> | ->].
    - cbn. now rewrite orb_true_r.
    - reflexivity. }
  subst installed. unfold configure_script. fold mark uid.
  set (app := (chainName contextID version).1) in *.
  set (net := (chainName contextID version).2) in *.
  set (ip := (defaultIP i (Some (IPAddresses pol))).1) in *.
  assert (Hin : forall c, In c (new_chains i app net) ->
                  In c (new_chains i app net
                        ++ (if ModeType_eqb (mode i) LocalServer
                               && negb (String.eqb uid "")
                            then [createPUPortSet
                                    (PuPortSetName contextID mark PuPortSet);
                                  AddUserPortSet uid
                                    (PuPortSetName contextID mark PuPortSet)
                                    mark]
                            else [])
                        ++ [createProxySets
                              (PublicIPPortPair (ProxiedServices pol))
                              (PrivateIPPortPair (ProxiedServices pol))
                              (proxy_set_name i contextID rt)]
                        ++ appended (steering steering_added i contextID rt
                                       app net ip)
                        ++ appended (trapRules i app net)
                        ++ script (addAppACLs i contextID app ip
                                     (ApplicationACLs pol))
                        ++ script (addNetACLs i contextID net ip
                                     (NetworkACLs pol))
                        ++ exclusions i app net ip (ExcludedNetworks pol)))
    by (intros c Hc; apply in_or_app; now left).
  apply Forall_app_2; [|apply Forall_app_2; [|apply Forall_app_2;
    [|apply Forall_app_2]]].
  - apply Forall_forall. intros c Hc. apply list_elem_of_In in Hc. rewrite Hd.
    destruct (created_chains_are_removed i app net c Hc)
      as (t & ch & -> & Hclear & Hdelete).
    cbn [undone].
    split; apply in_or_app; right; apply in_or_app; left; assumption.
  - destruct (ModeType_eqb (mode i) LocalServer);
      destruct (String.eqb uid "") eqn:Hu; cbn [andb negb];
      try apply Forall_nil_2.
    rewrite Hd, ?Hu.
    apply Forall_cons_2; [|apply Forall_cons_2; [|apply Forall_nil_2]];
      cbn [undone]; apply in_or_app; right; apply in_or_app; right;
      apply in_or_app; left; cbn; auto.
  - rewrite Hd. apply Forall_cons_2; [|apply Forall_nil_2].
    cbn [undone]. split;
      (apply in_or_app; right; apply in_or_app; right; apply in_or_app; right;
       cbn; auto).
  - apply Forall_forall. intros c Hc. apply list_elem_of_In in Hc.
    destruct (in_appended_deleted _ c Hc) as (t & ch & spec & -> & Hdel).
    cbn. right. rewrite Hd, <- Hsteer. apply in_or_app. now left.
  - eapply Forall_impl; [apply (filling_housed i contextID app net ip pol)|].
    intros c Hc. destruct c; cbn in *; try contradiction; auto.
Qed.

(** The sets that [DeleteRules] asks to destroy. *)
Lemma IpsetDestroy_in_DeleteRules i version contextID ips port mark uid
    proxyPort proxyPortSetName ip x :
  (mode i = LocalServer /\ ip = ""
   \/ mode i <> LocalServer /\ ips <> None /\ defaultIP i ips = (ip, true)) ->
  In (IpsetDestroy x)
    (script (DeleteRules i version contextID ips port mark uid proxyPort
               proxyPortSetName)) ->
  x = PuPortSetName contextID mark PuPortSet
  \/ x = (getSetNamePair proxyPortSetName).1
  \/ x = (getSetNamePair proxyPortSetName).2.
Proof.
  intros Hip.
  rewrite (EntryPointFacts.DeleteRules_resolved _ _ _ _ _ _ _ _ _ ip Hip).
  destruct (chainName contextID version) as [app net].
  rewrite !script_try_seq, script_deleteChainRules,
    script_deleteAllContainerChains.
  intros H. apply in_app_or in H as [H|H].
  { unfold deleted in H. apply in_map_iff in H as (cr & Hcr & _).
    discriminate Hcr. }
  apply in_app_or in H as [H|H].
  { unfold chains_removed in H. cbn in H.
    repeat destruct H as [H|H]; try discriminate H; contradiction. }
  destruct (String.eqb uid ""); destruct (portSetInstance i);
    cbn in H; repeat destruct H as [H|H]; try discriminate H;
    try contradiction; injection H as <-; auto.
Qed.

Lemma suffix_after_mark (h mark a b : string) :
  String.length a = String.length b ->
  (h +:+ "") +:+ a = (h +:+ mark) +:+ b -> mark = "".
Proof.
  intros Hlen H. rewrite !NamingFacts.append_assoc in H.
  apply NamingFacts.append_cancel_l in H.
  apply (f_equal String.length) in H.
  rewrite NamingFacts.append_nil_l, NamingFacts.length_append in H.
  destruct mark as [|c mark]; [reflexivity|]. cbn in H. lia.
Qed.

(** X27. The proxy sets of a marked PU outlive it in the container modes.
    There [ConfigureRules] creates the proxy sets under the name built
    with the empty mark, while [Unsupervise] hands to [DeleteRules] the
    name built with the mark of the PU: when the mark is not empty, no
    call of [DeleteRules] asks for the destruction of either set that was
    created. *)
Theorem proxy_sets_outlive_a_marked_container :
  forall (i : Instance) (version : Z) (contextID : string) (pol : PUPolicy)
         (rt : PURuntime) (public private : list string) (n : string),
    let mark := CgroupMark (Options rt) in
    let installed := configure_script i version contextID pol rt in
    let cleanup :=
      script (DeleteRules i version contextID (Some (IPAddresses pol))
                (ConvertServicesToPortList (Services (Options rt))) mark
                (UserID (Options rt)) (ProxyPort (Options rt))
                (PuPortSetName contextID mark "Proxy-")) in
    mode i <> LocalServer ->
    (defaultIP i (Some (IPAddresses pol))).2 = true ->
    mark <> "" ->
    In (createProxySets public private n) installed ->
    n = PuPortSetName contextID "" "Proxy-"
    /\ ~ In (IpsetDestroy (getSetNamePair n).1) cleanup
    /\ ~ In (IpsetDestroy (getSetNamePair n).2) cleanup.
Proof.
  intros i version contextID pol rt public private n mark installed cleanup
    Hm Hok Hmark Hin.
  assert (Hn : n = PuPortSetName contextID "" "Proxy-").
  { subst installed. unfold configure_script, proxy_set_name in Hin.
    assert (Hls : ModeType_eqb (mode i) LocalServer = false)
      by (destruct (mode i); try reflexivity; now contradiction Hm).
    rewrite Hls in Hin. cbn [andb] in Hin.
    apply in_app_or in Hin as [Hin|Hin].
    { destruct (created_chains_are_removed _ _ _ _ Hin) as (t & ch & H & _).
      discriminate H. }
    cbn [List.app] in Hin. destruct Hin as [Hin|Hin];
      [now injection Hin as _ _ <-|].
    exfalso. apply in_app_or in Hin as [Hin|Hin].
    { apply in_appended_deleted in Hin as (t & ch & spec & H & _).
      discriminate H. }
    pose proof (filling_housed i contextID (chainName contextID version).1
                  (chainName contextID version).2
                  (defaultIP i (Some (IPAddresses pol))).1 pol) as Hh.
    rewrite List.Forall_forall in Hh. exact (Hh _ Hin). }
  split; [exact Hn|].
  assert (Hip : mode i = LocalServer
                /\ (defaultIP i (Some (IPAddresses pol))).1 = ""
                \/ mode i <> LocalServer /\ Some (IPAddresses pol) <> None
                   /\ defaultIP i (Some (IPAddresses pol))
                      = ((defaultIP i (Some (IPAddresses pol))).1, true)).
  { right. split; [exact Hm|]. split; [discriminate|].
    rewrite <- Hok. apply surjective_pairing. }
  subst n. unfold getSetNamePair, PuPortSetName in *. cbn [fst snd].
  split; intros H;
    apply (IpsetDestroy_in_DeleteRules _ _ _ _ _ _ _ _ _ _ _ Hip) in H;
    cbn [fst snd getSetNamePair] in H; unfold PuPortSetName, PuPortSet in H;
    destruct H as [H|[H|H]];
    try (NamingFacts.unfold_append; discriminate H);
    rewrite !(NamingFacts.append_assoc "Proxy-") in H;
    apply NamingFacts.append_cancel_l in H;
    try (apply suffix_after_mark in H; [contradiction|reflexivity]).
Qed.

End Cleanup.

(** X26. The clean-up covers the installation of a PU without a user.
    Take a PU without a user whose address resolves and, in the container
    modes, without a mark, and the calls that [ConfigureRules] makes for it
    when all are accepted.  Run [DeleteRules] of the controller at the same
    version with the address map of the policy, the port list and the mark
    of the PU and the name of the proxy sets built with that mark: whatever
    the engine answers, it returns nil, and the calls it has made hold the
    matching request for every call of the installation: every chain
    created is flushed and removed, every steering rule appended is
    deleted, every other rule is in a chain that is removed, and the proxy
    sets are destroyed. *)
Theorem cleanup_covers_installation :
  forall `{E : Engine} `{LP : LogPrefixes} (i : Instance) (version : Z)
         (contextID : string) (pol : PUPolicy) (rt : PURuntime) (w : world),
    let mark := CgroupMark (Options rt) in
    let port := ConvertServicesToPortList (Services (Options rt)) in
    let installed := configure_script i version contextID pol rt in
    let r := run (DeleteRules i version contextID (Some (IPAddresses pol))
                    port mark "" (ProxyPort (Options rt))
                    (PuPortSetName contextID mark "Proxy-")) w in
    UserID (Options rt) = "" ->
    (defaultIP i (Some (IPAddresses pol))).2 = true ->
    mode i = LocalServer \/ mark = "" ->
    r.1 = Ok tt
    /\ exists cleanup,
         calls r.2 = calls w ++ cleanup
         /\ Forall (undone installed cleanup) installed.
Proof.
  intros E LP i version contextID pol rt w mark port installed r Hu Hok Hmark.
  assert (Hip : mode i = LocalServer /\ "" = ""
                \/ mode i <> LocalServer /\ Some (IPAddresses pol) <> None
                   /\ defaultIP i (Some (IPAddresses pol))
                      = ((defaultIP i (Some (IPAddresses pol))).1, true)).
  { destruct (mode i) eqn:Hm; [right|right|left; auto];
      (split; [discriminate|]); (split; [discriminate|]);
      rewrite <- Hok; apply surjective_pairing. }
  assert (Hcase : if ModeType_eqb (mode i) LocalServer
                  then UserID (Options rt) = "" \/ port = "0"
                  else mark = "").
  { destruct Hmark as [-> | Hmark]; [now left|].
    destruct (ModeType_eqb (mode i) LocalServer); [now left|exact Hmark]. }
  pose proof (cleanup_script_covers i version contextID pol rt Hok
                (or_introl Hu) Hcase) as Hcover.
  cbv zeta in Hcover. rewrite Hu in Hcover. fold mark port installed in Hcover.
  destruct Hip as [[Hm _]|Hip].
  - destruct (EntryPointFacts.run_DeleteRules_without_user i version contextID
                (Some (IPAddresses pol)) port mark (ProxyPort (Options rt))
                (PuPortSetName contextID mark "Proxy-") "" w
                (or_introl (conj Hm eq_refl))) as [Hr Hcalls].
    fold r in Hr, Hcalls. split; [exact Hr|].
    eexists. split; [exact Hcalls|].
    rewrite (script_DeleteRules _ _ _ _ _ _ _ _ _ ""
               (or_introl (conj Hm eq_refl)) (or_introl eq_refl)) in Hcover.
    exact Hcover.
  - destruct (EntryPointFacts.run_DeleteRules_without_user i version contextID
                (Some (IPAddresses pol)) port mark (ProxyPort (Options rt))
                (PuPortSetName contextID mark "Proxy-") _ w
                (or_intror Hip)) as [Hr Hcalls].
    fold r in Hr, Hcalls. split; [exact Hr|].
    eexists. split; [exact Hcalls|].
    rewrite (script_DeleteRules _ _ _ _ _ _ _ _ _ _
               (or_intror Hip) (or_introl eq_refl)) in Hcover.
    exact Hcover.
Qed.

Import Examples.

(** X26 on the container of the tests, over the reference engine. *)
Lemma cleanup_covers_installation_witness :
  let i := Examples.remote in
  let pol := Examples.container_policy in
  let rt := NewPURuntimeWithDefaults in
  let w := Examples.container_created.2 in
  let mark := CgroupMark (Options rt) in
  let port := ConvertServicesToPortList (Services (Options rt)) in
  let installed := configure_script i 0 "Context" pol rt in
  let r := run (DeleteRules i 0 "Context" (Some (IPAddresses pol)) port mark
                  "" (ProxyPort (Options rt))
                  (PuPortSetName "Context" mark "Proxy-")) w in
  UserID (Options rt) = ""
  /\ (defaultIP i (Some (IPAddresses pol))).2 = true
  /\ (mode i = LocalServer \/ mark = "")
  /\ r.1 = Ok tt
  /\ exists cleanup,
       calls r.2 = calls w ++ cleanup
       /\ Forall (undone installed cleanup) installed.
Proof.
  intros i pol rt w mark port installed r.
  assert (Hu : UserID (Options rt) = "") by reflexivity.
  assert (Hok : (defaultIP i (Some (IPAddresses pol))).2 = true)
    by (vm_compute; reflexivity).
  assert (Hmark : mode i = LocalServer \/ mark = "") by (right; reflexivity).
  split; [exact Hu|]. split; [exact Hok|]. split; [exact Hmark|].
  exact (@cleanup_covers_installation netfilter.Netfilter Examples.prefixes i
           0 "Context" pol rt w Hu Hok Hmark).
Defined.

(** X27 on a marked PU under the controller of remote containers. *)
Lemma proxy_sets_outlive_a_marked_container_witness :
  let i := Examples.remote in
  let pol := Examples.container_policy in
  let rt := NewPURuntime "sshd" 1 "" None None LinuxProcessPU
              (Some (MkOptions "" "100" "" [MkService 6 22] "5000")) "" in
  let n := PuPortSetName "Context" "" "Proxy-" in
  let mark := CgroupMark (Options rt) in
  let installed := configure_script i 0 "Context" pol rt in
  let cleanup :=
    script (DeleteRules i 0 "Context" (Some (IPAddresses pol))
              (ConvertServicesToPortList (Services (Options rt))) mark
              (UserID (Options rt)) (ProxyPort (Options rt))
              (PuPortSetName "Context" mark "Proxy-")) in
  mode i <> LocalServer
  /\ (defaultIP i (Some (IPAddresses pol))).2 = true
  /\ mark <> ""
  /\ In (createProxySets [] [] n) installed
  /\ n = PuPortSetName "Context" "" "Proxy-"
  /\ ~ In (IpsetDestroy (getSetNamePair n).1) cleanup
  /\ ~ In (IpsetDestroy (getSetNamePair n).2) cleanup.
Proof.
  intros i pol rt n mark installed cleanup.
  assert (Hm : mode i <> LocalServer) by discriminate.
  assert (Hok : (defaultIP i (Some (IPAddresses pol))).2 = true)
    by (vm_compute; reflexivity).
  assert (Hmark : mark <> "") by discriminate.
  assert (Hin : In (createProxySets [] [] n) installed).
  { vm_compute. right. right. left. reflexivity. }
  split; [exact Hm|]. split; [exact Hok|]. split; [exact Hmark|].
  split; [exact Hin|].
  exact (@proxy_sets_outlive_a_marked_container Examples.prefixes i 0
           "Context" pol rt [] [] n Hm Hok Hmark Hin).
Defined.

(** C9 on the login session of a user with a service, on a host, over the
    reference engine.  The PU is supervised and unsupervised; both calls
    return nil and the contextID is tracked no more.  Yet the two chains of
    the PU are still there, empty, with the rules of the host that jump to
    them, and so are the two proxy sets of the PU: [addChainRules] appended
    the cgroup rules of the PU, since it has a service, and
    [deleteChainRules] asked for the deletion of its uid rules, since it has
    a user; the jumps stay, so the chains cannot be removed, and the proxy
    rules stay, so the sets cannot be destroyed.  The same session without a
    service, for which both functions pick the uid rules, leaves the packet
    filter exactly as it was before. *)
Theorem user_with_services_is_left_behind :
  let I := supervisor.Controller Examples.host Examples.addresses in
  let round (pu : PUInfo) :=
    let r0 := supervisor.Supervise (I := I) (Examples.fresh LocalServer)
                "Context" (Some pu) Examples.world0 in
    (r0.1.1,
     supervisor.Unsupervise (I := I) r0.1.2 "Context" r0.2) in
  let idle :=
    MkPUInfo "Context" (Some Examples.container_policy)
      (Some (NewPURuntime "alice" 1 "" None None UIDLoginPU
               (Some (MkOptions "" "100" "1001" [] "5000")) "")) in
  let r := round Examples.login in
  let k := engine r.2.2 in
  let names := chainName "Context" 0 in
  r.1 = None /\ r.2.1.1 = None
  /\ supervisor.versionTracker r.2.1.2 !! "Context" = None
  /\ names = ("TRIREME-App-ContrU4gZA-0", "TRIREME-Net-ContrU4gZA-0")
  /\ netfilter.chains k !! ("mangle", names.1) = Some []
  /\ netfilter.chains k !! ("mangle", names.2) = Some []
  /\ netfilter.chains k !! ("mangle", "INPUT")
     = Some [["-p"; "tcp"; "-m"; "multiport"; "--destination-ports"; "80";
              "-m"; "comment"; "--comment"; "Container-specific-chain";
              "-j"; names.2]]
  /\ netfilter.chains k !! ("mangle", "POSTROUTING")
     = Some [["-m"; "cgroup"; "--cgroup"; "100"; "-m"; "comment";
              "--comment"; "Server-specific-chain"; "-j"; "MARK";
              "--set-mark"; "100"];
             ["-m"; "cgroup"; "--cgroup"; "100"; "-m"; "comment";
              "--comment"; "Server-specific-chain"; "-j"; names.1]]
  /\ elements (netfilter.sets k)
     = ["TargetNetSet"; "Proxy-ContrU4g100-src"; "Proxy-ContrU4g100-dst"]
  /\ (round idle).1 = None /\ (round idle).2.1.1 = None
  /\ engine (round idle).2.2 = engine Examples.world0.
Proof. vm_compute. repeat split. Qed.

End CleanupFacts.

(** ** The lengths of the names *)

Module NameLengthFacts.

Import iptablesctrl Naming.

Lemma length_slice_to (n : nat) (s : string) :
  String.length (Go.slice_to n s) = Nat.min n (String.length s).
Proof.
  unfold Go.slice_to. revert n. induction s as [|c s IH]; intros [|n]; cbn;
    try reflexivity.
  now rewrite IH.
Qed.

Lemma hash4_length (contextID : string) :
  String.length (Go.slice_to 4 (Go.URLEncodeToString (Go.md5_sum contextID)))
  = 4%nat.
Proof.
  unfold Go.md5_sum.
  set (st := fold_left Go.md5_block _ _).
  cbn [Go.le_bytes app]. reflexivity.
Qed.

Lemma length_hashed_id (n : nat) (contextID : string) :
  String.length (hashed_id n contextID)
  = (Nat.min 4 (String.length contextID)
     + String.length (Go.slice_to n (Go.URLEncodeToString
                                       (Go.md5_sum contextID))))%nat.
Proof.
  unfold hashed_id, Go.len.
  destruct (4 <? Z.of_nat (String.length contextID)) eqn:H;
    rewrite NamingFacts.length_append; f_equal.
  - rewrite length_slice_to. apply Z.ltb_lt in H. lia.
  - apply Z.ltb_ge in H. lia.
Qed.

Lemma length_Itoa_digit (v : Z) :
  0 <= v <= 9 -> String.length (Go.Itoa v) = 1%nat.
Proof.
  intros H.
  assert (Hv : v = 0 \/ v = 1 \/ v = 2 \/ v = 3 \/ v = 4 \/ v = 5 \/ v = 6
               \/ v = 7 \/ v = 8 \/ v = 9) by lia.
  repeat destruct Hv as [-> | Hv]; try reflexivity. now subst v.
Qed.

(** X29. The names are short.  A chain name has 20 characters plus the
    first four at most of the contextID, so at most 24 whatever the length
    of the contextID, for every version of one digit (the tracked versions
    are 0 and 1); the name of a port set has the length of its prefix and
    of the mark plus 4, plus the first four characters at most of the
    contextID. *)
Theorem names_are_short :
  forall (contextID mark setPrefix : string) (version : Z),
    0 <= version <= 9 ->
    let kept := Nat.min 4 (String.length contextID) in
    String.length (chainName contextID version).1 = (20 + kept)%nat
    /\ String.length (chainName contextID version).2 = (20 + kept)%nat
    /\ (String.length (chainName contextID version).1 <= 24)%nat
    /\ String.length (PuPortSetName contextID mark setPrefix)
       = (String.length setPrefix + kept + 4 + String.length mark)%nat.
Proof.
  intros contextID mark setPrefix version Hv kept. subst kept.
  unfold chainName, PuPortSetName. cbn [fst snd].
  rewrite !NamingFacts.length_append, !length_hashed_id, hash4_length,
    (length_Itoa_digit version Hv).
  fold (hash6 contextID). rewrite NamingFacts.hash6_length.
  change (String.length appChainPrefix) with 12%nat.
  change (String.length netChainPrefix) with 12%nat.
  change (String.length "-") with 1%nat.
  repeat split; lia.
Qed.

(** X29 on a long contextID at version 1. *)
Lemma names_are_short_witness :
  let contextID := "5f6e4a2c9b1d" in
  let kept := Nat.min 4 (String.length contextID) in
  0 <= 1 <= 9
  /\ String.length (chainName contextID 1).1 = (20 + kept)%nat
  /\ String.length (chainName contextID 1).2 = (20 + kept)%nat
  /\ (String.length (chainName contextID 1).1 <= 24)%nat
  /\ String.length (PuPortSetName contextID "100" "Proxy-")
     = (String.length "Proxy-" + kept + 4 + String.length "100")%nat.
Proof.
  intros contextID kept.
  assert (Hv : 0 <= 1 <= 9) by lia.
  split; [exact Hv|].
  exact (@names_are_short contextID "100" "Proxy-" 1 Hv).
Defined.

End NameLengthFacts.

(** ** The teardown of a PU *)

Module TeardownFacts.

Import constants policy iptablesctrl supervisor Programs ProgramFacts Scripts.
Import ControllerFacts Runs.

(** The calls of [DeleteRules] once the address is resolved, whatever the
    user of the PU and whatever the engine answers: the deletion of every
    steering rule and the six flushes and removals of the two chains come
    first. *)
Lemma calls_DeleteRules_resolved `{E : Engine} `{LP : LogPrefixes}
    (i : Instance) version contextID ips port mark uid proxyPort
    proxyPortSetName ip (w : world) :
  (iptablesctrl.mode i = LocalServer /\ ip = ""
   \/ iptablesctrl.mode i <> LocalServer /\ ips <> None
      /\ defaultIP i ips = (ip, true)) ->
  exists rest,
    calls (run (iptablesctrl.DeleteRules i version contextID ips port mark uid
                  proxyPort proxyPortSetName) w).2
    = calls w
      ++ deleted (steering_deleted i (PuPortSetName contextID mark PuPortSet)
                    (chainName contextID version).1
                    (chainName contextID version).2 ip port mark uid proxyPort
                    proxyPortSetName)
      ++ chains_removed i (chainName contextID version).1
           (chainName contextID version).2
      ++ rest.
Proof.
  intros Hip.
  rewrite (EntryPointFacts.DeleteRules_resolved _ _ _ _ _ _ _ _ _ ip Hip).
  destruct (chainName contextID version) as [app net]. cbn [fst snd].
  rewrite !EntryPointFacts.run_try_seq.
  match goal with
  | |- context [run ?m (run ?d2 (run ?d1 w).2).2] =>
      destruct (run_extends m (run d2 (run d1 w).2).2) as [l Hl]
  end.
  exists (map fst l). unfold calls at 1. rewrite Hl, map_app.
  fold (calls (run (deleteAllContainerChains i app net)
                 (run (deleteChainRules i
                         (PuPortSetName contextID mark PuPortSet) app net ip
                         port mark uid proxyPort proxyPortSetName) w).2).2).
  rewrite (EntryPointFacts.calls_run_unfailing _ _
             (unfailing_deleteAllContainerChains _ _ _)).
  rewrite (EntryPointFacts.calls_run_unfailing _ _
             (unfailing_deleteChainRules _ _ _ _ _ _ _ _ _ _)).
  rewrite script_deleteChainRules, script_deleteAllContainerChains.
  now rewrite <- !app_assoc.
Qed.

(** C6. [Unsupervise] on a contextID that the supervisor tracks is best
    effort: whatever the implementor is and whatever its [DeleteRules]
    answers, [DeleteRules] is called with the fields of the entry, the
    entry is then removed from the tracker and the result is nil.  With the
    controller as the implementor, once the address of the PU is resolved,
    the deletion of every steering rule and the flush and removal of the
    two chains are all asked for, whatever the engine answers to each.  On
    a contextID that is not tracked [Unsupervise] returns an error and does
    nothing. *)
Theorem Unsupervise_is_best_effort :
  forall {W : Type} (I : Implementor W) `{E : Engine} `{LP : LogPrefixes}
         (i : Instance) (addresses : string -> ExtendedMap) (s : Config)
         (contextID : string),
    match versionTracker s !! contextID with
    | Some cfg =>
        forall rt,
          Runtime (containerInfo cfg) = Some rt ->
          let forgotten :=
            set_versionTracker s (delete contextID (versionTracker s)) in
          let proxyPort := ProxyPort (Options rt) in
          let name := PuPortSetName contextID (mark cfg) "Proxy-" in
          (forall w : W,
              Unsupervise (I := I) s contextID w
              = (None, forgotten,
                 (supervisor.DeleteRules (Implementor := I) (version cfg) contextID
                    (port cfg) (mark cfg) (uid cfg) proxyPort name w).2))
          /\ (forall (w : world) (ip : string),
                 let r := Unsupervise (I := Controller i addresses) s
                            contextID w in
                 let names := chainName contextID (version cfg) in
                 (iptablesctrl.mode i = LocalServer /\ ip = ""
                  \/ iptablesctrl.mode i <> LocalServer /\ addresses contextID <> None
                     /\ defaultIP i (addresses contextID) = (ip, true)) ->
                 r.1.1 = None /\ r.1.2 = forgotten
                 /\ exists rest,
                      calls r.2
                      = calls w
                        ++ deleted (steering_deleted i
                                      (PuPortSetName contextID (mark cfg)
                                         PuPortSet)
                                      names.1 names.2 ip (port cfg) (mark cfg)
                                      (uid cfg) proxyPort name)
                        ++ chains_removed i names.1 names.2
                        ++ rest)
    | None =>
        forall w : W,
          let r := Unsupervise (I := I) s contextID w in
          r.1.1 <> None /\ r.1.2 = s /\ r.2 = w
    end.
Proof.
  intros W I E LP i addresses s contextID.
  destruct (versionTracker s !! contextID) as [cfg|] eqn:Hc.
  - intros rt Hr forgotten proxyPort name. split.
    + intros w. unfold Unsupervise, cache.Get, cache.Remove.
      rewrite Hc, Hr. fold proxyPort name.
      now destruct (DeleteRules _ _ _ _ _ _ _ w) as [e w'].
    + intros w ip r names Hip. subst r.
      unfold Unsupervise, cache.Get, cache.Remove. rewrite Hc, Hr.
      cbn [DeleteRules Controller]. fold proxyPort name.
      destruct (calls_DeleteRules_resolved i (version cfg) contextID
                  (addresses contextID) (port cfg) (mark cfg) (uid cfg)
                  proxyPort name ip w Hip) as [rest Hrest].
      destruct (run _ w) as [res w'] eqn:Hrun. cbn [fst snd] in *.
      split; [reflexivity|]. split; [reflexivity|]. now exists rest.
  - intros w r. subst r. unfold Unsupervise, cache.Get. rewrite Hc. cbn.
    split; [discriminate|]. auto.
Qed.

(** C6 fails on a contextID that is not tracked: the container of the
    tests is supervised and then unsupervised twice, against an implementor
    that accepts every call; the second [Unsupervise] returns an error and
    makes no call. *)
Lemma Unsupervise_twice_returns_an_error :
  let I := Recorder (fun _ _ => None) in
  let r0 := Supervise (I := I) (Examples.fresh RemoteContainer) "Context"
              (Some Examples.container) [] in
  let r1 := Unsupervise (I := I) r0.1.2 "Context" r0.2 in
  let r2 := Unsupervise (I := I) r1.1.2 "Context" r1.2 in
  r0.1.1 = None /\ r1.1.1 = None
  /\ r2.1.1 = Some "cannot find policy version: not found"
  /\ r2.2 = r1.2.
Proof. vm_compute. repeat split. Qed.

End TeardownFacts.

(** ** The version of a PU across policy updates *)

Module VersionFacts.

Import constants policy iptablesctrl supervisor Programs ProgramFacts Scripts.
Import Hitless ControllerFacts Runs.

Lemma lxor_1_differs (v : Z) : Z.lxor v 1 <> v.
Proof.
  intros H. apply (f_equal (fun x => Z.testbit x 0)) in H.
  rewrite Z.lxor_spec in H. change (Z.testbit 1 0) with true in H.
  destruct (Z.testbit v 0); discriminate H.
Qed.

(** C4. The tracked version of a PU alternates: a policy update of a PU
    tracked at version [v] works at [v] with its low bit flipped, which is
    never [v], is 1 for 0 and 0 for 1, and is the version tracked after an
    update that returns no error.  Whatever the engine answers, the calls
    of the update come in three parts: calls of the build of the chains of
    the new version, then calls of the removal of the previous version,
    then, after an error only, calls of the rollback.  The second part is
    empty unless the whole build was run and accepted; the build only
    creates chains and adds rules; the removal flushes and removes no chain
    but those of the previous version. *)
Theorem version_flips_and_build_comes_first :
  forall `{E : Engine} `{LP : LogPrefixes} (i : Instance)
         (addresses : string -> ExtendedMap) (s : Config)
         (contextID cid : string) (pol : PUPolicy) (rt : PURuntime)
         (w : world) (cfg : cacheData),
    versionTracker s !! contextID = Some cfg ->
    let v := version cfg in
    let r := Supervise (I := Controller i addresses) s contextID
               (Some (MkPUInfo cid (Some pol) (Some rt))) w in
    let build := update_build i (Z.lxor v 1) contextID pol rt in
    let teardown := update_teardown i (Z.lxor v 1) contextID pol rt in
    let old := chainName contextID v in
    Z.lxor v 1 <> v
    /\ (v = 0 -> Z.lxor v 1 = 1)
    /\ (v = 1 -> Z.lxor v 1 = 0)
    /\ (r.1.1 = None ->
        version <$> versionTracker r.1.2 !! contextID = Some (Z.lxor v 1))
    /\ (exists t1 t2 t3,
           trace r.2 = trace w ++ t1 ++ t2 ++ t3
           /\ map fst t1 `prefix_of` build
           /\ map fst t2 `prefix_of` teardown
           /\ (t2 <> [] ->
               map fst t1 = build /\ Forall (fun ce => ce.2 = None) t1)
           /\ (r.1.1 = None ->
               map fst t1 = build /\ map fst t2 = teardown /\ t3 = []))
    /\ Forall installs build
    /\ Forall (tears_down [old.1; old.2]) teardown.
Proof.
  intros E LP i addresses s contextID cid pol rt w cfg Hc v r build teardown
    old.
  split; [apply lxor_1_differs|].
  split; [now intros ->|]. split; [now intros ->|].
  assert (Hrun : (r.1.1 = None ->
                  version <$> versionTracker r.1.2 !! contextID
                  = Some (Z.lxor v 1))
                 /\ exists t1 t2 t3,
                      trace r.2 = trace w ++ t1 ++ t2 ++ t3
                      /\ map fst t1 `prefix_of` build
                      /\ map fst t2 `prefix_of` teardown
                      /\ (t2 <> [] ->
                          map fst t1 = build
                          /\ Forall (fun ce => ce.2 = None) t1)
                      /\ (r.1.1 = None ->
                          map fst t1 = build /\ map fst t2 = teardown
                          /\ t3 = [])).
  { subst r. unfold Supervise, doUpdatePU, cache.Get, cache.LockedModify.
    cbn [PUPolicy_of Runtime]. rewrite Hc.
    cbn [UpdateRules Controller version revert]. fold v.
    destruct (EntryPointFacts.run_UpdateRules_phases i (Z.lxor v 1) contextID
                cid pol rt (Some (containerInfo cfg)) w)
      as (t1 & t2 & Ht & Hp1 & Hp2 & Hb & Hd).
    fold build teardown in Hp1, Hp2, Hb, Hd.
    destruct (run _ w) as [[[]|err] w1] eqn:Hrun; cbn [error_of fst snd] in *.
    - split; [intros _; cbn; now rewrite lookup_insert_eq|].
      exists t1, t2, []. rewrite app_nil_r. split; [exact Ht|].
      split; [exact Hp1|]. split; [exact Hp2|]. split.
      + intros H. apply Hb. now left.
      + intros _. split; [apply Hb; now right|]. split; [now apply Hd|].
        reflexivity.
    - assert (Hu : exists t3,
                 trace (Unsupervise (I := Controller i addresses)
                          (set_versionTracker s
                             (<[contextID := revert cfg 1]> (versionTracker s)))
                          contextID w1).2
                 = trace w1 ++ t3).
      { unfold Unsupervise, cache.Get, cache.Remove.
        cbn [versionTracker set_versionTracker].
        rewrite lookup_insert_eq. cbn [revert containerInfo].
        destruct (Runtime (containerInfo cfg)) as [rt0|];
          [|exists []; cbn; now rewrite app_nil_r].
        cbn [DeleteRules Controller].
        match goal with
        | |- context [run ?m w1] => destruct (run_extends m w1) as [l Hl]
        end.
        destruct (run _ w1) as [res w2]. cbn [fst snd] in *. now exists l. }
      destruct Hu as [t3 Ht3].
      destruct (Unsupervise _ contextID w1) as [[e s'] w2].
      cbn [fst snd] in *. split; [discriminate|].
      exists t1, t2, t3. rewrite Ht3, Ht, <- !app_assoc.
      split; [reflexivity|]. split; [exact Hp1|]. split; [exact Hp2|]. split.
      + intros H. apply Hb. now left.
      + discriminate. }
  destruct Hrun as [Hv Hparts]. split; [exact Hv|]. split; [exact Hparts|].
  split.
  - unfold build, update_build. apply Forall_app_2.
    + apply EntryPointFacts.installs_rendered.
    + apply EntryPointFacts.installs_appended.
  - unfold teardown, update_teardown, old.
    rewrite UpdateFacts.lxor_1_1.
    apply Forall_app_2; [apply EntryPointFacts.tears_down_deleted|].
    apply Forall_app_2; [repeat constructor|].
    apply EntryPointFacts.tears_down_chains_removed.
Qed.

Import Examples.

(** The theorem on the second call for the container of the tests, over
    the reference engine. *)
Lemma version_flips_and_build_comes_first_witness :
  let s := Examples.container_created.1.2 in
  let w := Examples.container_created.2 in
  let cfg := created_entry Examples.container Examples.container_policy
               NewPURuntimeWithDefaults in
  let i := Examples.remote in
  let pol := Examples.container_policy in
  let rt := NewPURuntimeWithDefaults in
  let v := version cfg in
  let r := Supervise (I := Controller i Examples.addresses) s "Context"
             (Some (MkPUInfo "Context" (Some pol) (Some rt))) w in
  let build := update_build i (Z.lxor v 1) "Context" pol rt in
  let teardown := update_teardown i (Z.lxor v 1) "Context" pol rt in
  let old := chainName "Context" v in
  versionTracker s !! "Context" = Some cfg
  /\ r.1.1 = None
  /\ Z.lxor v 1 <> v
  /\ (v = 0 -> Z.lxor v 1 = 1)
  /\ (v = 1 -> Z.lxor v 1 = 0)
  /\ (r.1.1 = None ->
      version <$> versionTracker r.1.2 !! "Context" = Some (Z.lxor v 1))
  /\ (exists t1 t2 t3,
         trace r.2 = trace w ++ t1 ++ t2 ++ t3
         /\ map fst t1 `prefix_of` build
         /\ map fst t2 `prefix_of` teardown
         /\ (t2 <> [] ->
             map fst t1 = build /\ Forall (fun ce => ce.2 = None) t1)
         /\ (r.1.1 = None ->
             map fst t1 = build /\ map fst t2 = teardown /\ t3 = []))
  /\ Forall installs build
  /\ Forall (tears_down [old.1; old.2]) teardown.
Proof.
  intros s w cfg i pol rt v r build teardown old.
  assert (Hc : versionTracker s !! "Context" = Some cfg)
    by (vm_compute; reflexivity).
  split; [exact Hc|]. split; [vm_compute; reflexivity|].
  exact (@version_flips_and_build_comes_first netfilter.Netfilter
           Examples.prefixes i Examples.addresses s "Context" "Context" pol rt
           w cfg Hc).
Defined.

(** C4 fails on the second update: the container of the tests is created
    and updated twice over the reference engine, every call returning nil;
    the tracked version goes from 0 to 1 and then from 1 back to 0, which
    is not larger. *)
Lemma second_update_lowers_the_version :
  let I := Controller Examples.remote Examples.addresses in
  let r0 := Examples.container_created in
  let r1 := Supervise (I := I) r0.1.2 "Context" (Some Examples.container)
              r0.2 in
  let r2 := Supervise (I := I) r1.1.2 "Context" (Some Examples.container)
              r1.2 in
  r0.1.1 = None /\ r1.1.1 = None /\ r2.1.1 = None
  /\ version <$> versionTracker r0.1.2 !! "Context" = Some 0
  /\ version <$> versionTracker r1.1.2 !! "Context" = Some 1
  /\ version <$> versionTracker r2.1.2 !! "Context" = Some 0
  /\ ~ (1 < 0).
Proof. vm_compute. repeat split; discriminate. Qed.

End VersionFacts.

(** ** Calls of [Supervise] that fail *)

Module FailureFacts.

Import constants policy supervisor Programs ProgramFacts Scripts.
Import ControllerFacts Runs.

Section Controlled.

Context `{E : Engine} `{LP : LogPrefixes}.

Variable i : iptablesctrl.Instance.

(** Without a default address neither entry point makes a call. *)
Lemma run_without_address version contextID cid pol rt old (w : world) :
  (iptablesctrl.defaultIP i (Some (IPAddresses pol))).2 = false ->
  (run (iptablesctrl.ConfigureRules i version contextID
          (MkPUInfo cid (Some pol) (Some rt))) w).1
  = Err "no ip address found"
  /\ (run (iptablesctrl.UpdateRules i version contextID
             (Some (MkPUInfo cid (Some pol) (Some rt))) old) w).1
     = Err "no ip address found".
Proof.
  intros Hip. unfold iptablesctrl.ConfigureRules, iptablesctrl.UpdateRules.
  cbn [PUPolicy_of Runtime].
  destruct (iptablesctrl.defaultIP i (Some (IPAddresses pol))) as [ip ok].
  cbn [snd] in Hip. subst ok.
  destruct (iptablesctrl.chainName contextID version) as [app net].
  split; reflexivity.
Qed.

(** On a host, a PU without a mark is refused by both entry points,
    whatever the engine answers. *)
Lemma run_without_mark version contextID cid pol rt old (w : world) :
  iptablesctrl.mode i = LocalServer ->
  CgroupMark (Options rt) = "" ->
  is_Ok (run (iptablesctrl.ConfigureRules i version contextID
                (MkPUInfo cid (Some pol) (Some rt))) w).1 = false
  /\ is_Ok (run (iptablesctrl.UpdateRules i version contextID
                   (Some (MkPUInfo cid (Some pol) (Some rt))) old) w).1
     = false.
Proof.
  intros Hm Hmark. split.
  - destruct (script_ConfigureRules_no_mark i version contextID cid pol rt
                Hm Hmark) as [_ Ho].
    destruct (run_steady _ w (steady_ConfigureRules i version contextID
                                (MkPUInfo cid (Some pol) (Some rt))))
      as (l & _ & _ & Hok).
    destruct (is_Ok _) eqn:Hr; [|reflexivity].
    destruct (Hok eq_refl) as [_ H]. rewrite Ho in H. discriminate H.
  - destruct (script_UpdateRules_no_mark i version contextID cid pol rt old
                Hm Hmark) as [_ Ho].
    destruct (run_steady _ w (steady_UpdateRules i version contextID
                                (Some (MkPUInfo cid (Some pol) (Some rt))) old))
      as (l & _ & _ & Hok).
    destruct (is_Ok _) eqn:Hr; [|reflexivity].
    destruct (Hok eq_refl) as [_ H]. rewrite Ho in H. discriminate H.
Qed.

End Controlled.

Lemma error_of_not_Ok (r : result unit) : is_Ok r = false -> error_of r <> None.
Proof. destruct r as [[]|msg]; cbn; [discriminate|]. intros _. discriminate. Qed.

(** C5. What a failing [Supervise] leaves.  A call with a nil PU, a nil
    policy or a nil runtime returns an error before anything else: no call
    is made and the supervisor is as it was.  For a PU with its policy and
    its runtime, the error returned is the one of [ConfigureRules], for a
    contextID that is not tracked, or of [UpdateRules], for one that is,
    and after an error the contextID is not tracked.  The implementor then
    has received the refused call and, next, the [DeleteRules] of the
    rollback with the fields of the entry.  With the controller as the
    implementor, a PU without a default address is refused with [no ip
    address found], and on a host a PU without a mark is refused. *)
Theorem failed_Supervise_is_surfaced :
  forall (s : Config) (contextID cid : string) (pol : PUPolicy)
         (rt : PURuntime),
    well_tracked s ->
    let pu := MkPUInfo cid (Some pol) (Some rt) in
    (forall (W : Type) (I : Implementor W) (w : W) (bad : option PUInfo),
        (forall p, bad = Some p -> PUPolicy_of p = None \/ Runtime p = None) ->
        Supervise (I := I) s contextID bad w
        = (Some "Invalid PU or policy info", s, w))
    /\ (forall (W : Type) (I : Implementor W) (w : W),
           let r := Supervise (I := I) s contextID (Some pu) w in
           let a := match versionTracker s !! contextID with
                    | None => ConfigureRules 0 contextID pu w
                    | Some cfg =>
                        UpdateRules (Z.lxor (version cfg) 1) contextID
                          (Some pu) (Some (containerInfo cfg)) w
                    end in
           r.1.1 = a.1
           /\ (r.1.1 <> None -> versionTracker r.1.2 !! contextID = None))
    /\ (forall (answer : impl_call -> list impl_call -> error)
               (w : list impl_call) (err : string),
           let r := Supervise (I := Recorder answer) s contextID (Some pu) w in
           match versionTracker s !! contextID with
           | None =>
               let c := CallConfigureRules 0 contextID pu in
               answer c w = Some err ->
               r = (Some err, s,
                    w ++ [c; rollback_call contextID
                               (created_entry pu pol rt) rt])
           | Some cfg =>
               let c := CallUpdateRules (Z.lxor (version cfg) 1) contextID
                          (Some pu) (Some (containerInfo cfg)) in
               forall rt0,
                 Runtime (containerInfo cfg) = Some rt0 ->
                 answer c w = Some err ->
                 r = (Some err,
                      set_versionTracker s
                        (delete contextID (versionTracker s)),
                      w ++ [c; rollback_call contextID (revert cfg 1) rt0])
           end)
    /\ (forall (E : Engine) (LP : LogPrefixes) (i : iptablesctrl.Instance)
               (addresses : string -> ExtendedMap) (w : world),
           let r := Supervise (I := Controller i addresses) s contextID
                      (Some pu) w in
           ((iptablesctrl.defaultIP i (Some (IPAddresses pol))).2 = false ->
            r.1.1 = Some "no ip address found")
           /\ (iptablesctrl.mode i = LocalServer ->
               CgroupMark (Options rt) = "" -> r.1.1 <> None)).
Proof.
  intros s contextID cid pol rt Hs pu.
  assert (Hgen : forall (W : Type) (I : Implementor W) (w : W),
             let r := Supervise (I := I) s contextID (Some pu) w in
             let a := match versionTracker s !! contextID with
                      | None => ConfigureRules 0 contextID pu w
                      | Some cfg =>
                          UpdateRules (Z.lxor (version cfg) 1) contextID
                            (Some pu) (Some (containerInfo cfg)) w
                      end in
             r.1.1 = a.1
             /\ (r.1.1 <> None -> versionTracker r.1.2 !! contextID = None)).
  { intros W I w r a. subst r a.
    destruct (versionTracker s !! contextID) as [cfg|] eqn:Hc.
    - destruct (Hs contextID cfg Hc) as [_ Hrt].
      destruct (TrackerFacts.Supervise_tracked s contextID cfg pu pol rt w Hc
                  Hrt eq_refl eq_refl) as [He H].
      split; [exact He|]. rewrite He.
      destruct (UpdateRules _ _ _ _ w).1 as [err|]; [|now intros []].
      intros _. rewrite H. apply lookup_delete_eq.
    - destruct (TrackerFacts.Supervise_untracked s contextID pu pol rt w Hc
                  eq_refl eq_refl) as [He H].
      split; [exact He|]. rewrite He.
      destruct (ConfigureRules 0 contextID pu w).1 as [err|]; [|now intros []].
      intros _. rewrite H. exact Hc. }
  split; [|split; [exact Hgen|split]].
  - intros W I w bad Hbad. now apply TrackerFacts.Supervise_invalid.
  - intros answer w err r. subst r.
    destruct (versionTracker s !! contextID) as [cfg|] eqn:Hc.
    + intros c rt0 Hr0 Ha.
      rewrite (SupervisorFacts.Supervise_update answer s contextID cfg pu pol
                 rt rt0 w Hc Hr0 eq_refl eq_refl).
      fold c. rewrite Ha, delete_insert_eq. now rewrite <- app_assoc.
    + intros c Ha.
      rewrite (SupervisorFacts.Supervise_create answer s contextID pu pol rt w
                 Hc eq_refl eq_refl).
      fold c. rewrite Ha, delete_insert_eq, (delete_id _ _ Hc),
        TrackerFacts.set_same_tracker.
      now rewrite <- app_assoc.
  - intros E LP i addresses w r.
    destruct (Hgen world (Controller i addresses) w) as [He _].
    fold r in He. rewrite He. clear He.
    split.
    + intros Hip.
      destruct (versionTracker s !! contextID) as [cfg|];
        cbn [ConfigureRules UpdateRules Controller].
      * pose proof (proj2 (run_without_address i (Z.lxor (version cfg) 1)
                             contextID cid pol rt (Some (containerInfo cfg)) w
                             Hip)) as H.
        fold pu in H. destruct (run _ w) as [res w']. cbn [fst] in *.
        now rewrite H.
      * pose proof (proj1 (run_without_address i 0 contextID cid pol rt None w
                             Hip)) as H.
        fold pu in H. destruct (run _ w) as [res w']. cbn [fst] in *.
        now rewrite H.
    + intros Hm Hmark.
      destruct (versionTracker s !! contextID) as [cfg|];
        cbn [ConfigureRules UpdateRules Controller].
      * pose proof (proj2 (run_without_mark i (Z.lxor (version cfg) 1)
                             contextID cid pol rt (Some (containerInfo cfg)) w
                             Hm Hmark)) as H.
        fold pu in H. destruct (run _ w) as [res w']. cbn [fst] in *.
        now apply error_of_not_Ok.
      * pose proof (proj1 (run_without_mark i 0 contextID cid pol rt None w
                             Hm Hmark)) as H.
        fold pu in H. destruct (run _ w) as [res w']. cbn [fst] in *.
        now apply error_of_not_Ok.
Qed.

(** The theorem on a supervisor that tracks the container of the tests. *)
Lemma failed_Supervise_is_surfaced_witness :
  let cfg := created_entry Examples.container Examples.container_policy
               NewPURuntimeWithDefaults in
  let s := MkConfig RemoteContainer {[ "Context" := cfg ]} in
  let r := Supervise (I := Recorder (fun _ _ => Some "refused")) s "Context"
             (Some Examples.process) [] in
  well_tracked s
  /\ Supervise (I := Recorder (fun _ _ => None)) s "Context" None []
     = (Some "Invalid PU or policy info", s, [])
  /\ r.1.1 = Some "refused"
  /\ (r.1.1 <> None -> versionTracker r.1.2 !! "Context" = None).
Proof.
  intros cfg s r.
  assert (Hs : well_tracked s).
  { apply map_Forall_singleton. split; [left; reflexivity|].
    eexists. reflexivity. }
  destruct (failed_Supervise_is_surfaced s "Context" "Context"
              Examples.container_policy
              (NewPURuntime "sshd" 1 "" None None LinuxProcessPU
                 (Some (MkOptions "" "100" "" [MkService 6 22] "5000")) "")
              Hs) as (Hbad & Hgen & _ & _).
  split; [exact Hs|]. split.
  - apply (Hbad _ (Recorder (fun _ _ => None)) [] None). discriminate.
  - destruct (Hgen _ (Recorder (fun _ _ => Some "refused")) []) as [He Hf].
    split; [exact He|exact Hf].
Defined.

(** C5 fails on an invalid PU for a contextID that is tracked: the
    container of the tests is supervised, and then [Supervise] is called
    for the same contextID with a PU that has no policy.  The call returns
    an error, and the contextID is still tracked: the supervisor and the
    calls made are those before the call. *)
Lemma invalid_PU_leaves_the_entry :
  let I := Recorder (fun _ _ => None) in
  let r0 := Supervise (I := I) (Examples.fresh RemoteContainer) "Context"
              (Some Examples.container) [] in
  let bad := MkPUInfo "Context" None (Some NewPURuntimeWithDefaults) in
  let r := Supervise (I := I) r0.1.2 "Context" (Some bad) r0.2 in
  r0.1.1 = None
  /\ r.1.1 = Some "Invalid PU or policy info"
  /\ is_Some (versionTracker r.1.2 !! "Context")
  /\ r.1.2 = r0.1.2 /\ r.2 = r0.2.
Proof.
  vm_compute. split; [reflexivity|]. split; [reflexivity|].
  split; [eexists; reflexivity|]. split; reflexivity.
Qed.

End FailureFacts.
